(** * pptx/table.py: the table proxies over the DrawingML tree

    A shallow embedding of [src/pptx/table.py].  The XML tree of one
    [a:tbl] element and the graphic frame that contains it form the
    document part of the store; the proxy classes ([Table], [_Cell],
    [_Row], [_Column] and the three collections) are records holding
    handles into that tree.  Methods are computations in a state monad
    with Python exceptions.  The members [fill], [text], [text_frame]
    and [part] hand over to classes of other modules and are left
    out. *)

From stdpp Require Import base list strings gmap pretty.
From Stdlib Require Import ZArith Lia.

Open Scope Z_scope.

(** ** Python values handed to the setters *)

(** The objects a caller can pass as a margin.  A float is kept as a
    mantissa and a binary exponent. *)
#[warnings="-register-all"]
Inductive value : Type :=
  | PyNone
  | PyInt (z : Z)
  | PyFloat (m e : Z)
  | PyStr (s : string)
  | PyTuple (items : list value)
  | PyList (items : list value).

Inductive exn : Type :=
  | TypeError (msg : string)
  | IndexError (msg : string)
  | ValueError (msg : string).

(** [tmpl % arg] for a template [before ++ "%s" ++ after] with this one
    conversion.  A tuple on the right is the argument list itself; any
    other object is the single argument. *)
Definition format_s (str : value → string) (before after : string)
    (arg : value) : exn + string :=
  match arg with
  | PyTuple [] => inl (TypeError "not enough arguments for format string")
  | PyTuple [x] => inr (before +:+ str x +:+ after)
  | PyTuple (_ :: _ :: _) =>
      inl (TypeError "not all arguments converted during string formatting")
  | _ => inr (before +:+ str arg +:+ after)
  end.

(** [tmpl % idx] for a template [before ++ "%d" ++ after] and an int. *)
Definition format_d (before after : string) (idx : Z) : string :=
  before +:+ pretty idx +:+ after.

(** Modelled from the spec: [pptx.compat.is_integer] is not under src/;
    the margin setters accept "an integer-valued length". *)
Definition is_integer (obj : value) : bool :=
  match obj with
  | PyInt _ => true
  | _ => false
  end.

(** [obj is None] *)
Definition is_None (obj : value) : bool :=
  match obj with
  | PyNone => true
  | _ => false
  end.

(** ** The types of the attributes *)

(** Modelled from the spec: the "typed attribute read/write on row,
    column, cell, and table nodes" and the owning container are not
    under src/.  Assigning an attribute hands the value to the type of
    the attribute, which raises [ValueError] for a value it does not
    accept, before anything is written.  Which values a type accepts is
    a parameter: each field gives, for a value, the message of that
    error, or [None] when the value is accepted. *)
Class AttrTypes : Type := {
  tr_h_check : Z → option string;
  gridCol_w_check : Z → option string;
  frame_height_check : Z → option string;
  frame_width_check : Z → option string;
  tc_mar_check : Z → option string;
  tc_anchor_check : Z → option string;
}.

(** ** The XML tree (oxml elements) *)

Record CT_TableCell : Type := {
  marL : option Z;
  marR : option Z;
  marT : option Z;
  marB : option Z;
  anchor : option Z;
}.

Record CT_TableRow : Type := {
  h : Z;
  tc_lst : list CT_TableCell;
}.

Record CT_TableCol : Type := {
  w : Z;
}.

Record CT_TableGrid : Type := {
  gridCol_lst : list CT_TableCol;
}.

(** A merged region, from its origin [(span_r0, span_c0)] to
    [(span_r1, span_c1)], both included. *)
Record span : Type := {
  span_r0 : nat;
  span_c0 : nat;
  span_r1 : nat;
  span_c1 : nat;
}.

Record CT_Table : Type := {
  tr_lst : list CT_TableRow;
  tblGrid : CT_TableGrid;
  firstRow : bool;
  firstCol : bool;
  lastRow : bool;
  lastCol : bool;
  bandRow : bool;
  bandCol : bool;
  spans : list span;
}.

(** The owning container; only the two attributes the table writes. *)
Record GraphicFrame : Type := {
  height : Z;
  width : Z;
}.

(** An element of the tree is referred to by where it sits: an lxml
    element has one parent, and no operation of this module adds,
    removes or moves one, so the position is the element's identity
    (what Python's [is] compares). *)
Abbreviation tr_ref := nat (only parsing).
Abbreviation gridCol_ref := nat (only parsing).
Abbreviation tc_ref := (nat * nat)%type (only parsing).

(** ** The proxy objects *)

(** Every proxy carries the identity of the Python object ([id(obj)]). *)
Abbreviation oid := nat (only parsing).

(** A [Table] proxies the store's [a:tbl] and reports to the store's
    graphic frame ([_tbl] and [_graphic_frame]). *)
Record Table : Type := {
  Table_id : oid;
}.

Record _RowCollection : Type := {
  RowCollection_id : oid;
  RowCollection_parent : Table;
}.

Record _ColumnCollection : Type := {
  ColumnCollection_id : oid;
  ColumnCollection_parent : Table;
}.

Record _Row : Type := {
  Row_id : oid;
  Row_tr : tr_ref;
  Row_parent : _RowCollection;
}.

Record _Column : Type := {
  Column_id : oid;
  Column_gridCol : gridCol_ref;
  Column_parent : _ColumnCollection;
}.

Record _CellCollection : Type := {
  CellCollection_id : oid;
  CellCollection_tr : tr_ref;
  CellCollection_parent : _Row;
}.

(** A cell is made by [Table.cell] or by a [_CellCollection]. *)
Inductive cell_parent : Type :=
  | ParentTable (t : Table)
  | ParentCells (cells : _CellCollection).

Record _Cell : Type := {
  Cell_id : oid;
  Cell_tc : tc_ref;
  Cell_parent : cell_parent;
}.

(** Any object that can stand on the right of [==]. *)
Inductive object : Type :=
  | OValue (v : value)
  | OTable (t : Table)
  | ORow (r : _Row)
  | OColumn (c : _Column)
  | ORowCollection (rs : _RowCollection)
  | OColumnCollection (cs : _ColumnCollection)
  | OCellCollection (cells : _CellCollection)
  | OCell (c : _Cell).

(** ** The store *)

(** [lazy_rows] and [lazy_columns] are the entries that [lazyproperty]
    leaves in the instance dictionary of each [Table] object; a table
    without an entry has not computed the property yet. *)
Record Store : Type := {
  tbl : CT_Table;
  graphic_frame : GraphicFrame;
  lazy_rows : gmap oid _RowCollection;
  lazy_columns : gmap oid _ColumnCollection;
  next_id : oid;
}.

(** ** The monad: state, exceptions, and the states no run reaches *)

(** [Stuck] is not a Python outcome: the model gives it when a loop runs
    out of fuel or when a handle resolves to no element. *)
Inductive outcome (A : Type) : Type :=
  | Ret (a : A)
  | Raise (e : exn)
  | Stuck.
Arguments Ret {A} a.
Arguments Raise {A} e.
Arguments Stuck {A}.

Definition M (A : Type) : Type := Store → outcome A * Store.

Definition ret {A} (a : A) : M A := λ σ, (Ret a, σ).
Definition raise {A} (e : exn) : M A := λ σ, (Raise e, σ).
Definition stuck {A} : M A := λ σ, (Stuck, σ).

Definition bind {A B} (k : A → M B) (m : M A) : M B :=
  λ σ, match m σ with
       | (Ret a, σ') => k a σ'
       | (Raise e, σ') => (Raise e, σ')
       | (Stuck, σ') => (Stuck, σ')
       end.

#[global] Instance M_ret : MRet M := @ret.
#[global] Instance M_bind : MBind M := @bind.

Definition gets {A} (f : Store → A) : M A := λ σ, (Ret (f σ), σ).
Definition modify (f : Store → Store) : M unit := λ σ, (Ret tt, f σ).

(** A partial read: [Stuck] on a dangling handle. *)
Definition get_some {A} (f : Store → option A) : M A :=
  λ σ, match f σ with
       | Some a => (Ret a, σ)
       | None => (Stuck, σ)
       end.

(** Replacing one component of the store. *)
Definition with_tbl (f : CT_Table → CT_Table) (σ : Store) : Store :=
  {| tbl := f (tbl σ); graphic_frame := graphic_frame σ;
     lazy_rows := lazy_rows σ; lazy_columns := lazy_columns σ;
     next_id := next_id σ |}.

Definition with_graphic_frame (f : GraphicFrame → GraphicFrame)
    (σ : Store) : Store :=
  {| tbl := tbl σ; graphic_frame := f (graphic_frame σ);
     lazy_rows := lazy_rows σ; lazy_columns := lazy_columns σ;
     next_id := next_id σ |}.

Definition with_lazy_rows
    (f : gmap oid _RowCollection → gmap oid _RowCollection)
    (σ : Store) : Store :=
  {| tbl := tbl σ; graphic_frame := graphic_frame σ;
     lazy_rows := f (lazy_rows σ); lazy_columns := lazy_columns σ;
     next_id := next_id σ |}.

Definition with_lazy_columns
    (f : gmap oid _ColumnCollection → gmap oid _ColumnCollection)
    (σ : Store) : Store :=
  {| tbl := tbl σ; graphic_frame := graphic_frame σ;
     lazy_rows := lazy_rows σ; lazy_columns := f (lazy_columns σ);
     next_id := next_id σ |}.

(** Creating a Python object gives it an identity no earlier object has. *)
Definition alloc : M oid :=
  λ σ, (Ret (next_id σ),
        {| tbl := tbl σ; graphic_frame := graphic_frame σ;
           lazy_rows := lazy_rows σ; lazy_columns := lazy_columns σ;
           next_id := S (next_id σ) |}).

(** ** Python built-ins used by the module *)

(** [len(lst)] *)
Definition py_len {A} (lst : list A) : Z := Z.of_nat (length lst).

(** [lst[idx]] on a list: a negative index counts from the end. *)
Definition list_getitem {A} (lst : list A) (idx : Z) : M A :=
  let pos := if decide (idx < 0) then py_len lst + idx else idx in
  if decide (pos < 0) then raise (IndexError "list index out of range")
  else match lst !! Z.to_nat pos with
       | Some a => mret a
       | None => raise (IndexError "list index out of range")
       end.

(** [sum(lst)]: added left to right, starting from 0. *)
Definition py_sum (lst : list Z) : Z := foldl Z.add 0 lst.

(** What a [for] loop asks of an iterator of state [I]: the next item
    and the iterator's new state, or nothing when it is exhausted. *)
Definition next_fn (I A : Type) : Type := I → M (option A * I).

(** The iterator Python builds for an object that has [__getitem__] and
    no [__iter__]: it asks for the items 0, 1, 2, ... and stops at the
    first [IndexError]. *)
Definition seq_next {A} (getitem : Z → M A) : next_fn Z A :=
  λ idx σ, match getitem idx σ with
           | (Ret a, σ') => (Ret (Some a, idx + 1), σ')
           | (Raise (IndexError _), σ') => (Ret (None, idx), σ')
           | (Raise e, σ') => (Raise e, σ')
           | (Stuck, σ') => (Stuck, σ')
           end.

(** [[body(x) for x in it]], with at most [fuel] calls of [next]. *)
Fixpoint comprehension {I A B} (next : next_fn I A) (body : A → M B)
    (fuel : nat) (it : I) : M (list B) :=
  match fuel with
  | O => stuck
  | S fuel' =>
      r ← next it;
      match r with
      | (None, _) => mret []
      | (Some a, it') =>
          b ← body a;
          bs ← comprehension next body fuel' it';
          mret (b :: bs)
      end
  end.

(** ** Attribute access on the elements (oxml) *)

Definition tbl_tr_lst : M (list tr_ref) :=
  gets (λ σ, seq 0 (length (tr_lst (tbl σ)))).

Definition tbl_gridCol_lst : M (list gridCol_ref) :=
  gets (λ σ, seq 0 (length (gridCol_lst (tblGrid (tbl σ))))).

(** [elt.attr = v] for an integer attribute: the type of the attribute
    checks the value, and refuses it with a [ValueError] or lets [write]
    store it. *)
Definition checked (check : Z → option string) (v : Z) (write : M unit)
    : M unit :=
  match check v with
  | Some msg => raise (ValueError msg)
  | None => write
  end.

Definition tr_tc_lst (tr : tr_ref) : M (list tc_ref) :=
  get_some (λ σ, row ← tr_lst (tbl σ) !! tr;
                 Some (pair tr <$> seq 0 (length (tc_lst row)))).

Definition tr_get_h (tr : tr_ref) : M Z :=
  get_some (λ σ, h <$> tr_lst (tbl σ) !! tr).

Definition write_h (tr : tr_ref) (v : Z) (t : CT_Table) : CT_Table :=
  {| tr_lst := alter (λ row, {| h := v; tc_lst := tc_lst row |}) tr (tr_lst t);
     tblGrid := tblGrid t;
     firstRow := firstRow t; firstCol := firstCol t;
     lastRow := lastRow t; lastCol := lastCol t;
     bandRow := bandRow t; bandCol := bandCol t; spans := spans t |}.

(** Modelled from the spec: the typed write of the [h] attribute of an
    [a:tr] is not under src/; the value is checked by the attribute's
    type, then stored. *)
Definition tr_set_h {T : AttrTypes} (tr : tr_ref) (v : Z) : M unit :=
  checked tr_h_check v
    (λ σ, match tr_lst (tbl σ) !! tr with
          | Some _ => (Ret tt, with_tbl (write_h tr v) σ)
          | None => (Stuck, σ)
          end).

Definition gridCol_get_w (gridCol : gridCol_ref) : M Z :=
  get_some (λ σ, w <$> gridCol_lst (tblGrid (tbl σ)) !! gridCol).

Definition write_w (gridCol : gridCol_ref) (v : Z) (t : CT_Table) : CT_Table :=
  {| tr_lst := tr_lst t;
     tblGrid := {| gridCol_lst :=
                     <[gridCol := {| w := v |}]> (gridCol_lst (tblGrid t)) |};
     firstRow := firstRow t; firstCol := firstCol t;
     lastRow := lastRow t; lastCol := lastCol t;
     bandRow := bandRow t; bandCol := bandCol t; spans := spans t |}.

(** Modelled from the spec: the typed write of the [w] attribute of an
    [a:gridCol] is not under src/; the value is checked by the
    attribute's type, then stored. *)
Definition gridCol_set_w {T : AttrTypes} (gridCol : gridCol_ref) (v : Z)
    : M unit :=
  checked gridCol_w_check v
    (λ σ, match gridCol_lst (tblGrid (tbl σ)) !! gridCol with
          | Some _ => (Ret tt, with_tbl (write_w gridCol v) σ)
          | None => (Stuck, σ)
          end).

(** The four margin attributes of an [a:tc]. *)
Inductive margin_attr : Type := MarL | MarR | MarT | MarB.

Definition read_mar (a : margin_attr) (tc : CT_TableCell) : option Z :=
  match a with
  | MarL => marL tc
  | MarR => marR tc
  | MarT => marT tc
  | MarB => marB tc
  end.

Definition write_mar (a : margin_attr) (v : option Z)
    (tc : CT_TableCell) : CT_TableCell :=
  match a with
  | MarL => {| marL := v; marR := marR tc; marT := marT tc;
               marB := marB tc; anchor := anchor tc |}
  | MarR => {| marL := marL tc; marR := v; marT := marT tc;
               marB := marB tc; anchor := anchor tc |}
  | MarT => {| marL := marL tc; marR := marR tc; marT := v;
               marB := marB tc; anchor := anchor tc |}
  | MarB => {| marL := marL tc; marR := marR tc; marT := marT tc;
               marB := v; anchor := anchor tc |}
  end.

Definition lookup_tc (t : CT_Table) (tc : tc_ref) : option CT_TableCell :=
  row ← tr_lst t !! tc.1; tc_lst row !! tc.2.

Definition alter_tc (f : CT_TableCell → CT_TableCell) (tc : tc_ref)
    (t : CT_Table) : CT_Table :=
  {| tr_lst := alter (λ row, {| h := h row;
                                tc_lst := alter f tc.2 (tc_lst row) |})
                     tc.1 (tr_lst t);
     tblGrid := tblGrid t;
     firstRow := firstRow t; firstCol := firstCol t;
     lastRow := lastRow t; lastCol := lastCol t;
     bandRow := bandRow t; bandCol := bandCol t; spans := spans t |}.

(** What a margin reads as when its attribute is absent: 0.1 inch for
    the left and right margins and 0.05 inch for the top and bottom
    ones (docstring of [_Cell.margin_left]), at 914400 units an inch. *)
Definition default_mar (a : margin_attr) : Z :=
  match a with
  | MarL | MarR => 91440
  | MarT | MarB => 45720
  end.

(** Modelled from the spec: the typed read of a margin attribute of an
    [a:tc] is not under src/; "unset = inherited default — 0.1 inch
    horizontal, 0.05 inch vertical". *)
Definition tc_get_mar (a : margin_attr) (tc : tc_ref) : M Z :=
  get_some (λ σ, (λ elt, default (default_mar a) (read_mar a elt))
                 <$> lookup_tc (tbl σ) tc).

(** Modelled from the spec: the typed write of a margin attribute of
    an [a:tc] is not under src/; an integer length is checked by the
    attribute's type, then stored, and the unset sentinel clears the
    attribute.  The setters hand it nothing else. *)
Definition tc_set_mar {T : AttrTypes} (a : margin_attr) (tc : tc_ref)
    (v : value) : M unit :=
  let write (x : option Z) : M unit :=
    λ σ, match lookup_tc (tbl σ) tc with
         | Some _ => (Ret tt, with_tbl (alter_tc (write_mar a x) tc) σ)
         | None => (Stuck, σ)
         end in
  match v with
  | PyInt z => checked tc_mar_check z (write (Some z))
  | PyNone => write None
  | _ => stuck
  end.

Definition write_anchor (v : option Z) (tc : CT_TableCell) : CT_TableCell :=
  {| marL := marL tc; marR := marR tc; marT := marT tc; marB := marB tc;
     anchor := v |}.

Definition tc_get_anchor (tc : tc_ref) : M (option Z) :=
  get_some (λ σ, anchor <$> lookup_tc (tbl σ) tc).

(** Modelled from the spec: the typed write of the [anchor] attribute
    of an [a:tc] is not under src/; a number is checked against the
    enumeration, then stored, and the unset sentinel clears the
    attribute. *)
Definition tc_set_anchor {T : AttrTypes} (tc : tc_ref) (v : option Z)
    : M unit :=
  let write : M unit :=
    λ σ, match lookup_tc (tbl σ) tc with
         | Some _ => (Ret tt, with_tbl (alter_tc (write_anchor v) tc) σ)
         | None => (Stuck, σ)
         end in
  match v with
  | Some z => checked tc_anchor_check z write
  | None => write
  end.

(** Modelled from the spec: [CT_TableCell.is_merge_origin] is not under
    src/; "true iff this cell is the top-left member of a merged
    span". *)
Definition tc_is_merge_origin (tc : tc_ref) : M bool :=
  gets (λ σ, bool_decide
               (Exists (λ s, (span_r0 s, span_c0 s) = tc) (spans (tbl σ)))).

Definition covers (s : span) (r c : nat) : bool :=
  bool_decide (span_r0 s ≤ r ≤ span_r1 s ∧ span_c0 s ≤ c ≤ span_c1 s)%nat.

(** Modelled from the spec: [CT_Table.tc] is not under src/; "given
    [(row_idx, col_idx)], return the occupying cell element (origin if
    covered)", and an out-of-range coordinate is rejected. *)
Definition CT_Table_tc (t : CT_Table) (row_idx col_idx : Z) : option tc_ref :=
  if decide (row_idx < 0 ∨ col_idx < 0) then None
  else
    let r := Z.to_nat row_idx in
    let c := Z.to_nat col_idx in
    match lookup_tc t (r, c) with
    | None => None
    | Some _ =>
        match List.find (λ s, covers s r c) (spans t) with
        | Some s => Some (span_r0 s, span_c0 s)
        | None => Some (r, c)
        end
    end.

Definition tbl_tc (row_idx col_idx : Z) : M tc_ref :=
  λ σ, match CT_Table_tc (tbl σ) row_idx col_idx with
       | Some tc => (Ret tc, σ)
       | None => (Raise (IndexError "list index out of range"), σ)
       end.

(** ** class _Cell *)

Definition new_Cell (tc : tc_ref) (parent : cell_parent) : M _Cell :=
  i ← alloc; mret {| Cell_id := i; Cell_tc := tc; Cell_parent := parent |}.

(** [isinstance(other, type(self))] for a [_Cell] [self]: the class has
    no subclass. *)
Definition isinstance_Cell (other : object) : option _Cell :=
  match other with
  | OCell c => Some c
  | _ => None
  end.

(** [_Cell.__eq__] *)
Definition Cell_eq (self : _Cell) (other : object) : bool :=
  match isinstance_Cell other with
  | None => false
  | Some other => bool_decide (Cell_tc self = Cell_tc other)
  end.

(** [_Cell.__ne__] *)
Definition Cell_ne (self : _Cell) (other : object) : bool :=
  match isinstance_Cell other with
  | None => true
  | Some other => negb (bool_decide (Cell_tc self = Cell_tc other))
  end.

(** [_Cell.is_merge_origin] *)
Definition Cell_is_merge_origin (self : _Cell) : M bool :=
  tc_is_merge_origin (Cell_tc self).

(** [_Cell.vertical_anchor] and its setter; a member of the enumeration
    is kept as its number. *)
Definition Cell_vertical_anchor (self : _Cell) : M (option Z) :=
  tc_get_anchor (Cell_tc self).

Definition Cell_vertical_anchor_setter {T : AttrTypes} (self : _Cell)
    (mso_anchor_idx : option Z) : M unit :=
  tc_set_anchor (Cell_tc self) mso_anchor_idx.

Section margins.
(** Python's built-in [str()], which [%s] applies to its argument. *)
Variable str : value → string.

(** [_Cell._validate_margin_value] *)
Definition Cell_validate_margin_value (margin_value : value) : M unit :=
  if negb (is_integer margin_value)
     && negb (is_None margin_value)
  then
    match format_s str "margin value must be integer or None, got '" "'"
                   margin_value with
    | inr msg => raise (TypeError msg)
    | inl e => raise e
    end
  else mret tt.

(** The getters [margin_left], [margin_right], [margin_top],
    [margin_bottom] *)
Definition Cell_margin_left (self : _Cell) : M Z :=
  tc_get_mar MarL (Cell_tc self).
Definition Cell_margin_right (self : _Cell) : M Z :=
  tc_get_mar MarR (Cell_tc self).
Definition Cell_margin_top (self : _Cell) : M Z :=
  tc_get_mar MarT (Cell_tc self).
Definition Cell_margin_bottom (self : _Cell) : M Z :=
  tc_get_mar MarB (Cell_tc self).

(** and their setters *)
Definition Cell_margin_left_setter {T : AttrTypes} (self : _Cell)
    (margin_left : value)
    : M unit :=
  Cell_validate_margin_value margin_left;;
  tc_set_mar MarL (Cell_tc self) margin_left.

Definition Cell_margin_right_setter {T : AttrTypes} (self : _Cell)
    (margin_right : value)
    : M unit :=
  Cell_validate_margin_value margin_right;;
  tc_set_mar MarR (Cell_tc self) margin_right.

Definition Cell_margin_top_setter {T : AttrTypes} (self : _Cell)
    (margin_top : value)
    : M unit :=
  Cell_validate_margin_value margin_top;;
  tc_set_mar MarT (Cell_tc self) margin_top.

Definition Cell_margin_bottom_setter {T : AttrTypes} (self : _Cell)
    (margin_bottom : value)
    : M unit :=
  Cell_validate_margin_value margin_bottom;;
  tc_set_mar MarB (Cell_tc self) margin_bottom.
End margins.

(** ** class _Column, class _Row: construction and getters *)

Definition new_Column (gridCol : gridCol_ref) (parent : _ColumnCollection)
    : M _Column :=
  i ← alloc;
  mret {| Column_id := i; Column_gridCol := gridCol; Column_parent := parent |}.

(** [_Column.width] *)
Definition Column_width (self : _Column) : M Z :=
  gridCol_get_w (Column_gridCol self).

Definition new_Row (tr : tr_ref) (parent : _RowCollection) : M _Row :=
  i ← alloc; mret {| Row_id := i; Row_tr := tr; Row_parent := parent |}.

(** [_Row.height] *)
Definition Row_height (self : _Row) : M Z :=
  tr_get_h (Row_tr self).

(** ** class _CellCollection *)

Definition new_CellCollection (tr : tr_ref) (parent : _Row)
    : M _CellCollection :=
  i ← alloc;
  mret {| CellCollection_id := i; CellCollection_tr := tr;
          CellCollection_parent := parent |}.

(** [_Row.cells] *)
Definition Row_cells (self : _Row) : M _CellCollection :=
  new_CellCollection (Row_tr self) self.

(** [_CellCollection.__getitem__] *)
Definition CellCollection_getitem (self : _CellCollection) (idx : Z)
    : M _Cell :=
  lst ← tr_tc_lst (CellCollection_tr self);
  if decide (idx < 0 ∨ idx >= py_len lst) then
    let msg := format_d "cell index [" "] out of range" idx in
    raise (IndexError msg)
  else
    lst ← tr_tc_lst (CellCollection_tr self);
    tc ← list_getitem lst idx;
    new_Cell tc (ParentCells self).

(** The generator [(_Cell(tc, self) for tc in self._tr.tc_lst)]: the
    list is taken when the generator is made, a cell is built each time
    the generator is resumed. *)
Record cell_generator : Type := {
  gen_self : _CellCollection;
  gen_lst : list tc_ref;
  gen_pos : nat;
}.

(** [_CellCollection.__iter__] *)
Definition CellCollection_iter (self : _CellCollection) : M cell_generator :=
  lst ← tr_tc_lst (CellCollection_tr self);
  mret {| gen_self := self; gen_lst := lst; gen_pos := 0 |}.

Definition cell_generator_next : next_fn cell_generator _Cell :=
  λ g, match gen_lst g !! gen_pos g with
       | Some tc =>
           c ← new_Cell tc (ParentCells (gen_self g));
           mret (Some c, {| gen_self := gen_self g; gen_lst := gen_lst g;
                            gen_pos := S (gen_pos g) |})
       | None => mret (None, g)
       end.

(** [_CellCollection.__len__] *)
Definition CellCollection_len (self : _CellCollection) : M Z :=
  lst ← tr_tc_lst (CellCollection_tr self); mret (py_len lst).

(** ** class _ColumnCollection, class _RowCollection: access *)

Definition new_ColumnCollection (parent : Table) : M _ColumnCollection :=
  i ← alloc;
  mret {| ColumnCollection_id := i; ColumnCollection_parent := parent |}.

(** [_ColumnCollection.__getitem__] *)
Definition ColumnCollection_getitem (self : _ColumnCollection) (idx : Z)
    : M _Column :=
  lst ← tbl_gridCol_lst;
  if decide (idx < 0 ∨ idx >= py_len lst) then
    let msg := format_d "column index [" "] out of range" idx in
    raise (IndexError msg)
  else
    lst ← tbl_gridCol_lst;
    gridCol ← list_getitem lst idx;
    new_Column gridCol self.

(** [_ColumnCollection.__len__] *)
Definition ColumnCollection_len (self : _ColumnCollection) : M Z :=
  lst ← tbl_gridCol_lst; mret (py_len lst).

Definition new_RowCollection (parent : Table) : M _RowCollection :=
  i ← alloc;
  mret {| RowCollection_id := i; RowCollection_parent := parent |}.

(** [_RowCollection.__len__] *)
Definition RowCollection_len (self : _RowCollection) : M Z :=
  lst ← tbl_tr_lst; mret (py_len lst).

(** [_RowCollection.__getitem__] *)
Definition RowCollection_getitem (self : _RowCollection) (idx : Z)
    : M _Row :=
  n ← RowCollection_len self;
  if decide (idx < 0 ∨ idx >= n) then
    let msg := format_d "row index [" "] out of range" idx in
    raise (IndexError msg)
  else
    lst ← tbl_tr_lst;
    tr ← list_getitem lst idx;
    new_Row tr self.

(** ** class Table *)

(** [Table(tbl, graphic_frame)] *)
Definition new_Table : M Table :=
  i ← alloc; mret {| Table_id := i |}.

(** [Table.cell] *)
Definition Table_cell (self : Table) (row_idx col_idx : Z) : M _Cell :=
  tc ← tbl_tc row_idx col_idx;
  new_Cell tc (ParentTable self).

(** Modelled from the spec: [pptx.util.lazyproperty] is not under src/;
    the property is "lazily constructed, cached for the life of the
    Table": the first access runs the method and keeps what it
    returns, every later access returns what was kept. *)
Definition Table_columns (self : Table) : M _ColumnCollection :=
  cached ← gets (λ σ, lazy_columns σ !! Table_id self);
  match cached with
  | Some cs => mret cs
  | None =>
      cs ← new_ColumnCollection self;
      modify (with_lazy_columns <[Table_id self := cs]>);;
      mret cs
  end.

Definition Table_rows (self : Table) : M _RowCollection :=
  cached ← gets (λ σ, lazy_rows σ !! Table_id self);
  match cached with
  | Some rs => mret rs
  | None =>
      rs ← new_RowCollection self;
      modify (with_lazy_rows <[Table_id self := rs]>);;
      mret rs
  end.

(** the six style flags *)
Inductive flag : Type :=
  FirstRow | FirstCol | LastRow | LastCol | BandRow | BandCol.

Definition read_flag (f : flag) (t : CT_Table) : bool :=
  match f with
  | FirstRow => firstRow t
  | FirstCol => firstCol t
  | LastRow => lastRow t
  | LastCol => lastCol t
  | BandRow => bandRow t
  | BandCol => bandCol t
  end.

Definition write_flag (f : flag) (v : bool) (t : CT_Table) : CT_Table :=
  {| tr_lst := tr_lst t; tblGrid := tblGrid t;
     firstRow := if f is FirstRow then v else firstRow t;
     firstCol := if f is FirstCol then v else firstCol t;
     lastRow := if f is LastRow then v else lastRow t;
     lastCol := if f is LastCol then v else lastCol t;
     bandRow := if f is BandRow then v else bandRow t;
     bandCol := if f is BandCol then v else bandCol t;
     spans := spans t |}.

Definition Table_first_col (self : Table) : M bool :=
  gets (λ σ, read_flag FirstCol (tbl σ)).
Definition Table_first_col_setter (self : Table) (v : bool) : M unit :=
  modify (with_tbl (write_flag FirstCol v)).
Definition Table_first_row (self : Table) : M bool :=
  gets (λ σ, read_flag FirstRow (tbl σ)).
Definition Table_first_row_setter (self : Table) (v : bool) : M unit :=
  modify (with_tbl (write_flag FirstRow v)).
Definition Table_horz_banding (self : Table) : M bool :=
  gets (λ σ, read_flag BandRow (tbl σ)).
Definition Table_horz_banding_setter (self : Table) (v : bool) : M unit :=
  modify (with_tbl (write_flag BandRow v)).
Definition Table_last_col (self : Table) : M bool :=
  gets (λ σ, read_flag LastCol (tbl σ)).
Definition Table_last_col_setter (self : Table) (v : bool) : M unit :=
  modify (with_tbl (write_flag LastCol v)).
Definition Table_last_row (self : Table) : M bool :=
  gets (λ σ, read_flag LastRow (tbl σ)).
Definition Table_last_row_setter (self : Table) (v : bool) : M unit :=
  modify (with_tbl (write_flag LastRow v)).
Definition Table_vert_banding (self : Table) : M bool :=
  gets (λ σ, read_flag BandCol (tbl σ)).
Definition Table_vert_banding_setter (self : Table) (v : bool) : M unit :=
  modify (with_tbl (write_flag BandCol v)).

(** Modelled from the spec: the owning container is not under src/;
    "[height]/[width] assignment calls carrying the recomputed
    aggregate", checked by the type of the extent, then stored. *)
Definition frame_set_height {T : AttrTypes} (v : Z) : M unit :=
  checked frame_height_check v
    (modify (with_graphic_frame
               (λ gf, {| height := v; width := width gf |}))).

Definition frame_set_width {T : AttrTypes} (v : Z) : M unit :=
  checked frame_width_check v
    (modify (with_graphic_frame
               (λ gf, {| height := height gf; width := v |}))).

(** [Table.notify_height_changed]; [fuel] bounds the loop over the
    rows. *)
Definition Table_notify_height_changed {T : AttrTypes} (fuel : nat)
    (self : Table) : M unit :=
  rows ← Table_rows self;
  heights ← comprehension (seq_next (RowCollection_getitem rows))
                          Row_height fuel 0;
  let new_table_height := py_sum heights in
  frame_set_height new_table_height.

(** [Table.notify_width_changed] *)
Definition Table_notify_width_changed {T : AttrTypes} (fuel : nat)
    (self : Table) : M unit :=
  columns ← Table_columns self;
  widths ← comprehension (seq_next (ColumnCollection_getitem columns))
                         Column_width fuel 0;
  let new_table_width := py_sum widths in
  frame_set_width new_table_width.

(** ** The notification chain and the two size setters *)

(** [_ColumnCollection.notify_width_changed] *)
Definition ColumnCollection_notify_width_changed {T : AttrTypes} (fuel : nat)
    (self : _ColumnCollection) : M unit :=
  Table_notify_width_changed fuel (ColumnCollection_parent self).

(** [_RowCollection.notify_height_changed] *)
Definition RowCollection_notify_height_changed {T : AttrTypes} (fuel : nat)
    (self : _RowCollection) : M unit :=
  Table_notify_height_changed fuel (RowCollection_parent self).

(** [_Column.width] setter *)
Definition Column_width_setter {T : AttrTypes} (fuel : nat) (self : _Column)
    (width : Z)
    : M unit :=
  gridCol_set_w (Column_gridCol self) width;;
  ColumnCollection_notify_width_changed fuel (Column_parent self).

(** [_Row.height] setter *)
Definition Row_height_setter {T : AttrTypes} (fuel : nat) (self : _Row)
    (height : Z)
    : M unit :=
  tr_set_h (Row_tr self) height;;
  RowCollection_notify_height_changed fuel (Row_parent self).

(** * Vocabulary of the statements *)

(** ** Client programs *)

(** [table.rows[i].height = v] and [table.columns[j].width = v] *)
Inductive assignment : Type :=
  | SetHeight (i v : Z)
  | SetWidth (j v : Z).

Definition assign {T : AttrTypes} (fuel : nat) (table : Table)
    (a : assignment) : M unit :=
  match a with
  | SetHeight i v =>
      rows ← Table_rows table;
      row ← RowCollection_getitem rows i;
      Row_height_setter fuel row v
  | SetWidth j v =>
      columns ← Table_columns table;
      column ← ColumnCollection_getitem columns j;
      Column_width_setter fuel column v
  end.

Fixpoint assign_all {T : AttrTypes} (fuel : nat) (table : Table)
    (l : list assignment)
    : M unit :=
  match l with
  | [] => mret tt
  | a :: l' => assign fuel table a;; assign_all fuel table l'
  end.

(** [list(it)] *)
Definition py_list {I A} (next : next_fn I A) (fuel : nat) (it : I)
    : M (list A) :=
  comprehension next mret fuel it.

(** [iter(coll)] for a collection without [__iter__]. *)
Definition seq_iter : M Z := mret 0.

(** The setter of each margin attribute. *)
Definition Cell_margin_setter {T : AttrTypes} (str : value → string)
    (a : margin_attr) : _Cell → value → M unit :=
  match a with
  | MarL => Cell_margin_left_setter str
  | MarR => Cell_margin_right_setter str
  | MarT => Cell_margin_top_setter str
  | MarB => Cell_margin_bottom_setter str
  end.

(** The message the template of [_validate_margin_value] gives for [v]. *)
Definition margin_message (str : value → string) (v : value) : string :=
  "margin value must be integer or None, got '" +:+ str v +:+ "'".

Definition Table_flag (f : flag) : Table → M bool :=
  match f with
  | FirstRow => Table_first_row
  | FirstCol => Table_first_col
  | LastRow => Table_last_row
  | LastCol => Table_last_col
  | BandRow => Table_horz_banding
  | BandCol => Table_vert_banding
  end.

Definition Table_flag_setter (f : flag) : Table → bool → M unit :=
  match f with
  | FirstRow => Table_first_row_setter
  | FirstCol => Table_first_col_setter
  | LastRow => Table_last_row_setter
  | LastCol => Table_last_col_setter
  | BandRow => Table_horz_banding_setter
  | BandCol => Table_vert_banding_setter
  end.

Definition Cell_margin (a : margin_attr) : _Cell → M Z :=
  match a with
  | MarL => Cell_margin_left
  | MarR => Cell_margin_right
  | MarT => Cell_margin_top
  | MarB => Cell_margin_bottom
  end.

Definition drop_result {A} (m : M A) : M unit := m;; mret tt.

(** The calls a client can make on the members embedded above; what a
    call returns is dropped, the proxies later calls act on are
    arguments. *)
Inductive call : Type :=
  | CallTable
  | CallCell (t : Table) (row_idx col_idx : Z)
  | CallRows (t : Table)
  | CallColumns (t : Table)
  | CallGetFlag (t : Table) (f : flag)
  | CallSetFlag (t : Table) (f : flag) (v : bool)
  | CallTableNotifyHeight (t : Table)
  | CallTableNotifyWidth (t : Table)
  | CallGetMargin (a : margin_attr) (c : _Cell)
  | CallSetMargin (a : margin_attr) (c : _Cell) (v : value)
  | CallIsMergeOrigin (c : _Cell)
  | CallGetAnchor (c : _Cell)
  | CallSetAnchor (c : _Cell) (v : option Z)
  | CallGetWidth (c : _Column)
  | CallSetWidth (c : _Column) (v : Z)
  | CallGetHeight (r : _Row)
  | CallSetHeight (r : _Row) (v : Z)
  | CallRowCells (r : _Row)
  | CallCellsGetitem (cells : _CellCollection) (idx : Z)
  | CallCellsLen (cells : _CellCollection)
  | CallCellsList (cells : _CellCollection)
  | CallColumnsGetitem (cs : _ColumnCollection) (idx : Z)
  | CallColumnsLen (cs : _ColumnCollection)
  | CallColumnsList (cs : _ColumnCollection)
  | CallColumnsNotify (cs : _ColumnCollection)
  | CallRowsGetitem (rs : _RowCollection) (idx : Z)
  | CallRowsLen (rs : _RowCollection)
  | CallRowsList (rs : _RowCollection)
  | CallRowsNotify (rs : _RowCollection).

Definition exec {T : AttrTypes} (str : value → string) (fuel : nat)
    (c : call) : M unit :=
  match c with
  | CallTable => drop_result new_Table
  | CallCell t r c => drop_result (Table_cell t r c)
  | CallRows t => drop_result (Table_rows t)
  | CallColumns t => drop_result (Table_columns t)
  | CallGetFlag t f => drop_result (Table_flag f t)
  | CallSetFlag t f v => Table_flag_setter f t v
  | CallTableNotifyHeight t => Table_notify_height_changed fuel t
  | CallTableNotifyWidth t => Table_notify_width_changed fuel t
  | CallGetMargin a c => drop_result (Cell_margin a c)
  | CallSetMargin a c v => Cell_margin_setter str a c v
  | CallIsMergeOrigin c => drop_result (Cell_is_merge_origin c)
  | CallGetAnchor c => drop_result (Cell_vertical_anchor c)
  | CallSetAnchor c v => Cell_vertical_anchor_setter c v
  | CallGetWidth c => drop_result (Column_width c)
  | CallSetWidth c v => Column_width_setter fuel c v
  | CallGetHeight r => drop_result (Row_height r)
  | CallSetHeight r v => Row_height_setter fuel r v
  | CallRowCells r => drop_result (Row_cells r)
  | CallCellsGetitem cells idx => drop_result (CellCollection_getitem cells idx)
  | CallCellsLen cells => drop_result (CellCollection_len cells)
  | CallCellsList cells =>
      it ← CellCollection_iter cells;
      drop_result (py_list cell_generator_next fuel it)
  | CallColumnsGetitem cs idx =>
      drop_result (ColumnCollection_getitem cs idx)
  | CallColumnsLen cs => drop_result (ColumnCollection_len cs)
  | CallColumnsList cs =>
      drop_result (py_list (seq_next (ColumnCollection_getitem cs)) fuel 0)
  | CallColumnsNotify cs => ColumnCollection_notify_width_changed fuel cs
  | CallRowsGetitem rs idx => drop_result (RowCollection_getitem rs idx)
  | CallRowsLen rs => drop_result (RowCollection_len rs)
  | CallRowsList rs =>
      drop_result (py_list (seq_next (RowCollection_getitem rs)) fuel 0)
  | CallRowsNotify rs => RowCollection_notify_height_changed fuel rs
  end.

(** The store after a sequence of calls, whatever each of them returned
    or raised. *)
Definition exec_all {T : AttrTypes} (str : value → string) (fuel : nat)
    (calls : list call)
    (σ : Store) : Store :=
  foldl (λ σ c, (exec str fuel c σ).2) σ calls.

(** ** The stores a run ends in *)

(** The sum of a list of lengths. *)
Definition Zsum (l : list Z) : Z := foldr Z.add 0 l.

(** The store after [k] more objects were created. *)
Definition bump (k : nat) (σ : Store) : Store :=
  {| tbl := tbl σ; graphic_frame := graphic_frame σ;
     lazy_rows := lazy_rows σ; lazy_columns := lazy_columns σ;
     next_id := (k + next_id σ)%nat |}.

(** What [table.rows] returns in [σ], and the store it leaves. *)
Definition rows_of (t : Table) (σ : Store) : _RowCollection :=
  default {| RowCollection_id := next_id σ; RowCollection_parent := t |}
          (lazy_rows σ !! Table_id t).

Definition after_rows (t : Table) (σ : Store) : Store :=
  match lazy_rows σ !! Table_id t with
  | Some _ => σ
  | None => with_lazy_rows <[Table_id t := rows_of t σ]> (bump 1 σ)
  end.

Definition columns_of (t : Table) (σ : Store) : _ColumnCollection :=
  default {| ColumnCollection_id := next_id σ; ColumnCollection_parent := t |}
          (lazy_columns σ !! Table_id t).

Definition after_columns (t : Table) (σ : Store) : Store :=
  match lazy_columns σ !! Table_id t with
  | Some _ => σ
  | None => with_lazy_columns <[Table_id t := columns_of t σ]> (bump 1 σ)
  end.

(** The store [notify_height_changed] leaves: the collection is cached,
    one [_Row] was made per row, and the frame has the new height. *)
Definition height_changed (t : Table) (σ : Store) : Store :=
  with_graphic_frame
    (λ gf, {| height := Zsum (h <$> tr_lst (tbl σ)); width := width gf |})
    (bump (length (tr_lst (tbl σ))) (after_rows t σ)).

Definition width_changed (t : Table) (σ : Store) : Store :=
  with_graphic_frame
    (λ gf, {| height := height gf;
              width := Zsum (w <$> gridCol_lst (tblGrid (tbl σ))) |})
    (bump (length (gridCol_lst (tblGrid (tbl σ)))) (after_columns t σ)).

(** The tree and the frame, which is what an assignment acts on. *)
Definition doc (σ : Store) : CT_Table * GraphicFrame :=
  (tbl σ, graphic_frame σ).

Definition assign_doc (d : CT_Table * GraphicFrame) (a : assignment)
    : CT_Table * GraphicFrame :=
  match a with
  | SetHeight i v =>
      let T := write_h (Z.to_nat i) v d.1 in
      (T, {| height := Zsum (h <$> tr_lst T); width := width d.2 |})
  | SetWidth j v =>
      let T := write_w (Z.to_nat j) v d.1 in
      (T, {| height := height d.2;
             width := Zsum (w <$> gridCol_lst (tblGrid T)) |})
  end.

(** The index of the assignment is in range for [nrows] rows and
    [ncols] columns. *)
Definition in_range (nrows ncols : nat) (a : assignment) : Prop :=
  match a with
  | SetHeight i _ => 0 ≤ i < Z.of_nat nrows
  | SetWidth j _ => 0 ≤ j < Z.of_nat ncols
  end.

(** The five assignments of the end-to-end case. *)
Definition the_assignments : list assignment :=
  [SetHeight 0 100; SetHeight 1 200; SetWidth 0 10; SetWidth 1 20;
   SetWidth 2 30].

(** What [coll[idx]] must do, for a collection with the methods
    [getitem] and [len] over the element list [elements]; [elem_of]
    gives the element a proxy stands for, and the message of the error
    is [before], the index, then [after]. *)
Definition indexed_access {P E} (getitem : Z → M P) (len : M Z)
    (elements : M (list E)) (elem_of : P → E) (before after : string)
    (σ : Store) (idx : Z) : Prop :=
  ∃ n elts,
    len σ = (Ret n, σ) ∧ elements σ = (Ret elts, σ) ∧ n = py_len elts
    ∧ ((∃ msg σ', getitem idx σ = (Raise (IndexError msg), σ'))
       ↔ idx < 0 ∨ n ≤ idx)
    ∧ (idx < 0 ∨ n ≤ idx →
       getitem idx σ
       = (Raise (IndexError (before +:+ pretty idx +:+ after)), σ))
    ∧ (0 ≤ idx < n →
       ∃ p, getitem idx σ = (Ret p, bump 1 σ)
            ∧ elts !! Z.to_nat idx = Some (elem_of p)).

(** The cells a generator still has to yield, with the identities they
    get when the first of them is made as object number [o]. *)
Definition cells_from (self : _CellCollection) (o : nat)
    (lst : list (nat * nat)) : list _Cell :=
  imap (λ j tc, {| Cell_id := (j + o)%nat; Cell_tc := tc;
                   Cell_parent := ParentCells self |}) lst.

(** Iterating a collection: [iter] makes the iterator, [next] advances
    it; [elements] is the underlying sequence and [elem_of] the element
    a proxy stands for.  The list of what one iteration yields has one
    proxy per element, in order, and a second iteration, started after
    the first, yields the whole sequence again. *)
Definition iterates {I P E} (iter : M I) (next : next_fn I P) (len : M Z)
    (elements : M (list E)) (elem_of : P → E) (fuel : nat) (σ : Store)
    : Prop :=
  ∃ elts it σ0 items σ1 it' σ0' items' σ2,
    elements σ = (Ret elts, σ)
    ∧ iter σ = (Ret it, σ0)
    ∧ py_list next fuel it σ0 = (Ret items, σ1)
    ∧ elem_of <$> items = elts
    ∧ len σ = (Ret (py_len items), σ)
    ∧ iter σ1 = (Ret it', σ0')
    ∧ py_list next fuel it' σ0' = (Ret items', σ2)
    ∧ elem_of <$> items' = elts.

(** No cached collection is dropped or replaced between [σ] and [σ']. *)
Definition cache_le (σ σ' : Store) : Prop :=
  (∀ t rs, lazy_rows σ !! t = Some rs → lazy_rows σ' !! t = Some rs)
  ∧ (∀ t cs, lazy_columns σ !! t = Some cs → lazy_columns σ' !! t = Some cs).

Definition keeps_cache {A} (m : M A) : Prop := ∀ σ, cache_le σ (m σ).2.

(** ** A concrete table *)

Definition plain_cell : CT_TableCell :=
  {| marL := None; marR := None; marT := None; marB := None; anchor := None |}.

(** A table of two rows and three columns, not yet seen by any proxy. *)
Definition table_2x3 : Store :=
  {| tbl := {| tr_lst := [ {| h := 370840; tc_lst := replicate 3 plain_cell |};
                           {| h := 370840; tc_lst := replicate 3 plain_cell |} ];
               tblGrid := {| gridCol_lst := [ {| w := 914400 |};
                                              {| w := 914400 |};
                                              {| w := 914400 |} ] |};
               firstRow := true; firstCol := false;
               lastRow := false; lastCol := false;
               bandRow := true; bandCol := false;
               spans := [] |};
     graphic_frame := {| height := 741680; width := 2743200 |};
     lazy_rows := ∅; lazy_columns := ∅;
     next_id := 1%nat |}.

Definition the_table : Table := {| Table_id := 0%nat |}.

(** ** Vocabulary of the further properties *)

(** Both aggregates of the frame are the sums they stand for. *)
Definition consistent (σ : Store) : Prop :=
  height (graphic_frame σ) = Zsum (h <$> tr_lst (tbl σ))
  ∧ width (graphic_frame σ) = Zsum (w <$> gridCol_lst (tblGrid (tbl σ))).

(** The shape of the grid: the number of cells of each row and the
    number of columns. *)
Definition shape (T : CT_Table) : list nat * nat :=
  ((λ row, length (tc_lst row)) <$> tr_lst T,
   length (gridCol_lst (tblGrid T))).

(** [m] takes every store to one that [R] relates to it, whatever it
    returns or raises. *)
Definition preserves (R : Store → Store → Prop) {A} (m : M A) : Prop :=
  ∀ σ, R σ (m σ).2.

Definition same_shape (σ σ' : Store) : Prop :=
  shape (tbl σ') = shape (tbl σ).

(** The row heights, the column widths and the frame are as before. *)
Definition same_sizes (σ σ' : Store) : Prop :=
  h <$> tr_lst (tbl σ') = h <$> tr_lst (tbl σ)
  ∧ w <$> gridCol_lst (tblGrid (tbl σ'))
    = w <$> gridCol_lst (tblGrid (tbl σ))
  ∧ graphic_frame σ' = graphic_frame σ.

(** The calls that write a size or recompute an aggregate. *)
Definition size_call (c : call) : bool :=
  match c with
  | CallTableNotifyHeight _ | CallTableNotifyWidth _
  | CallSetWidth _ _ | CallSetHeight _ _
  | CallColumnsNotify _ | CallRowsNotify _ => true
  | _ => false
  end.

#[global] Instance flag_eq_dec : EqDecision flag.
Proof. solve_decision. Defined.

#[global] Instance margin_attr_eq_dec : EqDecision margin_attr.
Proof. solve_decision. Defined.

(** What an assignment writes: a row or a column. *)
Definition target (a : assignment) : Z + Z :=
  match a with
  | SetHeight i _ => inl i
  | SetWidth j _ => inr j
  end.

(** [table.rows[i].cells[j]] *)
Definition cell_by_rows (table : Table) (i j : Z) : M _Cell :=
  rows ← Table_rows table;
  row ← RowCollection_getitem rows i;
  cells ← Row_cells row;
  CellCollection_getitem cells j.

(** [list(cells)] *)
Definition list_cells (fuel : nat) (cells : _CellCollection)
    : M (list _Cell) :=
  it ← CellCollection_iter cells;
  py_list cell_generator_next fuel it.

(** What a write of one attribute of the element of [cell] leaves
    alone: the other cells, every row height, the columns and the
    frame.  [tc] is the element before the write, [f] what the write
    does to it. *)
Definition cell_written (cell : _Cell) (tc : CT_TableCell)
    (f : CT_TableCell → CT_TableCell) (σ σ' : Store) : Prop :=
  lookup_tc (tbl σ') (Cell_tc cell) = Some (f tc)
  ∧ (∀ tc', tc' ≠ Cell_tc cell →
       lookup_tc (tbl σ') tc' = lookup_tc (tbl σ) tc')
  ∧ h <$> tr_lst (tbl σ') = h <$> tr_lst (tbl σ)
  ∧ tblGrid (tbl σ') = tblGrid (tbl σ)
  ∧ graphic_frame σ' = graphic_frame σ.

(** A proxy of the top left cell. *)
Definition corner_cell : _Cell :=
  {| Cell_id := 9; Cell_tc := (0, 0)%nat;
     Cell_parent := ParentTable the_table |}.

(** ** Accepted values *)

(** The types accept what the assignment [a] writes on the tree and the
    frame [d]: the value itself, and the sum the frame is then given. *)
Definition accepted {T : AttrTypes} (d : CT_Table * GraphicFrame)
    (a : assignment) : Prop :=
  match a with
  | SetHeight i v =>
      tr_h_check v = None
      ∧ frame_height_check
          (Zsum (h <$> tr_lst (write_h (Z.to_nat i) v d.1))) = None
  | SetWidth j v =>
      gridCol_w_check v = None
      ∧ frame_width_check
          (Zsum (w <$> gridCol_lst (tblGrid (write_w (Z.to_nat j) v d.1))))
        = None
  end.

(** The same along a sequence of assignments. *)
Fixpoint accepted_all {T : AttrTypes} (d : CT_Table * GraphicFrame)
    (l : list assignment) : Prop :=
  match l with
  | [] => True
  | a :: l' => accepted d a ∧ accepted_all (assign_doc d a) l'
  end.

(** No call of the sequence ends in a [ValueError]. *)
Fixpoint no_value_error {T : AttrTypes} (str : value → string) (fuel : nat)
    (calls : list call) (σ : Store) : Prop :=
  match calls with
  | [] => True
  | c :: calls' =>
      (∀ msg, (exec str fuel c σ).1 ≠ Raise (ValueError msg))
      ∧ no_value_error str fuel calls' (exec str fuel c σ).2
  end.

(** A type that accepts the integers from [lo] to [hi], and the message
    it refuses the others with. *)
Definition range_check (lo hi : Z) (v : Z) : option string :=
  if decide (lo ≤ v ≤ hi) then None
  else Some ("value must be in range " +:+ pretty lo +:+ " to "
             +:+ pretty hi +:+ " inclusive, got " +:+ pretty v).

(** Modelled from the spec: the types of the attributes are not under
    src/.  The examples take lengths in "1/914400-inch units":
    coordinates for the row heights and column widths, coordinates that
    are not negative for the extents of the frame, 32-bit coordinates
    for the margins, and an enumeration of three anchors. *)
Definition emu_types : AttrTypes :=
  {| tr_h_check := range_check (-27273042329600) 27273042316900;
     gridCol_w_check := range_check (-27273042329600) 27273042316900;
     frame_height_check := range_check 0 27273042316900;
     frame_width_check := range_check 0 27273042316900;
     tc_mar_check := range_check (-2147483648) 2147483647;
     tc_anchor_check :=
       λ z, if decide (z ∈ [1; 3; 4]) then None
            else Some ("not a member of the enumeration: " +:+ pretty z) |}.

(** The table of the examples with a frame that is out of date. *)
Definition table_stale : Store :=
  with_graphic_frame (λ _, {| height := 1; width := 2 |}) table_2x3.

(** * Proofs *)

(** ** Object creation *)

Lemma bump_0 σ : bump 0 σ = σ.
Proof. by destruct σ. Qed.

Lemma bump_bump a b σ : bump a (bump b σ) = bump (a + b) σ.
Proof. unfold bump; simpl. f_equal. lia. Qed.

Lemma alloc_run σ : alloc σ = (Ret (next_id σ), bump 1 σ).
Proof. reflexivity. Qed.

(** ** Running a sequence *)

Lemma bind_run {A B} (m : M A) (k : A → M B) σ :
  (m ≫= k) σ = match m σ with
               | (Ret a, σ') => k a σ'
               | (Raise e, σ') => (Raise e, σ')
               | (Stuck, σ') => (Stuck, σ')
               end.
Proof. reflexivity. Qed.

Lemma bind_ret {A B} (m : M A) (k : A → M B) σ a σ' :
  m σ = (Ret a, σ') → (m ≫= k) σ = k a σ'.
Proof. intros E. by rewrite bind_run, E. Qed.

Lemma bind_raise {A B} (m : M A) (k : A → M B) σ e σ' :
  m σ = (Raise e, σ') → (m ≫= k) σ = (Raise e, σ').
Proof. intros E. by rewrite bind_run, E. Qed.

Lemma bind_stuck {A B} (m : M A) (k : A → M B) σ σ' :
  m σ = (Stuck, σ') → (m ≫= k) σ = (Stuck, σ').
Proof. intros E. by rewrite bind_run, E. Qed.

(** ** Sums *)

Lemma foldl_add_shift (l : list Z) (a : Z) : foldl Z.add a l = a + Zsum l.
Proof.
  revert a. induction l as [|x l IH]; intros a; simpl.
  - lia.
  - rewrite IH. lia.
Qed.

Lemma py_sum_Zsum (l : list Z) : py_sum l = Zsum l.
Proof. unfold py_sum. by rewrite foldl_add_shift. Qed.

(** ** Indexing *)

Lemma py_len_seq n : py_len (seq 0 n) = Z.of_nat n.
Proof. unfold py_len. by rewrite length_seq. Qed.

Lemma list_getitem_seq n idx σ :
  0 ≤ idx < Z.of_nat n →
  list_getitem (seq 0 n) idx σ = (Ret (Z.to_nat idx), σ).
Proof.
  intros Hi. unfold list_getitem. cbv zeta.
  rewrite !(decide_False (P := idx < 0)) by lia.
  rewrite lookup_seq_lt by lia. reflexivity.
Qed.

Section getitem.
Variable σ : Store.

Let nrows : nat := length (tr_lst (tbl σ)).
Let ncols : nat := length (gridCol_lst (tblGrid (tbl σ))).

Lemma tbl_tr_lst_run : tbl_tr_lst σ = (Ret (seq 0 nrows), σ).
Proof. reflexivity. Qed.

Lemma tbl_gridCol_lst_run : tbl_gridCol_lst σ = (Ret (seq 0 ncols), σ).
Proof. reflexivity. Qed.

Lemma RowCollection_len_run rs :
  RowCollection_len rs σ = (Ret (Z.of_nat nrows), σ).
Proof.
  unfold RowCollection_len.
  rewrite (bind_ret _ _ _ _ _ tbl_tr_lst_run). by rewrite py_len_seq.
Qed.

Lemma ColumnCollection_len_run cs :
  ColumnCollection_len cs σ = (Ret (Z.of_nat ncols), σ).
Proof.
  unfold ColumnCollection_len.
  rewrite (bind_ret _ _ _ _ _ tbl_gridCol_lst_run). by rewrite py_len_seq.
Qed.

Lemma RowCollection_getitem_in rs idx :
  0 ≤ idx < Z.of_nat nrows →
  RowCollection_getitem rs idx σ
  = (Ret {| Row_id := next_id σ; Row_tr := Z.to_nat idx; Row_parent := rs |},
     bump 1 σ).
Proof.
  intros Hi. unfold RowCollection_getitem.
  rewrite (bind_ret _ _ _ _ _ (RowCollection_len_run rs)).
  rewrite decide_False by lia.
  rewrite (bind_ret _ _ _ _ _ tbl_tr_lst_run).
  erewrite bind_ret by (by apply list_getitem_seq).
  reflexivity.
Qed.

Lemma RowCollection_getitem_out rs idx :
  idx < 0 ∨ Z.of_nat nrows ≤ idx →
  RowCollection_getitem rs idx σ
  = (Raise (IndexError ("row index [" +:+ pretty idx +:+ "] out of range")),
     σ).
Proof.
  intros Hi. unfold RowCollection_getitem.
  rewrite (bind_ret _ _ _ _ _ (RowCollection_len_run rs)).
  rewrite decide_True by lia. reflexivity.
Qed.

Lemma ColumnCollection_getitem_in cs idx :
  0 ≤ idx < Z.of_nat ncols →
  ColumnCollection_getitem cs idx σ
  = (Ret {| Column_id := next_id σ; Column_gridCol := Z.to_nat idx;
            Column_parent := cs |},
     bump 1 σ).
Proof.
  intros Hi. unfold ColumnCollection_getitem.
  rewrite (bind_ret _ _ _ _ _ tbl_gridCol_lst_run).
  rewrite py_len_seq, decide_False by lia.
  rewrite (bind_ret _ _ _ _ _ tbl_gridCol_lst_run).
  erewrite bind_ret by (by apply list_getitem_seq).
  reflexivity.
Qed.

Lemma ColumnCollection_getitem_out cs idx :
  idx < 0 ∨ Z.of_nat ncols ≤ idx →
  ColumnCollection_getitem cs idx σ
  = (Raise (IndexError
              ("column index [" +:+ pretty idx +:+ "] out of range")),
     σ).
Proof.
  intros Hi. unfold ColumnCollection_getitem.
  rewrite (bind_ret _ _ _ _ _ tbl_gridCol_lst_run).
  rewrite py_len_seq, decide_True by lia. reflexivity.
Qed.
End getitem.

(** ** Loops over a collection that has [__getitem__] only *)

Section comprehension_seq.
Context {A B : Type}.
Variable getitem : Z → M A.
Variable body : A → M B.
Variable n : nat.
Variable item : nat → oid → A.
Variable val : nat → oid → B.
Variable Inv : Store → Prop.

Hypothesis getitem_in : ∀ σ k,
  Inv σ → (k < n)%nat →
  getitem (Z.of_nat k) σ = (Ret (item k (next_id σ)), bump 1 σ).
Hypothesis getitem_end : ∀ σ,
  Inv σ → ∃ msg, getitem (Z.of_nat n) σ = (Raise (IndexError msg), σ).
Hypothesis body_run : ∀ σ k o,
  Inv σ → (k < n)%nat → body (item k o) σ = (Ret (val k o), σ).
Hypothesis Inv_bump : ∀ σ, Inv σ → Inv (bump 1 σ).

Lemma seq_next_in σ k :
  Inv σ → (k < n)%nat →
  seq_next getitem (Z.of_nat k) σ
  = (Ret (Some (item k (next_id σ)), Z.of_nat (S k)), bump 1 σ).
Proof.
  intros HI Hk. unfold seq_next. rewrite getitem_in by done.
  do 3 f_equal. lia.
Qed.

Lemma seq_next_end σ :
  Inv σ → seq_next getitem (Z.of_nat n) σ = (Ret (None, Z.of_nat n), σ).
Proof.
  intros HI. unfold seq_next.
  destruct (getitem_end σ HI) as [msg ->]. reflexivity.
Qed.

Lemma comprehension_seq_run m : ∀ k fuel σ,
  Inv σ → (k + m = n)%nat → (m < fuel)%nat →
  comprehension (seq_next getitem) body fuel (Z.of_nat k) σ
  = (Ret ((λ j, val (k + j) (j + next_id σ))%nat <$> seq 0 m), bump m σ).
Proof.
  induction m as [|m IH]; intros k fuel σ HI Hk Hf.
  - destruct fuel as [|fuel]; [lia|]. simpl.
    assert (k = n) as -> by lia.
    rewrite (bind_ret _ _ _ _ _ (seq_next_end σ HI)).
    by rewrite bump_0.
  - destruct fuel as [|fuel]; [lia|]. simpl comprehension.
    rewrite (bind_ret _ _ _ _ _ (seq_next_in σ k HI ltac:(lia))).
    rewrite (bind_ret _ _ _ _ _
               (body_run (bump 1 σ) k (next_id σ) (Inv_bump σ HI) ltac:(lia))).
    rewrite (bind_ret _ _ _ _ _
               (IH (S k) fuel (bump 1 σ) (Inv_bump σ HI) ltac:(lia) ltac:(lia))).
    rewrite bump_bump. replace (m + 1)%nat with (S m) by lia.
    unfold mret, M_ret, ret. do 2 f_equal.
    change (seq 0 (S m)) with (0%nat :: seq 1 m).
    rewrite <- (fmap_S_seq 0 m), fmap_cons, <- list_fmap_compose.
    f_equal; [f_equal; lia|].
    apply list_fmap_ext. intros _ j _. simpl. f_equal; lia.
Qed.
End comprehension_seq.

Lemma fmap_seq_lookup {A B} (l : list A) (f : nat → B) (g : A → B) :
  (∀ j x, l !! j = Some x → f j = g x) →
  f <$> seq 0 (length l) = g <$> l.
Proof.
  intros Hfg. apply list_eq. intros j.
  rewrite !list_lookup_fmap.
  destruct (l !! j) as [x|] eqn:E.
  - rewrite lookup_seq_lt by (by eapply lookup_lt_Some). simpl.
    f_equal. by apply Hfg.
  - rewrite lookup_seq_ge by (by apply lookup_ge_None). reflexivity.
Qed.

(** ** The cached collections *)

Lemma Table_rows_run t σ :
  Table_rows t σ = (Ret (rows_of t σ), after_rows t σ).
Proof.
  unfold Table_rows, rows_of, after_rows, rows_of.
  erewrite bind_ret by reflexivity.
  destruct (lazy_rows σ !! Table_id t); reflexivity.
Qed.

Lemma Table_columns_run t σ :
  Table_columns t σ = (Ret (columns_of t σ), after_columns t σ).
Proof.
  unfold Table_columns, columns_of, after_columns, columns_of.
  erewrite bind_ret by reflexivity.
  destruct (lazy_columns σ !! Table_id t); reflexivity.
Qed.

Lemma tbl_after_rows t σ : tbl (after_rows t σ) = tbl σ.
Proof. unfold after_rows. by destruct (lazy_rows σ !! _). Qed.

Lemma graphic_frame_after_rows t σ :
  graphic_frame (after_rows t σ) = graphic_frame σ.
Proof. unfold after_rows. by destruct (lazy_rows σ !! _). Qed.

Lemma lazy_columns_after_rows t σ :
  lazy_columns (after_rows t σ) = lazy_columns σ.
Proof. unfold after_rows. by destruct (lazy_rows σ !! _). Qed.

Lemma lazy_rows_after_rows t σ :
  lazy_rows (after_rows t σ) !! Table_id t = Some (rows_of t σ).
Proof.
  unfold after_rows, rows_of.
  destruct (lazy_rows σ !! Table_id t) eqn:E; simpl; [done|].
  by rewrite lookup_insert_eq.
Qed.

Lemma tbl_after_columns t σ : tbl (after_columns t σ) = tbl σ.
Proof. unfold after_columns. by destruct (lazy_columns σ !! _). Qed.

Lemma graphic_frame_after_columns t σ :
  graphic_frame (after_columns t σ) = graphic_frame σ.
Proof. unfold after_columns. by destruct (lazy_columns σ !! _). Qed.

Lemma lazy_rows_after_columns t σ :
  lazy_rows (after_columns t σ) = lazy_rows σ.
Proof. unfold after_columns. by destruct (lazy_columns σ !! _). Qed.

Lemma lazy_columns_after_columns t σ :
  lazy_columns (after_columns t σ) !! Table_id t = Some (columns_of t σ).
Proof.
  unfold after_columns, columns_of.
  destruct (lazy_columns σ !! Table_id t) eqn:E; simpl; [done|].
  by rewrite lookup_insert_eq.
Qed.

(** ** The recomputation of the aggregate *)

Lemma tr_get_h_run (tr : tr_ref) row σ :
  tr_lst (tbl σ) !! tr = Some row → tr_get_h tr σ = (Ret (h row), σ).
Proof. intros E. unfold tr_get_h, get_some. by rewrite E. Qed.

Lemma gridCol_get_w_run (gridCol : gridCol_ref) col σ :
  gridCol_lst (tblGrid (tbl σ)) !! gridCol = Some col →
  gridCol_get_w gridCol σ = (Ret (w col), σ).
Proof. intros E. unfold gridCol_get_w, get_some. by rewrite E. Qed.

Lemma row_heights_run fuel rs σ :
  (length (tr_lst (tbl σ)) < fuel)%nat →
  comprehension (seq_next (RowCollection_getitem rs)) Row_height fuel 0 σ
  = (Ret (h <$> tr_lst (tbl σ)), bump (length (tr_lst (tbl σ))) σ).
Proof.
  intros Hfuel.
  pose proof (comprehension_seq_run
    (RowCollection_getitem rs) Row_height (length (tr_lst (tbl σ)))
    (λ k o, {| Row_id := o; Row_tr := k; Row_parent := rs |})
    (λ k _, default 0 (h <$> tr_lst (tbl σ) !! k))
    (λ σ', tbl σ' = tbl σ)) as Hrun.
  change 0 with (Z.of_nat 0).
  rewrite (Hrun) with (m := length (tr_lst (tbl σ))); try done.
  - f_equal. f_equal. apply fmap_seq_lookup. intros j x E. simpl. by rewrite E.
  - intros σ' k E Hk.
    rewrite RowCollection_getitem_in by (rewrite E; lia).
    by rewrite Nat2Z.id.
  - intros σ' E. eexists.
    apply RowCollection_getitem_out. rewrite E. lia.
  - intros σ' k o E Hk. unfold Row_height; simpl.
    destruct (lookup_lt_is_Some_2 _ _ Hk) as [row Hrow].
    rewrite (tr_get_h_run k row) by (by rewrite E). by rewrite Hrow.
Qed.

Lemma column_widths_run fuel cs σ :
  (length (gridCol_lst (tblGrid (tbl σ))) < fuel)%nat →
  comprehension (seq_next (ColumnCollection_getitem cs)) Column_width fuel 0 σ
  = (Ret (w <$> gridCol_lst (tblGrid (tbl σ))),
     bump (length (gridCol_lst (tblGrid (tbl σ)))) σ).
Proof.
  intros Hfuel.
  pose proof (comprehension_seq_run
    (ColumnCollection_getitem cs) Column_width
    (length (gridCol_lst (tblGrid (tbl σ))))
    (λ k o, {| Column_id := o; Column_gridCol := k; Column_parent := cs |})
    (λ k _, default 0 (w <$> gridCol_lst (tblGrid (tbl σ)) !! k))
    (λ σ', tbl σ' = tbl σ)) as Hrun.
  change 0 with (Z.of_nat 0).
  rewrite (Hrun) with (m := length (gridCol_lst (tblGrid (tbl σ)))); try done.
  - f_equal. f_equal. apply fmap_seq_lookup. intros j x E. simpl. by rewrite E.
  - intros σ' k E Hk.
    rewrite ColumnCollection_getitem_in by (rewrite E; lia).
    by rewrite Nat2Z.id.
  - intros σ' E. eexists.
    apply ColumnCollection_getitem_out. rewrite E. lia.
  - intros σ' k o E Hk. unfold Column_width; simpl.
    destruct (lookup_lt_is_Some_2 _ _ Hk) as [col Hcol].
    rewrite (gridCol_get_w_run k col) by (by rewrite E). by rewrite Hcol.
Qed.

Lemma checked_accepts check v (write : M unit) σ :
  check v = None → checked check v write σ = write σ.
Proof. intros E. unfold checked. by rewrite E. Qed.

Lemma checked_refuses check v (write : M unit) σ msg :
  check v = Some msg → checked check v write σ = (Raise (ValueError msg), σ).
Proof. intros E. unfold checked. by rewrite E. Qed.

(** What [notify_height_changed] does, by what the frame says of the
    sum. *)
Lemma Table_notify_height_changed_cases {T : AttrTypes} fuel t σ :
  (length (tr_lst (tbl σ)) < fuel)%nat →
  Table_notify_height_changed fuel t σ
  = match frame_height_check (Zsum (h <$> tr_lst (tbl σ))) with
    | None => (Ret tt, height_changed t σ)
    | Some msg =>
        (Raise (ValueError msg),
         bump (length (tr_lst (tbl σ))) (after_rows t σ))
    end.
Proof.
  intros Hfuel. unfold Table_notify_height_changed.
  rewrite (bind_ret _ _ _ _ _ (Table_rows_run t σ)).
  erewrite bind_ret
    by (apply row_heights_run; by rewrite tbl_after_rows).
  rewrite py_sum_Zsum, !tbl_after_rows.
  unfold frame_set_height, checked.
  by destruct (frame_height_check _).
Qed.

Lemma Table_notify_width_changed_cases {T : AttrTypes} fuel t σ :
  (length (gridCol_lst (tblGrid (tbl σ))) < fuel)%nat →
  Table_notify_width_changed fuel t σ
  = match frame_width_check (Zsum (w <$> gridCol_lst (tblGrid (tbl σ)))) with
    | None => (Ret tt, width_changed t σ)
    | Some msg =>
        (Raise (ValueError msg),
         bump (length (gridCol_lst (tblGrid (tbl σ)))) (after_columns t σ))
    end.
Proof.
  intros Hfuel. unfold Table_notify_width_changed.
  rewrite (bind_ret _ _ _ _ _ (Table_columns_run t σ)).
  erewrite bind_ret
    by (apply column_widths_run; by rewrite tbl_after_columns).
  rewrite py_sum_Zsum, !tbl_after_columns.
  unfold frame_set_width, checked.
  by destruct (frame_width_check _).
Qed.

Lemma Table_notify_height_changed_run {T : AttrTypes} fuel t σ :
  (length (tr_lst (tbl σ)) < fuel)%nat →
  frame_height_check (Zsum (h <$> tr_lst (tbl σ))) = None →
  Table_notify_height_changed fuel t σ = (Ret tt, height_changed t σ).
Proof.
  intros Hfuel E. by rewrite Table_notify_height_changed_cases, E.
Qed.

Lemma Table_notify_width_changed_run {T : AttrTypes} fuel t σ :
  (length (gridCol_lst (tblGrid (tbl σ))) < fuel)%nat →
  frame_width_check (Zsum (w <$> gridCol_lst (tblGrid (tbl σ)))) = None →
  Table_notify_width_changed fuel t σ = (Ret tt, width_changed t σ).
Proof.
  intros Hfuel E. by rewrite Table_notify_width_changed_cases, E.
Qed.

Lemma tbl_height_changed t σ : tbl (height_changed t σ) = tbl σ.
Proof. unfold height_changed; simpl. apply tbl_after_rows. Qed.

Lemma tbl_width_changed t σ : tbl (width_changed t σ) = tbl σ.
Proof. unfold width_changed; simpl. apply tbl_after_columns. Qed.

Lemma graphic_frame_height_changed t σ :
  graphic_frame (height_changed t σ)
  = {| height := Zsum (h <$> tr_lst (tbl σ));
       width := width (graphic_frame σ) |}.
Proof. unfold height_changed; simpl. by rewrite graphic_frame_after_rows. Qed.

Lemma graphic_frame_width_changed t σ :
  graphic_frame (width_changed t σ)
  = {| height := height (graphic_frame σ);
       width := Zsum (w <$> gridCol_lst (tblGrid (tbl σ))) |}.
Proof.
  unfold width_changed; simpl. by rewrite graphic_frame_after_columns.
Qed.

(** ** The two size setters *)

Lemma length_write_h tr v T :
  length (tr_lst (write_h tr v T)) = length (tr_lst T).
Proof. simpl. apply length_alter. Qed.

Lemma length_write_w gridCol v T :
  length (gridCol_lst (tblGrid (write_w gridCol v T)))
  = length (gridCol_lst (tblGrid T)).
Proof. simpl. apply length_insert. Qed.

Lemma tr_set_h_cases {T : AttrTypes} (tr : nat) v σ :
  (tr < length (tr_lst (tbl σ)))%nat →
  tr_set_h tr v σ
  = match tr_h_check v with
    | Some msg => (Raise (ValueError msg), σ)
    | None => (Ret tt, with_tbl (write_h tr v) σ)
    end.
Proof.
  intros Htr. unfold tr_set_h, checked.
  destruct (tr_h_check v); [done|].
  by destruct (lookup_lt_is_Some_2 _ _ Htr) as [row ->].
Qed.

Lemma gridCol_set_w_cases {T : AttrTypes} (gridCol : nat) v σ :
  (gridCol < length (gridCol_lst (tblGrid (tbl σ))))%nat →
  gridCol_set_w gridCol v σ
  = match gridCol_w_check v with
    | Some msg => (Raise (ValueError msg), σ)
    | None => (Ret tt, with_tbl (write_w gridCol v) σ)
    end.
Proof.
  intros Hc. unfold gridCol_set_w, checked.
  destruct (gridCol_w_check v); [done|].
  by destruct (lookup_lt_is_Some_2 _ _ Hc) as [col ->].
Qed.

(** What the height setter does: the row refuses the value and nothing
    is written; or the row is written and the frame refuses the sum; or
    both are written. *)
Lemma Row_height_setter_cases {T : AttrTypes} fuel row v σ :
  (Row_tr row < length (tr_lst (tbl σ)))%nat →
  (length (tr_lst (tbl σ)) < fuel)%nat →
  Row_height_setter fuel row v σ
  = match tr_h_check v with
    | Some msg => (Raise (ValueError msg), σ)
    | None =>
        let σw := with_tbl (write_h (Row_tr row) v) σ in
        let t := RowCollection_parent (Row_parent row) in
        match frame_height_check
                (Zsum (h <$> tr_lst (write_h (Row_tr row) v (tbl σ)))) with
        | None => (Ret tt, height_changed t σw)
        | Some msg =>
            (Raise (ValueError msg),
             bump (length (tr_lst (tbl σ))) (after_rows t σw))
        end
    end.
Proof.
  intros Htr Hfuel. unfold Row_height_setter.
  rewrite bind_run, (tr_set_h_cases _ v σ Htr).
  destruct (tr_h_check v); [done|].
  unfold RowCollection_notify_height_changed.
  rewrite Table_notify_height_changed_cases
    by (simpl tbl; by rewrite length_write_h).
  simpl tbl. by rewrite length_write_h.
Qed.

Lemma Column_width_setter_cases {T : AttrTypes} fuel column v σ :
  (Column_gridCol column < length (gridCol_lst (tblGrid (tbl σ))))%nat →
  (length (gridCol_lst (tblGrid (tbl σ))) < fuel)%nat →
  Column_width_setter fuel column v σ
  = match gridCol_w_check v with
    | Some msg => (Raise (ValueError msg), σ)
    | None =>
        let σw := with_tbl (write_w (Column_gridCol column) v) σ in
        let t := ColumnCollection_parent (Column_parent column) in
        match frame_width_check
                (Zsum (w <$> gridCol_lst
                               (tblGrid (write_w (Column_gridCol column) v
                                           (tbl σ))))) with
        | None => (Ret tt, width_changed t σw)
        | Some msg =>
            (Raise (ValueError msg),
             bump (length (gridCol_lst (tblGrid (tbl σ))))
                  (after_columns t σw))
        end
    end.
Proof.
  intros Hc Hfuel. unfold Column_width_setter.
  rewrite bind_run, (gridCol_set_w_cases _ v σ Hc).
  destruct (gridCol_w_check v); [done|].
  unfold ColumnCollection_notify_width_changed.
  rewrite Table_notify_width_changed_cases
    by (simpl tbl; by rewrite length_write_w).
  simpl tbl. by rewrite length_write_w.
Qed.

(** The assignment statements, run from any store. *)
Lemma assign_height_cases {T : AttrTypes} fuel table i v σ :
  0 ≤ i < py_len (tr_lst (tbl σ)) →
  (length (tr_lst (tbl σ)) < fuel)%nat →
  assign fuel table (SetHeight i v) σ
  = let σ0 := bump 1 (after_rows table σ) in
    let σw := with_tbl (write_h (Z.to_nat i) v) σ0 in
    let t := RowCollection_parent (rows_of table σ) in
    match tr_h_check v with
    | Some msg => (Raise (ValueError msg), σ0)
    | None =>
        match frame_height_check
                (Zsum (h <$> tr_lst (write_h (Z.to_nat i) v (tbl σ)))) with
        | None => (Ret tt, height_changed t σw)
        | Some msg =>
            (Raise (ValueError msg),
             bump (length (tr_lst (tbl σ))) (after_rows t σw))
        end
    end.
Proof.
  unfold py_len. intros Hi Hfuel. unfold assign.
  rewrite (bind_ret _ _ _ _ _ (Table_rows_run table σ)).
  erewrite bind_ret
    by (apply RowCollection_getitem_in; rewrite tbl_after_rows; lia).
  rewrite Row_height_setter_cases
    by (simpl; rewrite ?tbl_after_rows; lia).
  simpl. by rewrite !tbl_after_rows.
Qed.

Lemma assign_width_cases {T : AttrTypes} fuel table j v σ :
  0 ≤ j < py_len (gridCol_lst (tblGrid (tbl σ))) →
  (length (gridCol_lst (tblGrid (tbl σ))) < fuel)%nat →
  assign fuel table (SetWidth j v) σ
  = let σ0 := bump 1 (after_columns table σ) in
    let σw := with_tbl (write_w (Z.to_nat j) v) σ0 in
    let t := ColumnCollection_parent (columns_of table σ) in
    match gridCol_w_check v with
    | Some msg => (Raise (ValueError msg), σ0)
    | None =>
        match frame_width_check
                (Zsum (w <$> gridCol_lst
                               (tblGrid (write_w (Z.to_nat j) v (tbl σ)))))
        with
        | None => (Ret tt, width_changed t σw)
        | Some msg =>
            (Raise (ValueError msg),
             bump (length (gridCol_lst (tblGrid (tbl σ))))
                  (after_columns t σw))
        end
    end.
Proof.
  unfold py_len. intros Hj Hfuel. unfold assign.
  rewrite (bind_ret _ _ _ _ _ (Table_columns_run table σ)).
  erewrite bind_ret
    by (apply ColumnCollection_getitem_in; rewrite tbl_after_columns; lia).
  rewrite Column_width_setter_cases
    by (simpl; rewrite ?tbl_after_columns; lia).
  simpl. by rewrite !tbl_after_columns.
Qed.

(** A height assignment that returns: the values were accepted, and the
    store is the one with the row and the frame written. *)
Lemma assign_height_ret {T : AttrTypes} fuel table i v σ σ' :
  0 ≤ i < py_len (tr_lst (tbl σ)) →
  (length (tr_lst (tbl σ)) < fuel)%nat →
  assign fuel table (SetHeight i v) σ = (Ret tt, σ') →
  accepted (doc σ) (SetHeight i v)
  ∧ σ' = height_changed (RowCollection_parent (rows_of table σ))
           (with_tbl (write_h (Z.to_nat i) v) (bump 1 (after_rows table σ))).
Proof.
  intros Hi Hfuel. rewrite assign_height_cases by done. cbv zeta.
  unfold accepted. change (doc σ).1 with (tbl σ).
  destruct (tr_h_check v); [done|].
  destruct (frame_height_check _); [done|]. by intros [= <-].
Qed.

Lemma assign_width_ret {T : AttrTypes} fuel table j v σ σ' :
  0 ≤ j < py_len (gridCol_lst (tblGrid (tbl σ))) →
  (length (gridCol_lst (tblGrid (tbl σ))) < fuel)%nat →
  assign fuel table (SetWidth j v) σ = (Ret tt, σ') →
  accepted (doc σ) (SetWidth j v)
  ∧ σ' = width_changed (ColumnCollection_parent (columns_of table σ))
           (with_tbl (write_w (Z.to_nat j) v)
                     (bump 1 (after_columns table σ))).
Proof.
  intros Hj Hfuel. rewrite assign_width_cases by done. cbv zeta.
  unfold accepted. change (doc σ).1 with (tbl σ).
  destruct (gridCol_w_check v); [done|].
  destruct (frame_width_check _); [done|]. by intros [= <-].
Qed.

(** An assignment whose values are accepted returns. *)
Lemma assign_height_run {T : AttrTypes} fuel table i v σ :
  0 ≤ i < py_len (tr_lst (tbl σ)) →
  (length (tr_lst (tbl σ)) < fuel)%nat →
  accepted (doc σ) (SetHeight i v) →
  assign fuel table (SetHeight i v) σ
  = (Ret tt,
     height_changed (RowCollection_parent (rows_of table σ))
       (with_tbl (write_h (Z.to_nat i) v) (bump 1 (after_rows table σ)))).
Proof.
  intros Hi Hfuel [E1 E2]. change (doc σ).1 with (tbl σ) in E2.
  rewrite assign_height_cases by done. cbv zeta. by rewrite E1, E2.
Qed.

Lemma assign_width_run {T : AttrTypes} fuel table j v σ :
  0 ≤ j < py_len (gridCol_lst (tblGrid (tbl σ))) →
  (length (gridCol_lst (tblGrid (tbl σ))) < fuel)%nat →
  accepted (doc σ) (SetWidth j v) →
  assign fuel table (SetWidth j v) σ
  = (Ret tt,
     width_changed (ColumnCollection_parent (columns_of table σ))
       (with_tbl (write_w (Z.to_nat j) v) (bump 1 (after_columns table σ)))).
Proof.
  intros Hj Hfuel [E1 E2]. change (doc σ).1 with (tbl σ) in E2.
  rewrite assign_width_cases by done. cbv zeta. by rewrite E1, E2.
Qed.

(** With the types of the examples: a height the row accepts and whose
    sum the frame refuses is written on the row, and the frame keeps
    its height; a height the row refuses is written nowhere. *)
Example row_height_refused_by_frame :
  ∃ msg σ',
    assign (T := emu_types) 3 the_table (SetHeight 0 (-1000000)) table_2x3
    = (Raise (ValueError msg), σ')
    ∧ h <$> tr_lst (tbl σ') = [-1000000; 370840]
    ∧ graphic_frame σ' = {| height := 741680; width := 2743200 |}.
Proof.
  rewrite assign_height_cases by (unfold py_len; simpl; lia).
  do 2 eexists. split; [reflexivity|]. split; reflexivity.
Qed.

Example row_height_refused_by_row :
  ∃ msg σ',
    assign (T := emu_types) 3 the_table (SetHeight 0 (2 ^ 63)) table_2x3
    = (Raise (ValueError msg), σ')
    ∧ doc σ' = doc table_2x3.
Proof.
  rewrite assign_height_cases by (unfold py_len; simpl; lia).
  do 2 eexists. split; [reflexivity|]. reflexivity.
Qed.

(** * The size invariants *)

(** C1. Whenever [table.rows[i].height = v] returns, for a valid index
    [i] and any integer [v], row [i] has height [v] and the height of
    the graphic frame is the sum of the heights of all the rows; and it
    returns whenever the types of the row height and of the frame
    height accept [v] and the new sum.  The setter writes the row and
    calls the collection's [notify_height_changed], which calls the
    table's, all before it returns. *)
Theorem C1_row_height_aggregate {T : AttrTypes} (table : Table) (σ : Store)
    (i v : Z) (fuel : nat) :
  0 ≤ i < py_len (tr_lst (tbl σ)) →
  (length (tr_lst (tbl σ)) < fuel)%nat →
  (∀ σ', assign fuel table (SetHeight i v) σ = (Ret tt, σ') →
         h <$> tr_lst (tbl σ') !! Z.to_nat i = Some v
         ∧ height (graphic_frame σ') = Zsum (h <$> tr_lst (tbl σ')))
  ∧ (accepted (doc σ) (SetHeight i v) →
     ∃ σ', assign fuel table (SetHeight i v) σ = (Ret tt, σ'))
  ∧ (∀ row : _Row,
       Row_height_setter fuel row v
       = (tr_set_h (Row_tr row) v;;
          RowCollection_notify_height_changed fuel (Row_parent row)))
  ∧ (∀ rows : _RowCollection,
       RowCollection_notify_height_changed fuel rows
       = Table_notify_height_changed fuel (RowCollection_parent rows)).
Proof.
  intros Hi Hfuel. split_and!; [| |done..].
  - intros σ' Hrun.
    apply assign_height_ret in Hrun as [_ ->]; [|done..].
    rewrite tbl_height_changed, graphic_frame_height_changed. simpl.
    rewrite tbl_after_rows. split; [|done].
    unfold py_len in Hi.
    destruct (lookup_lt_is_Some_2 (tr_lst (tbl σ)) (Z.to_nat i))
      as [row Hrow]; [lia|].
    by rewrite list_lookup_alter_eq, Hrow.
  - intros Hacc. eexists. by apply assign_height_run.
Qed.

Lemma C1_row_height_aggregate_witness :
  0 ≤ 1 < py_len (tr_lst (tbl table_2x3))
  ∧ (length (tr_lst (tbl table_2x3)) < 3)%nat
  ∧ accepted (T := emu_types) (doc table_2x3) (SetHeight 1 200)
  ∧ ∃ σ', assign (T := emu_types) 3 the_table (SetHeight 1 200) table_2x3
          = (Ret tt, σ')
          ∧ h <$> tr_lst (tbl σ') !! Z.to_nat 1 = Some 200
          ∧ height (graphic_frame σ') = Zsum (h <$> tr_lst (tbl σ')).
Proof.
  assert (0 ≤ 1 < py_len (tr_lst (tbl table_2x3))) as Hi
    by (unfold py_len; simpl; lia).
  assert (length (tr_lst (tbl table_2x3)) < 3)%nat as Hfuel by (simpl; lia).
  assert (accepted (T := emu_types) (doc table_2x3) (SetHeight 1 200))
    as Hacc by (split; reflexivity).
  split; [exact Hi|]. split; [exact Hfuel|]. split; [exact Hacc|].
  destruct (C1_row_height_aggregate (T := emu_types) the_table table_2x3
              1 200 3 Hi Hfuel) as (Hret & Hrun & _).
  destruct (Hrun Hacc) as [σ' Hσ']. exists σ'.
  split; [exact Hσ'|]. exact (Hret σ' Hσ').
Defined.

(** C2. Whenever [table.columns[j].width = v] returns, for a valid
    index [j] and any integer [v], column [j] has width [v] and the
    width of the graphic frame is the sum of the widths of all the
    columns; and it returns whenever the types of the column width and
    of the frame width accept [v] and the new sum.  The chain of calls
    goes from the column to its collection to the table. *)
Theorem C2_column_width_aggregate {T : AttrTypes} (table : Table)
    (σ : Store) (j v : Z) (fuel : nat) :
  0 ≤ j < py_len (gridCol_lst (tblGrid (tbl σ))) →
  (length (gridCol_lst (tblGrid (tbl σ))) < fuel)%nat →
  (∀ σ', assign fuel table (SetWidth j v) σ = (Ret tt, σ') →
         w <$> gridCol_lst (tblGrid (tbl σ')) !! Z.to_nat j = Some v
         ∧ width (graphic_frame σ')
           = Zsum (w <$> gridCol_lst (tblGrid (tbl σ'))))
  ∧ (accepted (doc σ) (SetWidth j v) →
     ∃ σ', assign fuel table (SetWidth j v) σ = (Ret tt, σ'))
  ∧ (∀ column : _Column,
       Column_width_setter fuel column v
       = (gridCol_set_w (Column_gridCol column) v;;
          ColumnCollection_notify_width_changed fuel (Column_parent column)))
  ∧ (∀ columns : _ColumnCollection,
       ColumnCollection_notify_width_changed fuel columns
       = Table_notify_width_changed fuel (ColumnCollection_parent columns)).
Proof.
  intros Hj Hfuel. split_and!; [| |done..].
  - intros σ' Hrun.
    apply assign_width_ret in Hrun as [_ ->]; [|done..].
    rewrite tbl_width_changed, graphic_frame_width_changed. simpl.
    rewrite tbl_after_columns. split; [|done].
    unfold py_len in Hj.
    rewrite list_lookup_insert_eq by lia. done.
  - intros Hacc. eexists. by apply assign_width_run.
Qed.

Lemma C2_column_width_aggregate_witness :
  0 ≤ 2 < py_len (gridCol_lst (tblGrid (tbl table_2x3)))
  ∧ (length (gridCol_lst (tblGrid (tbl table_2x3))) < 4)%nat
  ∧ accepted (T := emu_types) (doc table_2x3) (SetWidth 2 30)
  ∧ ∃ σ', assign (T := emu_types) 4 the_table (SetWidth 2 30) table_2x3
          = (Ret tt, σ')
          ∧ w <$> gridCol_lst (tblGrid (tbl σ')) !! Z.to_nat 2 = Some 30
          ∧ width (graphic_frame σ')
            = Zsum (w <$> gridCol_lst (tblGrid (tbl σ'))).
Proof.
  assert (0 ≤ 2 < py_len (gridCol_lst (tblGrid (tbl table_2x3)))) as Hj
    by (unfold py_len; simpl; lia).
  assert (length (gridCol_lst (tblGrid (tbl table_2x3))) < 4)%nat as Hfuel
    by (simpl; lia).
  assert (accepted (T := emu_types) (doc table_2x3) (SetWidth 2 30))
    as Hacc by (split; reflexivity).
  split; [exact Hj|]. split; [exact Hfuel|]. split; [exact Hacc|].
  destruct (C2_column_width_aggregate (T := emu_types) the_table table_2x3
              2 30 4 Hj Hfuel) as (Hret & Hrun & _).
  destruct (Hrun Hacc) as [σ' Hσ']. exists σ'.
  split; [exact Hσ'|]. exact (Hret σ' Hσ').
Defined.

(** ** What a size assignment leaves alone *)

Lemma lazy_rows_after_rows_mono t σ t' rs :
  lazy_rows σ !! t' = Some rs → lazy_rows (after_rows t σ) !! t' = Some rs.
Proof.
  intros E. unfold after_rows.
  destruct (lazy_rows σ !! Table_id t) eqn:Et; [done|]. simpl.
  rewrite lookup_insert_ne; [done|]. intros <-. congruence.
Qed.

Lemma lazy_columns_after_columns_mono t σ t' cs :
  lazy_columns σ !! t' = Some cs →
  lazy_columns (after_columns t σ) !! t' = Some cs.
Proof.
  intros E. unfold after_columns.
  destruct (lazy_columns σ !! Table_id t) eqn:Et; [done|]. simpl.
  rewrite lookup_insert_ne; [done|]. intros <-. congruence.
Qed.

Lemma write_h_same tr row T :
  tr_lst T !! tr = Some row → write_h tr (h row) T = T.
Proof.
  intros E. destruct T as [rows ? ? ? ? ? ? ? ?]; unfold write_h; simpl in *.
  f_equal. apply list_eq. intros k.
  destruct (decide (k = tr)) as [->|Hne].
  - rewrite list_lookup_alter_eq, E. simpl. by destruct row.
  - by rewrite list_lookup_alter_ne.
Qed.

(** C9. When [table.rows[i].height = v] returns, it has written the
    height of row [i] and the height of the graphic frame, and nothing
    else of the document: the other rows, the cells of every row, the
    columns, the flags and the frame's width are as before.  The frame's
    height is written on every such assignment, also when [v] is the
    height the row already had.  The assignment returns whenever the
    types of the row height and of the frame height accept [v] and the
    new sum. *)
Theorem C9_row_height_frame {T : AttrTypes} (table : Table) (σ : Store)
    (i v : Z) (fuel : nat) :
  0 ≤ i < py_len (tr_lst (tbl σ)) →
  (length (tr_lst (tbl σ)) < fuel)%nat →
  (∀ σ', assign fuel table (SetHeight i v) σ = (Ret tt, σ') →
     tr_lst (tbl σ')
     = alter (λ row, {| h := v; tc_lst := tc_lst row |}) (Z.to_nat i)
             (tr_lst (tbl σ))
     ∧ (∀ k, k ≠ Z.to_nat i → tr_lst (tbl σ') !! k = tr_lst (tbl σ) !! k)
     ∧ tc_lst <$> tr_lst (tbl σ') = tc_lst <$> tr_lst (tbl σ)
     ∧ tblGrid (tbl σ') = tblGrid (tbl σ)
     ∧ (∀ f, read_flag f (tbl σ') = read_flag f (tbl σ))
     ∧ spans (tbl σ') = spans (tbl σ)
     ∧ width (graphic_frame σ') = width (graphic_frame σ)
     ∧ height (graphic_frame σ') = Zsum (h <$> tr_lst (tbl σ'))
     ∧ lazy_columns σ' = lazy_columns σ
     ∧ (∀ t rs, lazy_rows σ !! t = Some rs → lazy_rows σ' !! t = Some rs)
     ∧ (∀ row, tr_lst (tbl σ) !! Z.to_nat i = Some row → v = h row →
          tbl σ' = tbl σ
          ∧ height (graphic_frame σ') = Zsum (h <$> tr_lst (tbl σ))))
  ∧ (accepted (doc σ) (SetHeight i v) →
     ∃ σ', assign fuel table (SetHeight i v) σ = (Ret tt, σ')).
Proof.
  intros Hi Hfuel. split; [|intros Hacc; eexists; by apply assign_height_run].
  intros σ' Hrun. apply assign_height_ret in Hrun as [_ ->]; [|done..].
  rewrite tbl_height_changed, graphic_frame_height_changed. simpl.
  rewrite tbl_after_rows, graphic_frame_after_rows.
  split_and!; try done.
  - intros k Hk. by rewrite list_lookup_alter_ne.
  - apply list_eq. intros k. rewrite !list_lookup_fmap.
    destruct (decide (k = Z.to_nat i)) as [->|Hne].
    + rewrite list_lookup_alter_eq. by destruct (tr_lst (tbl σ) !! _).
    + by rewrite list_lookup_alter_ne.
  - rewrite lazy_columns_after_rows. simpl. apply lazy_columns_after_rows.
  - intros t rs E. apply lazy_rows_after_rows_mono. simpl.
    by apply lazy_rows_after_rows_mono.
  - intros row Hrow ->. pose proof (write_h_same _ _ _ Hrow) as Hsame.
    split; [done|].
    apply (f_equal tr_lst) in Hsame. simpl in Hsame. by rewrite Hsame.
Qed.

Lemma C9_row_height_frame_witness :
  0 ≤ 0 < py_len (tr_lst (tbl table_2x3))
  ∧ (length (tr_lst (tbl table_2x3)) < 3)%nat
  ∧ accepted (T := emu_types) (doc table_2x3) (SetHeight 0 5)
  ∧ accepted (T := emu_types) (doc table_stale) (SetHeight 0 370840)
  ∧ (∃ σ', assign (T := emu_types) 3 the_table (SetHeight 0 5) table_2x3
           = (Ret tt, σ')
       ∧ h <$> tr_lst (tbl σ') = [5; 370840]
       ∧ height (graphic_frame σ') = 370845
       ∧ width (graphic_frame σ') = 2743200
       ∧ tblGrid (tbl σ') = tblGrid (tbl table_2x3))
  ∧ (∃ σ', assign (T := emu_types) 3 the_table (SetHeight 0 370840)
             table_stale
           = (Ret tt, σ')
       ∧ tbl σ' = tbl table_stale
       ∧ height (graphic_frame table_stale) = 1
       ∧ height (graphic_frame σ') = 741680).
Proof.
  assert (0 ≤ 0 < py_len (tr_lst (tbl table_2x3))) as Hi
    by (unfold py_len; simpl; lia).
  assert (length (tr_lst (tbl table_2x3)) < 3)%nat as Hfuel by (simpl; lia).
  assert (accepted (T := emu_types) (doc table_2x3) (SetHeight 0 5))
    as Hacc by (split; reflexivity).
  assert (accepted (T := emu_types) (doc table_stale) (SetHeight 0 370840))
    as Hacc' by (split; reflexivity).
  split; [exact Hi|]. split; [exact Hfuel|]. split; [exact Hacc|].
  split; [exact Hacc'|]. split.
  - destruct (C9_row_height_frame (T := emu_types) the_table table_2x3 0 5 3
                Hi Hfuel) as [Hret Hrun].
    destruct (Hrun Hacc) as [σ' Hσ']. exists σ'. split; [exact Hσ'|].
    destruct (Hret σ' Hσ')
      as (Hrows & _ & _ & Hgrid & _ & _ & Hw & Hh & _).
    rewrite Hh, Hw, Hrows. split_and!; [reflexivity..|exact Hgrid].
  - destruct (C9_row_height_frame (T := emu_types) the_table table_stale
                0 370840 3 Hi Hfuel) as [Hret Hrun].
    destruct (Hrun Hacc') as [σ' Hσ']. exists σ'. split; [exact Hσ'|].
    destruct (Hret σ' Hσ') as (_ & _ & _ & _ & _ & _ & _ & _ & _ & _ & Hold).
    destruct (Hold _ eq_refl eq_refl) as [Htbl Hh].
    split; [exact Htbl|]. split; [reflexivity|]. rewrite Hh. reflexivity.
Defined.

(** ** Sequences of size assignments *)

Lemma assign_doc_shape d a :
  length (tr_lst (assign_doc d a).1) = length (tr_lst d.1)
  ∧ length (gridCol_lst (tblGrid (assign_doc d a).1))
    = length (gridCol_lst (tblGrid d.1)).
Proof.
  destruct a; simpl; by rewrite ?length_alter, ?length_insert.
Qed.

Lemma doc_height_assigned t i v σ0 σ :
  doc σ0 = doc σ →
  doc (height_changed t (with_tbl (write_h (Z.to_nat i) v) σ0))
  = assign_doc (doc σ) (SetHeight i v).
Proof.
  intros E. unfold doc in *. injection E as E1 E2.
  rewrite tbl_height_changed, graphic_frame_height_changed. simpl.
  by rewrite E1, E2.
Qed.

Lemma doc_width_assigned t j v σ0 σ :
  doc σ0 = doc σ →
  doc (width_changed t (with_tbl (write_w (Z.to_nat j) v) σ0))
  = assign_doc (doc σ) (SetWidth j v).
Proof.
  intros E. unfold doc in *. injection E as E1 E2.
  rewrite tbl_width_changed, graphic_frame_width_changed. simpl.
  by rewrite E1, E2.
Qed.

Lemma doc_bump_after_rows t σ : doc (bump 1 (after_rows t σ)) = doc σ.
Proof.
  unfold doc. simpl. by rewrite tbl_after_rows, graphic_frame_after_rows.
Qed.

Lemma doc_bump_after_columns t σ : doc (bump 1 (after_columns t σ)) = doc σ.
Proof.
  unfold doc. simpl.
  by rewrite tbl_after_columns, graphic_frame_after_columns.
Qed.

(** An assignment that returns was accepted and acts on the tree and
    the frame as [assign_doc] says. *)
Lemma assign_ret_doc {T : AttrTypes} fuel table a σ σ' :
  in_range (length (tr_lst (tbl σ)))
           (length (gridCol_lst (tblGrid (tbl σ)))) a →
  (length (tr_lst (tbl σ)) < fuel)%nat →
  (length (gridCol_lst (tblGrid (tbl σ))) < fuel)%nat →
  assign fuel table a σ = (Ret tt, σ') →
  accepted (doc σ) a ∧ doc σ' = assign_doc (doc σ) a.
Proof.
  intros Ha Hr Hc Hrun. destruct a as [i v|j v]; simpl in Ha.
  - apply assign_height_ret in Hrun as [Hacc ->]; [|done..].
    split; [done|]. apply doc_height_assigned, doc_bump_after_rows.
  - apply assign_width_ret in Hrun as [Hacc ->]; [|done..].
    split; [done|]. apply doc_width_assigned, doc_bump_after_columns.
Qed.

Lemma assign_run_doc {T : AttrTypes} fuel table a σ :
  in_range (length (tr_lst (tbl σ)))
           (length (gridCol_lst (tblGrid (tbl σ)))) a →
  (length (tr_lst (tbl σ)) < fuel)%nat →
  (length (gridCol_lst (tblGrid (tbl σ))) < fuel)%nat →
  accepted (doc σ) a →
  ∃ σ', assign fuel table a σ = (Ret tt, σ')
        ∧ doc σ' = assign_doc (doc σ) a.
Proof.
  intros Ha Hr Hc Hacc. destruct a as [i v|j v]; simpl in Ha.
  - eexists. split; [by apply assign_height_run|].
    apply doc_height_assigned, doc_bump_after_rows.
  - eexists. split; [by apply assign_width_run|].
    apply doc_width_assigned, doc_bump_after_columns.
Qed.

Lemma assign_all_ret_doc {T : AttrTypes} fuel table l : ∀ σ σ',
  Forall (in_range (length (tr_lst (tbl σ)))
                   (length (gridCol_lst (tblGrid (tbl σ))))) l →
  (length (tr_lst (tbl σ)) < fuel)%nat →
  (length (gridCol_lst (tblGrid (tbl σ))) < fuel)%nat →
  assign_all fuel table l σ = (Ret tt, σ') →
  accepted_all (doc σ) l ∧ doc σ' = foldl assign_doc (doc σ) l.
Proof.
  induction l as [|a l IH]; intros σ σ' Hl Hr Hc Hrun.
  - injection Hrun as <-. by split.
  - apply Forall_cons in Hl as [Ha Hl].
    simpl in Hrun. rewrite bind_run in Hrun.
    destruct (assign fuel table a σ) as [[[]|e|] σ1] eqn:Hstep; [|done..].
    destruct (assign_ret_doc fuel table a σ σ1 Ha Hr Hc Hstep)
      as [Hacc Hdoc].
    destruct (assign_doc_shape (doc σ) a) as [Er Ec].
    rewrite <- Hdoc in Er, Ec. simpl in Er, Ec.
    destruct (IH σ1 σ') as [Hacc' Hdoc']; [by rewrite Er, Ec|lia..|done|].
    simpl. rewrite <- Hdoc. by split_and!.
Qed.

Lemma assign_all_run_doc {T : AttrTypes} fuel table l : ∀ σ,
  Forall (in_range (length (tr_lst (tbl σ)))
                   (length (gridCol_lst (tblGrid (tbl σ))))) l →
  (length (tr_lst (tbl σ)) < fuel)%nat →
  (length (gridCol_lst (tblGrid (tbl σ))) < fuel)%nat →
  accepted_all (doc σ) l →
  ∃ σ', assign_all fuel table l σ = (Ret tt, σ')
        ∧ doc σ' = foldl assign_doc (doc σ) l.
Proof.
  induction l as [|a l IH]; intros σ Hl Hr Hc Hacc.
  - by exists σ.
  - apply Forall_cons in Hl as [Ha Hl]. destruct Hacc as [Hacc Hacc'].
    destruct (assign_run_doc fuel table a σ Ha Hr Hc Hacc)
      as (σ1 & Hrun & Hdoc).
    destruct (assign_doc_shape (doc σ) a) as [Er Ec].
    rewrite <- Hdoc in Er, Ec, Hacc'. simpl in Er, Ec.
    destruct (IH σ1) as (σ2 & Hrun2 & Hdoc2); [by rewrite Er, Ec|lia..|done|].
    exists σ2. split.
    + simpl. by rewrite (bind_ret _ _ _ _ _ Hrun).
    + simpl. by rewrite <- Hdoc.
Qed.

Lemma foldl_assign_doc_any_order T G l :
  length (tr_lst T) = 2%nat →
  length (gridCol_lst (tblGrid T)) = 3%nat →
  l ∈ permutations the_assignments →
  foldl assign_doc (T, G) l = foldl assign_doc (T, G) the_assignments.
Proof.
  destruct T as [rows [cols] ? ? ? ? ? ? ?]; simpl.
  intros Hr Hc.
  destruct rows as [|r0 [|r1 [|? ?]]]; try done.
  destruct cols as [|c0 [|c1 [|c2 [|? ?]]]]; try done.
  clear Hr Hc. revert l. apply Forall_forall.
  let p := eval vm_compute in (permutations the_assignments) in
  change (permutations the_assignments) with p.
  repeat (apply Forall_cons; split; [vm_compute; reflexivity|]).
  apply Forall_nil_2.
Qed.

(** C6. On a table of two rows and three columns, take the row heights
    100 and 200 and the column widths 10, 20 and 30 assigned through
    the row and column setters, in any order.  Whenever the run
    returns, the frame has height 300 and width 60, and the tree and
    the frame are in the same state whatever the order was.  The run
    returns whenever the types accept each value and each sum the frame
    is given on the way. *)
Theorem C6_end_to_end {T : AttrTypes} (table : Table) (σ : Store)
    (fuel : nat) (l : list assignment) :
  length (tr_lst (tbl σ)) = 2%nat →
  length (gridCol_lst (tblGrid (tbl σ))) = 3%nat →
  (3 < fuel)%nat →
  l ≡ₚ the_assignments →
  (∀ σ', assign_all fuel table l σ = (Ret tt, σ') →
         height (graphic_frame σ') = 300
         ∧ width (graphic_frame σ') = 60
         ∧ h <$> tr_lst (tbl σ') = [100; 200]
         ∧ w <$> gridCol_lst (tblGrid (tbl σ')) = [10; 20; 30]
         ∧ doc σ' = foldl assign_doc (doc σ) the_assignments)
  ∧ (accepted_all (doc σ) l →
     ∃ σ', assign_all fuel table l σ = (Ret tt, σ')).
Proof.
  intros Hr Hc Hfuel Hl.
  assert (Forall (in_range (length (tr_lst (tbl σ)))
                    (length (gridCol_lst (tblGrid (tbl σ))))) l) as Hin.
  { rewrite Hr, Hc, Hl. unfold the_assignments.
    repeat (apply Forall_cons; split; [simpl; lia|]). apply Forall_nil_2. }
  split.
  - intros σ' Hrun.
    destruct (assign_all_ret_doc fuel table l σ σ' Hin) as [_ Hdoc];
      [lia..|done|].
    unfold doc in Hdoc at 2.
    rewrite foldl_assign_doc_any_order in Hdoc
      by (try done; by apply permutations_Permutation).
    cut (height (foldl assign_doc (doc σ) the_assignments).2 = 300
         ∧ width (foldl assign_doc (doc σ) the_assignments).2 = 60
         ∧ h <$> tr_lst (foldl assign_doc (doc σ) the_assignments).1
           = [100; 200]
         ∧ w <$> gridCol_lst
                   (tblGrid (foldl assign_doc (doc σ) the_assignments).1)
           = [10; 20; 30]).
    { assert (doc σ' = foldl assign_doc (doc σ) the_assignments) as Hd
        by exact Hdoc.
      rewrite <- Hd. simpl. tauto. }
    unfold doc. revert Hr Hc. clear.
    destruct (tbl σ) as [rows [cols] ? ? ? ? ? ? ?]; simpl.
    intros Hr Hc.
    destruct rows as [|r0 [|r1 [|? ?]]]; try done.
    destruct cols as [|c0 [|c1 [|c2 [|? ?]]]]; done.
  - intros Hacc.
    destruct (assign_all_run_doc fuel table l σ Hin) as (σ' & Hrun & _);
      [lia..|done|].
    by exists σ'.
Qed.

Lemma C6_end_to_end_witness :
  let l := [SetWidth 2 30; SetHeight 1 200; SetWidth 0 10; SetHeight 0 100;
            SetWidth 1 20] in
  l ≡ₚ the_assignments
  ∧ accepted_all (T := emu_types) (doc table_2x3) l
  ∧ ∃ σ', assign_all (T := emu_types) 4 the_table l table_2x3 = (Ret tt, σ')
          ∧ height (graphic_frame σ') = 300
          ∧ width (graphic_frame σ') = 60.
Proof.
  intros l.
  assert (l ≡ₚ the_assignments) as Hl.
  { apply permutations_Permutation. vm_compute.
    repeat (first [apply list_elem_of_here | apply list_elem_of_further]). }
  assert (accepted_all (T := emu_types) (doc table_2x3) l) as Hacc
    by (repeat split; reflexivity).
  split; [exact Hl|]. split; [exact Hacc|].
  destruct (C6_end_to_end (T := emu_types) the_table table_2x3 4 l
              eq_refl eq_refl ltac:(lia) Hl) as [Hret Hrun].
  destruct (Hrun Hacc) as [σ' Hσ']. exists σ'. split; [exact Hσ'|].
  destruct (Hret σ' Hσ') as (Hh & Hw & _). split; assumption.
Defined.

(** * Indexed access *)

Lemma tr_tc_lst_run tr row σ :
  tr_lst (tbl σ) !! tr = Some row →
  tr_tc_lst tr σ = (Ret (pair tr <$> seq 0 (length (tc_lst row))), σ).
Proof. intros E. unfold tr_tc_lst, get_some. by rewrite E. Qed.

Lemma list_getitem_in {A} (lst : list A) idx a σ :
  0 ≤ idx → lst !! Z.to_nat idx = Some a →
  list_getitem lst idx σ = (Ret a, σ).
Proof.
  intros Hi E. unfold list_getitem. cbv zeta.
  rewrite !(decide_False (P := idx < 0)) by lia. by rewrite E.
Qed.

Section cells_getitem.
Variable σ : Store.
Variable cells : _CellCollection.
Variable row : CT_TableRow.
Hypothesis Hrow : tr_lst (tbl σ) !! CellCollection_tr cells = Some row.

Lemma CellCollection_len_run :
  CellCollection_len cells σ = (Ret (py_len (tc_lst row)), σ).
Proof.
  unfold CellCollection_len.
  rewrite (bind_ret _ _ _ _ _ (tr_tc_lst_run _ _ _ Hrow)).
  unfold py_len. by rewrite length_fmap, length_seq.
Qed.

Lemma CellCollection_getitem_in idx :
  0 ≤ idx < py_len (tc_lst row) →
  CellCollection_getitem cells idx σ
  = (Ret {| Cell_id := next_id σ;
            Cell_tc := (CellCollection_tr cells, Z.to_nat idx);
            Cell_parent := ParentCells cells |},
     bump 1 σ).
Proof.
  unfold py_len. intros Hi. unfold CellCollection_getitem.
  rewrite (bind_ret _ _ _ _ _ (tr_tc_lst_run _ _ _ Hrow)).
  unfold py_len. rewrite length_fmap, length_seq.
  rewrite decide_False by lia.
  rewrite (bind_ret _ _ _ _ _ (tr_tc_lst_run _ _ _ Hrow)).
  erewrite bind_ret; [reflexivity|].
  apply list_getitem_in; [lia|].
  rewrite list_lookup_fmap, lookup_seq_lt by lia. reflexivity.
Qed.

Lemma CellCollection_getitem_out idx :
  idx < 0 ∨ py_len (tc_lst row) ≤ idx →
  CellCollection_getitem cells idx σ
  = (Raise (IndexError
              ("cell index [" +:+ pretty idx +:+ "] out of range")),
     σ).
Proof.
  unfold py_len. intros Hi. unfold CellCollection_getitem.
  rewrite (bind_ret _ _ _ _ _ (tr_tc_lst_run _ _ _ Hrow)).
  unfold py_len. rewrite length_fmap, length_seq.
  rewrite decide_True by lia. reflexivity.
Qed.
End cells_getitem.

Lemma indexed_access_intro {P E} (getitem : Z → M P) (len : M Z)
    (elements : M (list E)) (elem_of : P → E) before after σ idx n elts
    (proxy : P) :
  len σ = (Ret n, σ) → elements σ = (Ret elts, σ) → n = py_len elts →
  (idx < 0 ∨ n ≤ idx →
   getitem idx σ = (Raise (IndexError (before +:+ pretty idx +:+ after)), σ)) →
  (0 ≤ idx < n →
   getitem idx σ = (Ret proxy, bump 1 σ)
   ∧ elts !! Z.to_nat idx = Some (elem_of proxy)) →
  indexed_access getitem len elements elem_of before after σ idx.
Proof.
  intros Hlen Helts Hn Hout Hin. exists n, elts. split_and!; try done.
  - split.
    + intros (msg & σ' & Hraise).
      destruct (decide (idx < 0 ∨ n ≤ idx)) as [|Hno]; [done|].
      destruct Hin as [Hret _]; [lia|]. congruence.
    + intros Hi. rewrite Hout by done. eauto.
  - intros Hi. exists proxy. by apply Hin.
Qed.

(** C4. For each of the three collections and every integer [idx],
    [coll[idx]] raises [IndexError], with [idx] in its message, exactly
    when [idx < 0] or [idx >= len(coll)]; a negative index never counts
    from the end; for an index in range the result is a proxy for the
    element at position [idx] of the underlying sequence. *)
Theorem C4_indexed_access (σ : Store) (idx : Z) :
  (∀ rows : _RowCollection,
     indexed_access (RowCollection_getitem rows) (RowCollection_len rows)
       tbl_tr_lst Row_tr "row index [" "] out of range" σ idx)
  ∧ (∀ columns : _ColumnCollection,
       indexed_access (ColumnCollection_getitem columns)
         (ColumnCollection_len columns)
         tbl_gridCol_lst Column_gridCol "column index [" "] out of range"
         σ idx)
  ∧ (∀ cells : _CellCollection,
       is_Some (tr_lst (tbl σ) !! CellCollection_tr cells) →
       indexed_access (CellCollection_getitem cells)
         (CellCollection_len cells)
         (tr_tc_lst (CellCollection_tr cells)) Cell_tc
         "cell index [" "] out of range" σ idx).
Proof.
  split_and!.
  - intros rows. eapply indexed_access_intro.
    + apply RowCollection_len_run.
    + apply tbl_tr_lst_run.
    + by rewrite py_len_seq.
    + apply RowCollection_getitem_out.
    + intros Hi. split; [by apply RowCollection_getitem_in|].
      simpl. rewrite lookup_seq_lt by lia. reflexivity.
  - intros columns. eapply indexed_access_intro.
    + apply ColumnCollection_len_run.
    + apply tbl_gridCol_lst_run.
    + by rewrite py_len_seq.
    + apply ColumnCollection_getitem_out.
    + intros Hi. split; [by apply ColumnCollection_getitem_in|].
      simpl. rewrite lookup_seq_lt by lia. reflexivity.
  - intros cells [row Hrow]. eapply indexed_access_intro.
    + apply (CellCollection_len_run _ _ _ Hrow).
    + by apply tr_tc_lst_run.
    + unfold py_len. by rewrite length_fmap, length_seq.
    + apply (CellCollection_getitem_out _ _ _ Hrow).
    + intros Hi. split; [by apply (CellCollection_getitem_in _ _ _ Hrow)|].
      unfold py_len in Hi. simpl.
      rewrite list_lookup_fmap, lookup_seq_lt by lia. reflexivity.
Qed.

Lemma C4_indexed_access_witness :
  is_Some (tr_lst (tbl table_2x3) !! 1%nat)
  ∧ RowCollection_getitem (rows_of the_table table_2x3) (-1) table_2x3
    = (Raise (IndexError "row index [-1] out of range"), table_2x3)
  ∧ ColumnCollection_getitem (columns_of the_table table_2x3) 3 table_2x3
    = (Raise (IndexError "column index [3] out of range"), table_2x3)
  ∧ ∀ cells, CellCollection_tr cells = 1%nat →
      CellCollection_getitem cells 3 table_2x3
      = (Raise (IndexError "cell index [3] out of range"), table_2x3).
Proof.
  assert (is_Some (tr_lst (tbl table_2x3) !! 1%nat)) as Hrow by (by eexists).
  split; [exact Hrow|]. split_and!.
  - destruct (C4_indexed_access table_2x3 (-1)) as (Hrows & _ & _).
    destruct (Hrows (rows_of the_table table_2x3))
      as (n & elts & Hlen & _ & _ & _ & Hout & _).
    apply Hout. left. lia.
  - destruct (C4_indexed_access table_2x3 3) as (_ & Hcols & _).
    destruct (Hcols (columns_of the_table table_2x3))
      as (n & elts & Hlen & _ & _ & _ & Hout & _).
    apply Hout. right.
    rewrite ColumnCollection_len_run in Hlen. injection Hlen as <-.
    simpl. lia.
  - intros cells Hcells.
    destruct (C4_indexed_access table_2x3 3) as (_ & _ & Hcells').
    destruct (Hcells' cells) as (n & elts & Hlen & _ & _ & _ & Hout & _).
    + by rewrite Hcells.
    + apply Hout. right.
      rewrite (CellCollection_len_run _ _
                 {| h := 370840; tc_lst := replicate 3 plain_cell |}) in Hlen
        by (by rewrite Hcells).
      injection Hlen as <-. unfold py_len. simpl. lia.
Defined.

(** * Cells *)

Lemma Table_cell_inv table r c σ a σ1 :
  Table_cell table r c σ = (Ret a, σ1) →
  ∃ tc, CT_Table_tc (tbl σ) r c = Some tc
        ∧ a = {| Cell_id := next_id σ; Cell_tc := tc;
                 Cell_parent := ParentTable table |}
        ∧ σ1 = bump 1 σ.
Proof.
  unfold Table_cell. rewrite bind_run. unfold tbl_tc at 1.
  destruct (CT_Table_tc (tbl σ) r c) as [tc|]; [|done].
  unfold new_Cell. rewrite (bind_ret _ _ _ _ _ (alloc_run σ)).
  intros [= <- <-]. by exists tc.
Qed.

Lemma CT_Table_tc_unmerged T r c tc :
  spans T = [] → CT_Table_tc T r c = Some tc →
  0 ≤ r ∧ 0 ≤ c ∧ tc = (Z.to_nat r, Z.to_nat c).
Proof.
  intros Hs. unfold CT_Table_tc. rewrite Hs. simpl.
  destruct (decide (r < 0 ∨ c < 0)); [done|].
  destruct (lookup_tc T _); [|done].
  intros [= <-]. split_and!; [lia..|done].
Qed.

(** C5. Two [_Cell] proxies are equal exactly when they stand for the
    same element of the tree, whichever proxy objects they are: two
    calls of [table.cell] with the same coordinates give two objects
    that are equal, cells for different elements (such as
    [table.cell(1, 2)] and [table.cell(1, 1)] where nothing is merged)
    are unequal, and [!=] is the negation of [==] on cells. *)
Theorem C5_cell_equality :
  (∀ a b : _Cell, Cell_eq a (OCell b) = true ↔ Cell_tc a = Cell_tc b)
  ∧ (∀ a b : _Cell, Cell_ne a (OCell b) = negb (Cell_eq a (OCell b)))
  ∧ (∀ table σ r c a σ1 b σ2,
       Table_cell table r c σ = (Ret a, σ1) →
       Table_cell table r c σ1 = (Ret b, σ2) →
       Cell_id a ≠ Cell_id b
       ∧ Cell_eq a (OCell b) = true ∧ Cell_ne a (OCell b) = false)
  ∧ (∀ table σ r c r' c' a σ1 b σ2,
       spans (tbl σ) = [] →
       Table_cell table r c σ = (Ret a, σ1) →
       Table_cell table r' c' σ1 = (Ret b, σ2) →
       (Cell_eq a (OCell b) = true ↔ r = r' ∧ c = c')
       ∧ (Cell_ne a (OCell b) = true ↔ ¬ (r = r' ∧ c = c'))).
Proof.
  assert (∀ a b : _Cell, Cell_eq a (OCell b) = true ↔ Cell_tc a = Cell_tc b)
    as Heq by (intros a b; unfold Cell_eq; simpl; apply bool_decide_eq_true).
  assert (∀ a b : _Cell, Cell_ne a (OCell b) = negb (Cell_eq a (OCell b)))
    as Hne by done.
  split_and!; try done.
  - intros table σ r c a σ1 b σ2 Ha Hb.
    apply Table_cell_inv in Ha as (tc & Htc & -> & ->).
    apply Table_cell_inv in Hb as (tc' & Htc' & -> & ->).
    simpl in Htc'. rewrite Htc in Htc'. injection Htc' as <-.
    rewrite Hne. assert (Cell_eq
      {| Cell_id := next_id σ; Cell_tc := tc; Cell_parent := ParentTable table |}
      (OCell {| Cell_id := next_id (bump 1 σ); Cell_tc := tc;
                Cell_parent := ParentTable table |}) = true) as ->
      by (by apply Heq).
    simpl. split_and!; [lia|done..].
  - intros table σ r c r' c' a σ1 b σ2 Hs Ha Hb.
    apply Table_cell_inv in Ha as (tc & Htc & -> & ->).
    apply Table_cell_inv in Hb as (tc' & Htc' & -> & ->).
    simpl in Htc'.
    apply CT_Table_tc_unmerged in Htc as (Hr & Hc & ->); [|done].
    apply CT_Table_tc_unmerged in Htc' as (Hr' & Hc' & ->); [|done].
    rewrite Hne, negb_true_iff, <- not_true_iff_false, !Heq. simpl.
    assert ((Z.to_nat r, Z.to_nat c) = (Z.to_nat r', Z.to_nat c')
            ↔ r = r' ∧ c = c') as Hiff.
    { split; [intros [= E1 E2]; lia|by intros [-> ->]]. }
    by rewrite Hiff.
Qed.

Lemma C5_cell_equality_witness :
  ∃ a b c σ1 σ2 σ3,
    spans (tbl table_2x3) = []
    ∧ Table_cell the_table 1 2 table_2x3 = (Ret a, σ1)
    ∧ Table_cell the_table 1 2 σ1 = (Ret b, σ2)
    ∧ Table_cell the_table 1 1 σ2 = (Ret c, σ3)
    ∧ Cell_id a ≠ Cell_id b
    ∧ Cell_eq a (OCell b) = true
    ∧ Cell_eq b (OCell c) = false.
Proof.
  destruct C5_cell_equality as (_ & _ & Hsame & Hother).
  do 6 eexists. split; [reflexivity|].
  split; [reflexivity|]. split; [reflexivity|]. split; [reflexivity|].
  destruct (Hsame the_table table_2x3 1 2 _ _ _ _ eq_refl eq_refl)
    as (Hid & Heq & _).
  split; [exact Hid|]. split; [exact Heq|].
  destruct (Hother the_table (bump 1 table_2x3) 1 2 1 1 _ _ _ _
              eq_refl eq_refl eq_refl) as [Hiff _].
  apply not_true_is_false. intros Htrue. apply Hiff in Htrue. lia.
Defined.

(** C10. For a cell [c] and any object [x] that is not a [_Cell],
    [c == x] is [False] and [c != x] is [True]; both comparisons return
    for every right-hand operand. *)
Theorem C10_cell_compared_with_other (c : _Cell) (x : object) :
  (∀ c' : _Cell, x ≠ OCell c') →
  Cell_eq c x = false ∧ Cell_ne c x = true.
Proof.
  intros Hx. unfold Cell_eq, Cell_ne.
  destruct x; try done. by destruct (Hx c0).
Qed.

Lemma C10_cell_compared_with_other_witness :
  (∀ c' : _Cell, OValue (PyInt 0) ≠ OCell c')
  ∧ ∀ c, Cell_eq c (OValue (PyInt 0)) = false
         ∧ Cell_ne c (OValue (PyInt 0)) = true.
Proof.
  assert (∀ c' : _Cell, OValue (PyInt 0) ≠ OCell c') as Hx by done.
  split; [exact Hx|].
  intros c. exact (C10_cell_compared_with_other c (OValue (PyInt 0)) Hx).
Defined.

(** * Margins *)

Section margin_setters.
Context {T : AttrTypes}.
Variable str : value → string.

Lemma margin_setter_unfold a cell v :
  Cell_margin_setter str a cell v
  = (Cell_validate_margin_value str v;; tc_set_mar a (Cell_tc cell) v).
Proof. by destruct a. Qed.

Lemma validate_accepts v σ :
  is_integer v = true ∨ is_None v = true →
  Cell_validate_margin_value str v σ = (Ret tt, σ).
Proof.
  unfold Cell_validate_margin_value.
  intros [-> | ->]; simpl; [done|]. by rewrite andb_false_r.
Qed.

Lemma validate_rejects v σ :
  is_integer v = false → is_None v = false →
  ∃ msg, Cell_validate_margin_value str v σ = (Raise (TypeError msg), σ)
         ∧ ((∀ items, v ≠ PyTuple items) → msg = margin_message str v).
Proof.
  unfold Cell_validate_margin_value. intros -> ->; simpl.
  destruct v as [| | | |items|]; try (eexists; split; [reflexivity|done]).
  destruct items as [|x [|y items]]; eexists; (split; [reflexivity|]);
    intros Hv; by destruct (Hv _ eq_refl).
Qed.

(** A value that is neither an integer nor [None] is refused with a
    [TypeError] and the store is as before; unless the value is a
    tuple, the message names it. *)
Lemma margin_setter_rejects a cell v σ :
  is_integer v = false → is_None v = false →
  ∃ msg, Cell_margin_setter str a cell v σ = (Raise (TypeError msg), σ)
         ∧ ((∀ items, v ≠ PyTuple items) → msg = margin_message str v).
Proof.
  intros Hint Hnone. rewrite margin_setter_unfold.
  destruct (validate_rejects v σ Hint Hnone) as (msg & Hrun & Hmsg).
  exists msg. split; [|done]. by apply bind_raise.
Qed.

(** An integer of any sign goes to the type of the attribute, which
    stores it or refuses it; [None] clears the attribute. *)
Lemma margin_setter_accepts a cell v σ tc :
  lookup_tc (tbl σ) (Cell_tc cell) = Some tc →
  (∀ z, v = PyInt z →
     Cell_margin_setter str a cell v σ
     = match tc_mar_check z with
       | None =>
           (Ret tt,
            with_tbl (alter_tc (write_mar a (Some z)) (Cell_tc cell)) σ)
       | Some msg => (Raise (ValueError msg), σ)
       end)
  ∧ (v = PyNone →
     Cell_margin_setter str a cell v σ
     = (Ret tt, with_tbl (alter_tc (write_mar a None) (Cell_tc cell)) σ)).
Proof.
  intros Htc. rewrite margin_setter_unfold. split.
  - intros z ->. erewrite bind_ret by (apply validate_accepts; by left).
    unfold tc_set_mar, checked. destruct (tc_mar_check z); [done|].
    by rewrite Htc.
  - intros ->. erewrite bind_ret by (apply validate_accepts; by right).
    unfold tc_set_mar. by rewrite Htc.
Qed.

(** A margin setter raises a [TypeError] exactly for the values that
    are neither an integer nor [None]. *)
Lemma margin_setter_type_error_iff a cell v σ tc :
  lookup_tc (tbl σ) (Cell_tc cell) = Some tc →
  (∃ msg σ', Cell_margin_setter str a cell v σ = (Raise (TypeError msg), σ'))
  ↔ is_integer v = false ∧ is_None v = false.
Proof.
  intros Htc. split.
  - intros (msg & σ' & Hraise).
    destruct (margin_setter_accepts a cell v σ tc Htc) as [Hint Hnone].
    destruct v as [|z| | | |]; try done.
    + by rewrite Hnone in Hraise.
    + rewrite (Hint _ eq_refl) in Hraise. by destruct (tc_mar_check z).
  - intros [Hint Hnone].
    destruct (margin_setter_rejects a cell v σ Hint Hnone) as (msg & -> & _).
    eauto.
Qed.

(** It raises at all exactly for those values and for the integers the
    type of the attribute refuses. *)
Lemma margin_setter_raises_iff a cell v σ tc :
  lookup_tc (tbl σ) (Cell_tc cell) = Some tc →
  (∃ e σ', Cell_margin_setter str a cell v σ = (Raise e, σ'))
  ↔ (is_integer v = false ∧ is_None v = false)
    ∨ (∃ z msg, v = PyInt z ∧ tc_mar_check z = Some msg).
Proof.
  intros Htc. split.
  - intros (e & σ' & Hraise).
    destruct (margin_setter_accepts a cell v σ tc Htc) as [Hint Hnone].
    destruct v as [|z| | | |]; try (by left).
    + by rewrite Hnone in Hraise.
    + rewrite (Hint _ eq_refl) in Hraise. right.
      destruct (tc_mar_check z) as [msg|] eqn:Ez; [by exists z, msg|done].
  - intros [[Hint Hnone]|(z & msg & -> & Hz)].
    + destruct (margin_setter_rejects a cell v σ Hint Hnone)
        as (msg & -> & _).
      eauto.
    + destruct (margin_setter_accepts a cell (PyInt z) σ tc Htc)
        as [Hint _].
      rewrite (Hint _ eq_refl), Hz. eauto.
Qed.

(** C3. The setters name the refused value in the message of the
    error by [tmpl % margin_value].  For the tuple [(1, 2)], which is
    neither an integer nor [None], each of the four setters raises
    the [TypeError] of the formatting operator instead, and its
    message does not name the value; the store is unchanged. *)
Theorem C3_margin_message_for_tuple (a : margin_attr) (cell : _Cell)
    (σ : Store) :
  let v := PyTuple [PyInt 1; PyInt 2] in
  is_integer v = false ∧ is_None v = false
  ∧ Cell_margin_setter str a cell v σ
    = (Raise (TypeError
                "not all arguments converted during string formatting"),
       σ)
  ∧ "not all arguments converted during string formatting"
    ≠ margin_message str v.
Proof.
  intros v. split_and!; try done.
  rewrite margin_setter_unfold. by apply bind_raise.
Qed.
End margin_setters.

(** * Iteration *)

Lemma list_rows_run fuel rows σ :
  (length (tr_lst (tbl σ)) < fuel)%nat →
  py_list (seq_next (RowCollection_getitem rows)) fuel 0 σ
  = (Ret ((λ k, {| Row_id := (k + next_id σ)%nat; Row_tr := k;
                   Row_parent := rows |})
          <$> seq 0 (length (tr_lst (tbl σ)))),
     bump (length (tr_lst (tbl σ))) σ).
Proof.
  intros Hfuel. unfold py_list. change 0 with (Z.of_nat 0).
  rewrite (comprehension_seq_run
    (RowCollection_getitem rows) mret (length (tr_lst (tbl σ)))
    (λ k o, {| Row_id := o; Row_tr := k; Row_parent := rows |})
    (λ k o, {| Row_id := o; Row_tr := k; Row_parent := rows |})
    (λ σ', tbl σ' = tbl σ)) with (m := length (tr_lst (tbl σ))); try done.
  - intros σ' k E Hk.
    rewrite RowCollection_getitem_in by (rewrite E; lia).
    by rewrite Nat2Z.id.
  - intros σ' E. eexists.
    apply RowCollection_getitem_out. rewrite E. lia.
Qed.

Lemma list_columns_run fuel columns σ :
  (length (gridCol_lst (tblGrid (tbl σ))) < fuel)%nat →
  py_list (seq_next (ColumnCollection_getitem columns)) fuel 0 σ
  = (Ret ((λ k, {| Column_id := (k + next_id σ)%nat; Column_gridCol := k;
                   Column_parent := columns |})
          <$> seq 0 (length (gridCol_lst (tblGrid (tbl σ))))),
     bump (length (gridCol_lst (tblGrid (tbl σ)))) σ).
Proof.
  intros Hfuel. unfold py_list. change 0 with (Z.of_nat 0).
  rewrite (comprehension_seq_run
    (ColumnCollection_getitem columns) mret
    (length (gridCol_lst (tblGrid (tbl σ))))
    (λ k o, {| Column_id := o; Column_gridCol := k; Column_parent := columns |})
    (λ k o, {| Column_id := o; Column_gridCol := k; Column_parent := columns |})
    (λ σ', tbl σ' = tbl σ))
    with (m := length (gridCol_lst (tblGrid (tbl σ)))); try done.
  - intros σ' k E Hk.
    rewrite ColumnCollection_getitem_in by (rewrite E; lia).
    by rewrite Nat2Z.id.
  - intros σ' E. eexists.
    apply ColumnCollection_getitem_out. rewrite E. lia.
Qed.

Lemma Cell_tc_cells_from self lst : ∀ o,
  Cell_tc <$> cells_from self o lst = lst.
Proof.
  unfold cells_from. induction lst as [|tc lst IH]; intros o; [done|].
  simpl. f_equal. rewrite <- (IH (S o)) at 2. f_equal.
  apply imap_ext. intros j x _. simpl. f_equal. lia.
Qed.

Lemma cell_generator_next_some self lst k tc σ :
  lst !! k = Some tc →
  cell_generator_next {| gen_self := self; gen_lst := lst; gen_pos := k |} σ
  = (Ret (Some {| Cell_id := next_id σ; Cell_tc := tc;
                  Cell_parent := ParentCells self |},
          {| gen_self := self; gen_lst := lst; gen_pos := S k |}),
     bump 1 σ).
Proof. intros E. unfold cell_generator_next; simpl. by rewrite E. Qed.

Lemma cell_generator_next_none self lst k σ :
  lst !! k = None →
  cell_generator_next {| gen_self := self; gen_lst := lst; gen_pos := k |} σ
  = (Ret (None, {| gen_self := self; gen_lst := lst; gen_pos := k |}), σ).
Proof. intros E. unfold cell_generator_next; simpl. by rewrite E. Qed.

Lemma cell_generator_run self lst m : ∀ k fuel σ,
  (k + m = length lst)%nat → (m < fuel)%nat →
  py_list cell_generator_next fuel
          {| gen_self := self; gen_lst := lst; gen_pos := k |} σ
  = (Ret (cells_from self (next_id σ) (drop k lst)), bump m σ).
Proof.
  unfold py_list.
  induction m as [|m IH]; intros k fuel σ Hk Hfuel.
  - destruct fuel as [|fuel]; [lia|]. cbn [comprehension].
    erewrite bind_ret
      by (apply cell_generator_next_none, lookup_ge_None_2; lia).
    rewrite drop_ge by lia. by rewrite bump_0.
  - destruct fuel as [|fuel]; [lia|]. cbn [comprehension].
    destruct (lookup_lt_is_Some_2 lst k) as [tc Htc]; [lia|].
    erewrite bind_ret by (by apply cell_generator_next_some).
    cbv beta iota. erewrite bind_ret by reflexivity.
    erewrite bind_ret by (apply IH; lia).
    rewrite bump_bump. replace (m + 1)%nat with (S m) by lia.
    unfold mret, M_ret, ret. do 2 f_equal.
    rewrite (drop_S _ _ _ Htc). unfold cells_from. simpl. f_equal.
    apply imap_ext. intros j x _. simpl. f_equal. lia.
Qed.

(** C8. Iterating any of the three collections yields as many proxies
    as the collection is long, one for each element of the underlying
    sequence and in its order; the iteration ends, and iterating the
    same collection again yields the whole sequence from its first
    element. *)
Theorem C8_iteration (σ : Store) (fuel : nat) :
  (∀ rows : _RowCollection,
     (length (tr_lst (tbl σ)) < fuel)%nat →
     iterates seq_iter (seq_next (RowCollection_getitem rows))
              (RowCollection_len rows) tbl_tr_lst Row_tr fuel σ)
  ∧ (∀ columns : _ColumnCollection,
       (length (gridCol_lst (tblGrid (tbl σ))) < fuel)%nat →
       iterates seq_iter (seq_next (ColumnCollection_getitem columns))
                (ColumnCollection_len columns) tbl_gridCol_lst
                Column_gridCol fuel σ)
  ∧ (∀ (cells : _CellCollection) (row : CT_TableRow),
       tr_lst (tbl σ) !! CellCollection_tr cells = Some row →
       (length (tc_lst row) < fuel)%nat →
       iterates (CellCollection_iter cells) cell_generator_next
                (CellCollection_len cells)
                (tr_tc_lst (CellCollection_tr cells)) Cell_tc fuel σ).
Proof.
  split_and!.
  - intros rows Hfuel. unfold iterates.
    do 9 eexists. split_and!.
    + apply tbl_tr_lst_run.
    + reflexivity.
    + by apply list_rows_run.
    + rewrite <- list_fmap_compose. apply list_fmap_id.
    + rewrite RowCollection_len_run. unfold py_len.
      by rewrite length_fmap, length_seq.
    + reflexivity.
    + by apply list_rows_run.
    + rewrite <- list_fmap_compose. apply list_fmap_id.
  - intros columns Hfuel. unfold iterates.
    do 9 eexists. split_and!.
    + apply tbl_gridCol_lst_run.
    + reflexivity.
    + by apply list_columns_run.
    + rewrite <- list_fmap_compose. apply list_fmap_id.
    + rewrite ColumnCollection_len_run. unfold py_len.
      by rewrite length_fmap, length_seq.
    + reflexivity.
    + by apply list_columns_run.
    + rewrite <- list_fmap_compose. apply list_fmap_id.
  - intros cells row Hrow Hfuel. unfold iterates.
    assert (∀ σ', tbl σ' = tbl σ →
              CellCollection_iter cells σ'
              = (Ret {| gen_self := cells;
                        gen_lst := pair (CellCollection_tr cells)
                                   <$> seq 0 (length (tc_lst row));
                        gen_pos := 0 |}, σ')) as Hiter.
    { intros σ' E. unfold CellCollection_iter.
      erewrite bind_ret by (apply tr_tc_lst_run; by rewrite E).
      reflexivity. }
    assert (length (pair (CellCollection_tr cells)
                    <$> seq 0 (length (tc_lst row))) = length (tc_lst row))
      as Hlen by (by rewrite length_fmap, length_seq).
    do 9 eexists. split_and!.
    + by apply tr_tc_lst_run.
    + by apply Hiter.
    + apply (cell_generator_run _ _ (length (tc_lst row))); [by rewrite Hlen|done].
    + apply Cell_tc_cells_from.
    + rewrite (CellCollection_len_run _ _ _ Hrow). unfold py_len, cells_from.
      rewrite length_imap, length_drop, Hlen. do 3 f_equal. lia.
    + by apply Hiter.
    + apply (cell_generator_run _ _ (length (tc_lst row))); [by rewrite Hlen|done].
    + apply Cell_tc_cells_from.
Qed.

Lemma C8_iteration_witness :
  (length (tr_lst (tbl table_2x3)) < 3)%nat
  ∧ iterates seq_iter
      (seq_next (RowCollection_getitem (rows_of the_table table_2x3)))
      (RowCollection_len (rows_of the_table table_2x3))
      tbl_tr_lst Row_tr 3 table_2x3.
Proof.
  assert (length (tr_lst (tbl table_2x3)) < 3)%nat as Hfuel by (simpl; lia).
  split; [exact Hfuel|].
  destruct (C8_iteration table_2x3 3) as (Hrows & _ & _).
  exact (Hrows (rows_of the_table table_2x3) Hfuel).
Defined.

(** * The cached collections stay *)

#[local] Instance cache_le_refl : Reflexive cache_le.
Proof. by intros σ. Qed.

#[local] Instance cache_le_trans : Transitive cache_le.
Proof. intros σ1 σ2 σ3 [H1 H2] [H3 H4]. split; eauto. Qed.

Create HintDb keeps.

Lemma keeps_ret {A} (a : A) : keeps_cache (mret a).
Proof. by intros σ. Qed.

Lemma keeps_raise {A} e : keeps_cache (@raise A e).
Proof. by intros σ. Qed.

Lemma keeps_stuck {A} : keeps_cache (@stuck A).
Proof. by intros σ. Qed.

Lemma keeps_gets {A} (f : Store → A) : keeps_cache (gets f).
Proof. by intros σ. Qed.

Lemma keeps_get_some {A} (f : Store → option A) : keeps_cache (get_some f).
Proof. intros σ. unfold get_some. by destruct (f σ). Qed.

Lemma keeps_alloc : keeps_cache alloc.
Proof. by intros σ. Qed.

Lemma keeps_bind {A B} (m : M A) (k : A → M B) :
  keeps_cache m → (∀ a, keeps_cache (k a)) → keeps_cache (m ≫= k).
Proof.
  intros Hm Hk σ. rewrite bind_run. specialize (Hm σ).
  destruct (m σ) as [[a|e|] σ']; simpl in *; [|done..].
  etrans; [exact Hm|apply Hk].
Qed.

Lemma keeps_modify_tbl f : keeps_cache (modify (with_tbl f)).
Proof. by intros σ. Qed.

Lemma keeps_modify_frame f : keeps_cache (modify (with_graphic_frame f)).
Proof. by intros σ. Qed.

Lemma keeps_checked check v write :
  keeps_cache write → keeps_cache (checked check v write).
Proof. intros Hw σ. unfold checked. by destruct (check v). Qed.

Lemma keeps_tr_set_h {T : AttrTypes} tr v : keeps_cache (tr_set_h tr v).
Proof.
  apply keeps_checked. intros σ. by destruct (_ !! _).
Qed.

Lemma keeps_gridCol_set_w {T : AttrTypes} gridCol v :
  keeps_cache (gridCol_set_w gridCol v).
Proof.
  apply keeps_checked. intros σ. by destruct (_ !! _).
Qed.

Lemma keeps_tc_set_mar {T : AttrTypes} a tc v :
  keeps_cache (tc_set_mar a tc v).
Proof.
  intros σ. unfold tc_set_mar, checked.
  destruct v as [|z| | | |]; try done; [|destruct (tc_mar_check z); [done|]];
    by destruct (lookup_tc _ _).
Qed.

Lemma keeps_tc_set_anchor {T : AttrTypes} tc v :
  keeps_cache (tc_set_anchor tc v).
Proof.
  intros σ. unfold tc_set_anchor, checked.
  destruct v as [z|]; [destruct (tc_anchor_check z); [done|]|];
    by destruct (lookup_tc _ _).
Qed.

Lemma keeps_tbl_tc r c : keeps_cache (tbl_tc r c).
Proof. intros σ. unfold tbl_tc. by destruct (CT_Table_tc _ _ _). Qed.

Lemma keeps_list_getitem {A} (lst : list A) idx :
  keeps_cache (list_getitem lst idx).
Proof.
  intros σ. unfold list_getitem. cbv zeta.
  destruct (decide (_ < 0)); [done|]. by destruct (lst !! _).
Qed.

Lemma keeps_Table_rows t : keeps_cache (Table_rows t).
Proof.
  intros σ. rewrite Table_rows_run. simpl. split.
  - intros t' rs. apply lazy_rows_after_rows_mono.
  - by rewrite lazy_columns_after_rows.
Qed.

Lemma keeps_Table_columns t : keeps_cache (Table_columns t).
Proof.
  intros σ. rewrite Table_columns_run. simpl. split.
  - by rewrite lazy_rows_after_columns.
  - intros t' cs. apply lazy_columns_after_columns_mono.
Qed.

Lemma keeps_seq_next {A} (getitem : Z → M A) idx :
  keeps_cache (getitem idx) → keeps_cache (seq_next getitem idx).
Proof.
  intros Hg σ. unfold seq_next. specialize (Hg σ).
  destruct (getitem idx σ) as [[a|[msg|msg|msg]|] σ']; done.
Qed.

Lemma keeps_comprehension {I A B} (next : next_fn I A) (body : A → M B) fuel :
  (∀ it, keeps_cache (next it)) → (∀ a, keeps_cache (body a)) →
  ∀ it, keeps_cache (comprehension next body fuel it).
Proof.
  intros Hnext Hbody. induction fuel as [|fuel IH]; intros it; simpl.
  - apply keeps_stuck.
  - apply keeps_bind; [done|]. intros [[a|] it'].
    + apply keeps_bind; [done|]. intros b.
      apply keeps_bind; [done|]. intros bs. apply keeps_ret.
    + apply keeps_ret.
Qed.

#[local] Hint Resolve keeps_ret keeps_raise keeps_stuck keeps_gets
  keeps_get_some keeps_alloc keeps_modify_tbl keeps_modify_frame
  keeps_checked
  keeps_tr_set_h keeps_gridCol_set_w keeps_tc_set_mar keeps_tc_set_anchor
  keeps_tbl_tc
  keeps_list_getitem keeps_Table_rows keeps_Table_columns
  keeps_seq_next keeps_comprehension : keeps.

#[local] Hint Extern 2 (keeps_cache (_ ≫= _)) =>
  apply keeps_bind; [|intros ?] : keeps.
#[local] Hint Extern 3 (keeps_cache (if ?b then _ else _)) =>
  destruct b : keeps.
#[local] Hint Extern 3 (keeps_cache (match ?x with _ => _ end)) =>
  destruct x : keeps.

Ltac keeps := repeat (progress (intros; eauto 10 with keeps)).

Lemma keeps_new_Cell tc parent : keeps_cache (new_Cell tc parent).
Proof. unfold new_Cell. keeps. Qed.

Lemma keeps_RowCollection_getitem rs idx :
  keeps_cache (RowCollection_getitem rs idx).
Proof.
  unfold RowCollection_getitem, RowCollection_len, tbl_tr_lst, new_Row.
  keeps.
Qed.

Lemma keeps_ColumnCollection_getitem cs idx :
  keeps_cache (ColumnCollection_getitem cs idx).
Proof.
  unfold ColumnCollection_getitem, tbl_gridCol_lst, new_Column. keeps.
Qed.

Lemma keeps_CellCollection_getitem cells idx :
  keeps_cache (CellCollection_getitem cells idx).
Proof.
  pose proof keeps_new_Cell.
  unfold CellCollection_getitem, tr_tc_lst. keeps.
Qed.

Lemma keeps_cell_generator_next g : keeps_cache (cell_generator_next g).
Proof.
  pose proof keeps_new_Cell. unfold cell_generator_next.
  destruct (_ !! _); keeps.
Qed.

Lemma keeps_Table_notify_height_changed {T : AttrTypes} fuel t :
  keeps_cache (Table_notify_height_changed fuel t).
Proof.
  pose proof keeps_RowCollection_getitem.
  unfold Table_notify_height_changed, frame_set_height, Row_height, tr_get_h.
  keeps.
Qed.

Lemma keeps_Table_notify_width_changed {T : AttrTypes} fuel t :
  keeps_cache (Table_notify_width_changed fuel t).
Proof.
  pose proof keeps_ColumnCollection_getitem.
  unfold Table_notify_width_changed, frame_set_width, Column_width,
    gridCol_get_w.
  keeps.
Qed.

Lemma keeps_exec {T : AttrTypes} str fuel c : keeps_cache (exec str fuel c).
Proof.
  pose proof keeps_new_Cell.
  pose proof keeps_RowCollection_getitem.
  pose proof keeps_ColumnCollection_getitem.
  pose proof keeps_CellCollection_getitem.
  pose proof keeps_cell_generator_next.
  pose proof keeps_Table_notify_height_changed.
  pose proof keeps_Table_notify_width_changed.
  destruct c; unfold exec, drop_result, py_list.
  - unfold new_Table. keeps.
  - unfold Table_cell. keeps.
  - keeps.
  - keeps.
  - destruct f; unfold Table_flag, Table_first_row, Table_first_col,
      Table_last_row, Table_last_col, Table_horz_banding, Table_vert_banding;
      keeps.
  - destruct f; unfold Table_flag_setter, Table_first_row_setter,
      Table_first_col_setter, Table_last_row_setter, Table_last_col_setter,
      Table_horz_banding_setter, Table_vert_banding_setter; keeps.
  - keeps.
  - keeps.
  - destruct a; unfold Cell_margin, Cell_margin_left, Cell_margin_right,
      Cell_margin_top, Cell_margin_bottom, tc_get_mar; keeps.
  - rewrite margin_setter_unfold. unfold Cell_validate_margin_value.
    apply keeps_bind; [|keeps].
    destruct (_ && _); [|keeps]. destruct (format_s _ _ _ _); keeps.
  - unfold Cell_is_merge_origin, tc_is_merge_origin. keeps.
  - unfold Cell_vertical_anchor, tc_get_anchor. keeps.
  - unfold Cell_vertical_anchor_setter. keeps.
  - unfold Column_width, gridCol_get_w. keeps.
  - unfold Column_width_setter, ColumnCollection_notify_width_changed. keeps.
  - unfold Row_height, tr_get_h. keeps.
  - unfold Row_height_setter, RowCollection_notify_height_changed. keeps.
  - unfold Row_cells, new_CellCollection. keeps.
  - keeps.
  - unfold CellCollection_len, tr_tc_lst. keeps.
  - unfold CellCollection_iter, tr_tc_lst. keeps.
  - keeps.
  - unfold ColumnCollection_len, tbl_gridCol_lst. keeps.
  - keeps.
  - unfold ColumnCollection_notify_width_changed. keeps.
  - keeps.
  - unfold RowCollection_len, tbl_tr_lst. keeps.
  - keeps.
  - unfold RowCollection_notify_height_changed. keeps.
Qed.

Lemma exec_all_cache_le {T : AttrTypes} str fuel calls : ∀ σ,
  cache_le σ (exec_all str fuel calls σ).
Proof.
  unfold exec_all. induction calls as [|c calls IH]; intros σ; simpl; [done|].
  etrans; [apply (keeps_exec str fuel c)|apply IH].
Qed.

(** C7. For every [Table] object, the first access to [rows] (and to
    [columns]) makes the collection and keeps it; every later access,
    after any calls on the objects of the module, returns that same
    object and makes nothing. *)
Theorem C7_cached_collections {T : AttrTypes} (str : value → string)
    (table : Table) (σ : Store) :
  (∃ rows σ1,
     Table_rows table σ = (Ret rows, σ1)
     ∧ (lazy_rows σ !! Table_id table = None →
        rows = {| RowCollection_id := next_id σ;
                  RowCollection_parent := table |}
        ∧ next_id σ1 = S (next_id σ))
     ∧ ∀ fuel calls,
         let σ2 := exec_all str fuel calls σ1 in
         Table_rows table σ2 = (Ret rows, σ2))
  ∧ (∃ columns σ1,
       Table_columns table σ = (Ret columns, σ1)
       ∧ (lazy_columns σ !! Table_id table = None →
          columns = {| ColumnCollection_id := next_id σ;
                       ColumnCollection_parent := table |}
          ∧ next_id σ1 = S (next_id σ))
       ∧ ∀ fuel calls,
           let σ2 := exec_all str fuel calls σ1 in
           Table_columns table σ2 = (Ret columns, σ2)).
Proof.
  split.
  - exists (rows_of table σ), (after_rows table σ). split_and!.
    + apply Table_rows_run.
    + intros E. unfold rows_of, after_rows. by rewrite E.
    + intros fuel calls σ2.
      destruct (exec_all_cache_le str fuel calls (after_rows table σ))
        as [Hrows _].
      specialize (Hrows _ _ (lazy_rows_after_rows table σ)).
      fold σ2 in Hrows. rewrite Table_rows_run.
      unfold rows_of, after_rows. by rewrite Hrows.
  - exists (columns_of table σ), (after_columns table σ). split_and!.
    + apply Table_columns_run.
    + intros E. unfold columns_of, after_columns. by rewrite E.
    + intros fuel calls σ2.
      destruct (exec_all_cache_le str fuel calls (after_columns table σ))
        as [_ Hcols].
      specialize (Hcols _ _ (lazy_columns_after_columns table σ)).
      fold σ2 in Hcols. rewrite Table_columns_run.
      unfold columns_of, after_columns. by rewrite Hcols.
Qed.

Lemma C7_cached_collections_witness :
  lazy_rows table_2x3 !! Table_id the_table = None
  ∧ ∃ rows σ1,
      Table_rows the_table table_2x3 = (Ret rows, σ1)
      ∧ RowCollection_id rows = 1%nat
      ∧ let σ2 := exec_all (T := emu_types) (λ _, "") 3
                    [CallRowsGetitem rows 5; CallTable;
                     CallSetMargin MarL
                       {| Cell_id := 7; Cell_tc := (0, 0)%nat;
                          Cell_parent := ParentTable the_table |} (PyStr "x");
                     CallRowsNotify rows] σ1 in
        Table_rows the_table σ2 = (Ret rows, σ2).
Proof.
  assert (lazy_rows table_2x3 !! Table_id the_table = None) as Hnone
    by reflexivity.
  split; [exact Hnone|].
  destruct (C7_cached_collections (T := emu_types) (λ _, "") the_table
              table_2x3)
    as [(rows & σ1 & Hrun & Hfirst & Hlater) _].
  exists rows, σ1. split; [exact Hrun|].
  destruct (Hfirst Hnone) as [-> _]. split; [reflexivity|].
  apply Hlater.
Defined.

(** * Further properties *)

(** ** Equality of cells *)

(** X1. [==] on cells is reflexive, symmetric and transitive, and [!=]
    is the negation of [==] for every right-hand operand. *)
Theorem X1_cell_eq_equivalence :
  (∀ a : _Cell, Cell_eq a (OCell a) = true)
  ∧ (∀ a b : _Cell, Cell_eq a (OCell b) = Cell_eq b (OCell a))
  ∧ (∀ a b c : _Cell,
       Cell_eq a (OCell b) = true → Cell_eq b (OCell c) = true →
       Cell_eq a (OCell c) = true)
  ∧ (∀ (a : _Cell) (x : object), Cell_ne a x = negb (Cell_eq a x)).
Proof.
  unfold Cell_eq, Cell_ne. split_and!.
  - intros a. simpl. by apply bool_decide_eq_true.
  - intros a b. simpl. apply bool_decide_ext. split; congruence.
  - intros a b c. simpl. rewrite !bool_decide_eq_true. congruence.
  - intros a x. by destruct (isinstance_Cell x).
Qed.

Lemma X1_cell_eq_equivalence_witness :
  let a := {| Cell_id := 1; Cell_tc := (0, 1)%nat;
              Cell_parent := ParentTable the_table |} in
  let b := {| Cell_id := 2; Cell_tc := (0, 1)%nat;
              Cell_parent := ParentTable the_table |} in
  let c := {| Cell_id := 3; Cell_tc := (0, 1)%nat;
              Cell_parent := ParentTable the_table |} in
  Cell_eq a (OCell b) = true ∧ Cell_eq b (OCell c) = true
  ∧ Cell_eq a (OCell c) = true.
Proof.
  intros a b c.
  assert (Cell_eq a (OCell b) = true) as Hab by reflexivity.
  assert (Cell_eq b (OCell c) = true) as Hbc by reflexivity.
  split; [exact Hab|]. split; [exact Hbc|].
  destruct X1_cell_eq_equivalence as (_ & _ & Htrans & _).
  exact (Htrans a b c Hab Hbc).
Defined.

(** ** The style flags *)

Lemma read_write_flag f g v T :
  read_flag g (write_flag f v T) = if decide (g = f) then v else read_flag g T.
Proof. destruct f, g; by case_decide. Qed.

Lemma Table_flag_run f t σ : Table_flag f t σ = (Ret (read_flag f (tbl σ)), σ).
Proof. by destruct f. Qed.

Lemma Table_flag_setter_run f t v σ :
  Table_flag_setter f t v σ = (Ret tt, with_tbl (write_flag f v) σ).
Proof. by destruct f. Qed.

(** X2. Assigning a style flag returns; afterwards every [Table] proxy
    reads the assigned value for that flag and the old value for each
    of the other five, and the rows, the columns, the merged regions,
    the frame and the cached collections are as before. *)
Theorem X2_flag_write_read (f : flag) (t : Table) (v : bool) (σ : Store) :
  ∃ σ', Table_flag_setter f t v σ = (Ret tt, σ')
    ∧ (∀ t', Table_flag f t' σ' = (Ret v, σ'))
    ∧ (∀ g t', g ≠ f → Table_flag g t' σ' = (Ret (read_flag g (tbl σ)), σ'))
    ∧ tr_lst (tbl σ') = tr_lst (tbl σ)
    ∧ tblGrid (tbl σ') = tblGrid (tbl σ)
    ∧ spans (tbl σ') = spans (tbl σ)
    ∧ graphic_frame σ' = graphic_frame σ
    ∧ lazy_rows σ' = lazy_rows σ ∧ lazy_columns σ' = lazy_columns σ
    ∧ next_id σ' = next_id σ.
Proof.
  eexists. split; [apply Table_flag_setter_run|]. split_and!; try done.
  - intros t'. rewrite Table_flag_run. simpl.
    by rewrite read_write_flag, decide_True.
  - intros g t' Hg. rewrite Table_flag_run. simpl.
    by rewrite read_write_flag, decide_False.
Qed.

Lemma X2_flag_write_read_witness :
  LastRow ≠ FirstRow
  ∧ ∃ σ', Table_flag_setter FirstRow the_table false table_2x3 = (Ret tt, σ')
      ∧ Table_flag FirstRow the_table σ' = (Ret false, σ')
      ∧ Table_flag LastRow the_table σ' = (Ret false, σ').
Proof.
  assert (LastRow ≠ FirstRow) as Hne by done.
  split; [exact Hne|].
  destruct (X2_flag_write_read FirstRow the_table false table_2x3)
    as (σ' & Hrun & Hsame & Hother & _).
  exists σ'. split; [exact Hrun|]. split; [apply Hsame|].
  exact (Hother LastRow the_table Hne).
Defined.

(** ** The attributes of a cell *)

Lemma lookup_alter_tc f (tc tc' : nat * nat) T :
  lookup_tc (alter_tc f tc T) tc'
  = if decide (tc' = tc) then f <$> lookup_tc T tc' else lookup_tc T tc'.
Proof.
  destruct tc as [r c], tc' as [r' c']. unfold lookup_tc, alter_tc. simpl.
  destruct (decide (r' = r)) as [->|Hr].
  - rewrite list_lookup_alter_eq.
    destruct (tr_lst T !! r) as [row|]; simpl; [|by case_decide].
    destruct (decide (c' = c)) as [->|Hc].
    + rewrite list_lookup_alter_eq. by rewrite decide_True.
    + rewrite list_lookup_alter_ne by done.
      rewrite decide_False; [done|]. congruence.
  - rewrite list_lookup_alter_ne by done.
    rewrite decide_False; [done|]. congruence.
Qed.

Lemma h_alter_tc f tc T :
  h <$> tr_lst (alter_tc f tc T) = h <$> tr_lst T.
Proof.
  unfold alter_tc. simpl. apply list_eq. intros k.
  rewrite !list_lookup_fmap.
  destruct (decide (k = tc.1)) as [->|Hk].
  - rewrite list_lookup_alter_eq. by destruct (tr_lst T !! _).
  - by rewrite list_lookup_alter_ne.
Qed.

Lemma alter_tc_written f cell tc σ :
  lookup_tc (tbl σ) (Cell_tc cell) = Some tc →
  cell_written cell tc f σ (with_tbl (alter_tc f (Cell_tc cell)) σ).
Proof.
  intros Htc. unfold cell_written. simpl. split_and!; try done.
  - by rewrite lookup_alter_tc, decide_True, Htc.
  - intros tc' Hne. by rewrite lookup_alter_tc, decide_False.
  - apply h_alter_tc.
Qed.

Lemma tc_get_mar_run a (tc : nat * nat) elt σ :
  lookup_tc (tbl σ) tc = Some elt →
  tc_get_mar a tc σ = (Ret (default (default_mar a) (read_mar a elt)), σ).
Proof. intros E. unfold tc_get_mar, get_some. by rewrite E. Qed.

Lemma tc_get_anchor_run (tc : nat * nat) elt σ :
  lookup_tc (tbl σ) tc = Some elt →
  tc_get_anchor tc σ = (Ret (anchor elt), σ).
Proof. intros E. unfold tc_get_anchor, get_some. by rewrite E. Qed.

Lemma Cell_margin_run a cell elt σ :
  lookup_tc (tbl σ) (Cell_tc cell) = Some elt →
  Cell_margin a cell σ
  = (Ret (default (default_mar a) (read_mar a elt)), σ).
Proof. intros E. destruct a; by apply tc_get_mar_run. Qed.

Lemma read_write_mar a b v tc :
  read_mar b (write_mar a v tc) = if decide (b = a) then v else read_mar b tc.
Proof. destruct a, b; by case_decide. Qed.

(** X3. When the assignment of an integer [z] (of any sign) to a margin
    of a cell returns, the type of the attribute had accepted [z] and
    [z] is stored: every proxy of that element reads it back.  The
    other three margins read as before (an absent one as its default),
    and the anchor of the cell, the other cells, the row heights, the
    columns and the frame are as before: a margin write notifies
    nobody.  The assignment returns whenever the type accepts [z]; when
    the type refuses [z] the assignment raises the [ValueError] of the
    type and the store is as it was.  Assigning [None] returns and
    clears the attribute; every proxy of the element then reads the
    default of that margin, 91440 for left and right and 45720 for top
    and bottom. *)
Theorem X3_margin_write_read {T : AttrTypes} (str : value → string)
    (a : margin_attr) (cell : _Cell) (tc : CT_TableCell) (σ : Store) :
  lookup_tc (tbl σ) (Cell_tc cell) = Some tc →
  (∀ z σ',
     Cell_margin_setter str a cell (PyInt z) σ = (Ret tt, σ') →
     tc_mar_check z = None
     ∧ cell_written cell tc (write_mar a (Some z)) σ σ'
     ∧ (∀ cell', Cell_tc cell' = Cell_tc cell →
          Cell_margin a cell' σ' = (Ret z, σ'))
     ∧ (∀ b, b ≠ a →
          Cell_margin b cell σ'
          = (Ret (default (default_mar b) (read_mar b tc)), σ'))
     ∧ Cell_vertical_anchor cell σ' = (Ret (anchor tc), σ'))
  ∧ (∀ z, tc_mar_check z = None →
       ∃ σ', Cell_margin_setter str a cell (PyInt z) σ = (Ret tt, σ'))
  ∧ (∀ z msg, tc_mar_check z = Some msg →
       Cell_margin_setter str a cell (PyInt z) σ
       = (Raise (ValueError msg), σ))
  ∧ (∃ σ',
       Cell_margin_setter str a cell PyNone σ = (Ret tt, σ')
       ∧ cell_written cell tc (write_mar a None) σ σ'
       ∧ (∀ cell', Cell_tc cell' = Cell_tc cell →
            Cell_margin a cell' σ' = (Ret (default_mar a), σ'))).
Proof.
  intros Htc.
  destruct (margin_setter_accepts str a cell (PyNone) σ tc Htc) as [_ Hnone].
  split_and!.
  - intros z σ' Hrun.
    destruct (margin_setter_accepts str a cell (PyInt z) σ tc Htc)
      as [Hint _].
    rewrite (Hint z eq_refl) in Hrun.
    destruct (tc_mar_check z) as [msg|]; [done|]. injection Hrun as <-.
    split; [done|].
    pose proof (alter_tc_written (write_mar a (Some z)) cell tc σ Htc)
      as Hw.
    split; [exact Hw|]. destruct Hw as (Hnew & _).
    split_and!.
    + intros cell' E. rewrite (Cell_margin_run a cell' _ _)
        by (rewrite E; exact Hnew).
      by rewrite read_write_mar, decide_True.
    + intros b Hb. rewrite (Cell_margin_run b cell _ _ Hnew).
      by rewrite read_write_mar, decide_False.
    + unfold Cell_vertical_anchor.
      rewrite (tc_get_anchor_run _ _ _ Hnew). by destruct a.
  - intros z Hz.
    destruct (margin_setter_accepts str a cell (PyInt z) σ tc Htc)
      as [Hint _].
    eexists. by rewrite (Hint z eq_refl), Hz.
  - intros z msg Hz.
    destruct (margin_setter_accepts str a cell (PyInt z) σ tc Htc)
      as [Hint _].
    by rewrite (Hint z eq_refl), Hz.
  - eexists. split; [by apply Hnone|].
    pose proof (alter_tc_written (write_mar a None) cell tc σ Htc) as Hw.
    split; [exact Hw|]. destruct Hw as (Hnew & _).
    intros cell' E. rewrite (Cell_margin_run a cell' _ _)
      by (rewrite E; exact Hnew).
    by rewrite read_write_mar, decide_True.
Qed.

Lemma X3_margin_write_read_witness :
  lookup_tc (tbl table_2x3) (Cell_tc corner_cell) = Some plain_cell
  ∧ Cell_margin MarT corner_cell table_2x3 = (Ret 45720, table_2x3)
  ∧ ∃ σ', Cell_margin_setter (T := emu_types) (λ _, "") MarT corner_cell
            (PyInt (-5)) table_2x3
          = (Ret tt, σ')
      ∧ Cell_margin MarT corner_cell σ' = (Ret (-5), σ')
      ∧ Cell_margin MarB corner_cell σ' = (Ret 45720, σ').
Proof.
  assert (lookup_tc (tbl table_2x3) (Cell_tc corner_cell) = Some plain_cell)
    as Htc by reflexivity.
  split; [exact Htc|]. split; [reflexivity|].
  destruct (X3_margin_write_read (T := emu_types) (λ _, "") MarT corner_cell
              plain_cell table_2x3 Htc) as (Hret & Hrun & _).
  destruct (Hrun (-5) eq_refl) as [σ' Hσ']. exists σ'.
  split; [exact Hσ'|].
  destruct (Hret (-5) σ' Hσ') as (_ & _ & Hsame & Hother & _).
  split; [by apply Hsame|].
  apply (Hother MarB). discriminate.
Defined.

Lemma Cell_vertical_anchor_setter_run {T : AttrTypes} cell v elt σ :
  lookup_tc (tbl σ) (Cell_tc cell) = Some elt →
  match v with Some z => tc_anchor_check z = None | None => True end →
  Cell_vertical_anchor_setter cell v σ
  = (Ret tt, with_tbl (alter_tc (write_anchor v) (Cell_tc cell)) σ).
Proof.
  intros E Hv. unfold Cell_vertical_anchor_setter, tc_set_anchor, checked.
  destruct v as [z|]; [rewrite Hv|]; by rewrite E.
Qed.

(** ** Size assignments: what they leave alone, and how they fail *)

(** X4. When [table.columns[j].width = v] returns, it has written the
    width of column [j] and the width of the frame and nothing else of
    the document: the other columns, the rows and their cells, the
    flags and the height of the frame are as before, so a frame height
    that was not the sum of the row heights still is not.  It returns
    whenever the types of the column width and of the frame width
    accept [v] and the new sum.  When the type of the column width
    refuses [v], the assignment raises that [ValueError] and neither
    the tree nor the frame is written.  When the column accepts [v] and
    the frame refuses the new sum, the assignment raises the frame's
    [ValueError] after the column was written: the column has width
    [v] and the frame keeps the width it had. *)
Theorem X4_column_width_frame {T : AttrTypes} (table : Table) (σ : Store)
    (j v : Z) (fuel : nat) :
  0 ≤ j < py_len (gridCol_lst (tblGrid (tbl σ))) →
  (length (gridCol_lst (tblGrid (tbl σ))) < fuel)%nat →
  (∀ σ', assign fuel table (SetWidth j v) σ = (Ret tt, σ') →
     gridCol_lst (tblGrid (tbl σ'))
     = <[Z.to_nat j := {| w := v |}]> (gridCol_lst (tblGrid (tbl σ)))
     ∧ (∀ k, k ≠ Z.to_nat j →
          gridCol_lst (tblGrid (tbl σ')) !! k
          = gridCol_lst (tblGrid (tbl σ)) !! k)
     ∧ tr_lst (tbl σ') = tr_lst (tbl σ)
     ∧ (∀ f, read_flag f (tbl σ') = read_flag f (tbl σ))
     ∧ spans (tbl σ') = spans (tbl σ)
     ∧ height (graphic_frame σ') = height (graphic_frame σ)
     ∧ width (graphic_frame σ')
       = Zsum (w <$> gridCol_lst (tblGrid (tbl σ')))
     ∧ lazy_rows σ' = lazy_rows σ
     ∧ (∀ t cs, lazy_columns σ !! t = Some cs →
          lazy_columns σ' !! t = Some cs))
  ∧ (accepted (doc σ) (SetWidth j v) →
     ∃ σ', assign fuel table (SetWidth j v) σ = (Ret tt, σ'))
  ∧ (∀ msg, gridCol_w_check v = Some msg →
       ∃ σ', assign fuel table (SetWidth j v) σ
             = (Raise (ValueError msg), σ')
             ∧ doc σ' = doc σ)
  ∧ (∀ msg,
       gridCol_w_check v = None →
       frame_width_check
         (Zsum (w <$> gridCol_lst
                        (tblGrid (write_w (Z.to_nat j) v (tbl σ)))))
       = Some msg →
       ∃ σ', assign fuel table (SetWidth j v) σ
             = (Raise (ValueError msg), σ')
             ∧ tbl σ' = write_w (Z.to_nat j) v (tbl σ)
             ∧ graphic_frame σ' = graphic_frame σ).
Proof.
  intros Hj Hfuel. split_and!.
  - intros σ' Hrun. apply assign_width_ret in Hrun as [_ ->]; [|done..].
    rewrite tbl_width_changed, graphic_frame_width_changed. simpl.
    rewrite tbl_after_columns, graphic_frame_after_columns.
    split_and!; try done.
    + intros k Hk. by rewrite list_lookup_insert_ne.
    + rewrite lazy_rows_after_columns. simpl. apply lazy_rows_after_columns.
    + intros t cs E. apply lazy_columns_after_columns_mono. simpl.
      by apply lazy_columns_after_columns_mono.
  - intros Hacc. eexists. by apply assign_width_run.
  - intros msg Hv. rewrite assign_width_cases by done. cbv zeta.
    rewrite Hv. eexists. split; [done|]. apply doc_bump_after_columns.
  - intros msg Hv Hsum. rewrite assign_width_cases by done. cbv zeta.
    rewrite Hv, Hsum. eexists. split; [done|]. simpl.
    rewrite tbl_after_columns, graphic_frame_after_columns. simpl.
    by rewrite tbl_after_columns, graphic_frame_after_columns.
Qed.

Lemma X4_column_width_frame_witness :
  0 ≤ 0 < py_len (gridCol_lst (tblGrid (tbl table_2x3)))
  ∧ (length (gridCol_lst (tblGrid (tbl table_2x3))) < 4)%nat
  ∧ accepted (T := emu_types) (doc table_2x3) (SetWidth 0 5)
  ∧ (∃ σ', assign (T := emu_types) 4 the_table (SetWidth 0 5) table_2x3
           = (Ret tt, σ')
       ∧ w <$> gridCol_lst (tblGrid (tbl σ')) = [5; 914400; 914400]
       ∧ width (graphic_frame σ') = 1828805
       ∧ height (graphic_frame σ') = 741680
       ∧ tr_lst (tbl σ') = tr_lst (tbl table_2x3))
  ∧ (∃ msg σ',
       assign (T := emu_types) 4 the_table (SetWidth 0 27273042316900)
         table_2x3
       = (Raise (ValueError msg), σ')
       ∧ w <$> gridCol_lst (tblGrid (tbl σ'))
         = [27273042316900; 914400; 914400]
       ∧ width (graphic_frame σ') = 2743200).
Proof.
  assert (0 ≤ 0 < py_len (gridCol_lst (tblGrid (tbl table_2x3)))) as Hj
    by (unfold py_len; simpl; lia).
  assert (length (gridCol_lst (tblGrid (tbl table_2x3))) < 4)%nat as Hfuel
    by (simpl; lia).
  assert (accepted (T := emu_types) (doc table_2x3) (SetWidth 0 5)) as Hacc
    by (split; reflexivity).
  split; [exact Hj|]. split; [exact Hfuel|]. split; [exact Hacc|].
  split.
  - destruct (X4_column_width_frame (T := emu_types) the_table table_2x3
                0 5 4 Hj Hfuel) as (Hret & Hrun & _).
    destruct (Hrun Hacc) as [σ' Hσ']. exists σ'. split; [exact Hσ'|].
    destruct (Hret σ' Hσ') as (Hcols & _ & Hrows & _ & _ & Hh & Hw & _).
    rewrite Hw, Hh, Hcols. split_and!; [reflexivity..|exact Hrows].
  - destruct (X4_column_width_frame (T := emu_types) the_table table_2x3
                0 27273042316900 4 Hj Hfuel) as (_ & _ & _ & Hframe).
    eexists.
    destruct (Hframe _ eq_refl eq_refl) as (σ' & Hσ' & Htbl & Hgf).
    exists σ'. split; [exact Hσ'|]. rewrite Htbl, Hgf.
    split; reflexivity.
Defined.

Lemma doc_after_rows t σ : doc (after_rows t σ) = doc σ.
Proof. unfold doc. by rewrite tbl_after_rows, graphic_frame_after_rows. Qed.

Lemma doc_after_columns t σ : doc (after_columns t σ) = doc σ.
Proof.
  unfold doc. by rewrite tbl_after_columns, graphic_frame_after_columns.
Qed.

(** X5. With an index below 0 or not below the length, a size
    assignment raises the [IndexError] of the collection, for any
    amount of fuel, and neither the tree nor the frame is written. *)
Theorem X5_assignment_out_of_range {T : AttrTypes} (fuel : nat)
    (table : Table) (a : assignment) (σ : Store) :
  ¬ in_range (length (tr_lst (tbl σ)))
             (length (gridCol_lst (tblGrid (tbl σ)))) a →
  ∃ σ', assign fuel table a σ
        = (Raise (IndexError
                    match a with
                    | SetHeight i _ =>
                        "row index [" +:+ pretty i +:+ "] out of range"
                    | SetWidth j _ =>
                        "column index [" +:+ pretty j +:+ "] out of range"
                    end), σ')
        ∧ doc σ' = doc σ.
Proof.
  intros Ha. destruct a as [i v|j v]; simpl in Ha; unfold assign.
  - exists (after_rows table σ). split; [|apply doc_after_rows].
    rewrite (bind_ret _ _ _ _ _ (Table_rows_run table σ)).
    apply bind_raise, RowCollection_getitem_out.
    rewrite tbl_after_rows. lia.
  - exists (after_columns table σ). split; [|apply doc_after_columns].
    rewrite (bind_ret _ _ _ _ _ (Table_columns_run table σ)).
    apply bind_raise, ColumnCollection_getitem_out.
    rewrite tbl_after_columns. lia.
Qed.

Lemma X5_assignment_out_of_range_witness :
  ¬ in_range (length (tr_lst (tbl table_2x3)))
             (length (gridCol_lst (tblGrid (tbl table_2x3))))
             (SetHeight (-1) 7)
  ∧ ∃ σ', assign (T := emu_types) 0 the_table (SetHeight (-1) 7) table_2x3
          = (Raise (IndexError "row index [-1] out of range"), σ')
          ∧ doc σ' = doc table_2x3.
Proof.
  assert (¬ in_range (length (tr_lst (tbl table_2x3)))
             (length (gridCol_lst (tblGrid (tbl table_2x3))))
             (SetHeight (-1) 7)) as Hout by (simpl; lia).
  split; [exact Hout|].
  exact (X5_assignment_out_of_range (T := emu_types) 0 the_table
           (SetHeight (-1) 7) table_2x3 Hout).
Defined.

(** ** Size assignments: how they compose *)

Lemma assign_doc_comm d a b :
  0 ≤ match a with SetHeight i _ | SetWidth i _ => i end →
  0 ≤ match b with SetHeight i _ | SetWidth i _ => i end →
  target a ≠ target b →
  assign_doc (assign_doc d a) b = assign_doc (assign_doc d b) a.
Proof.
  destruct d as [T G], a as [i v|j v], b as [i' v'|j' v'];
    unfold assign_doc, write_h, write_w; simpl; intros Ha Hb Hne; try done.
  - assert (Z.to_nat i' ≠ Z.to_nat i) by (intros E; apply Hne; f_equal; lia).
    by rewrite list_alter_alter_ne.
  - assert (Z.to_nat j' ≠ Z.to_nat j) by (intros E; apply Hne; f_equal; lia).
    by rewrite list_insert_insert_ne.
Qed.

Lemma assign_doc_overwrite d a b :
  target a = target b → assign_doc (assign_doc d a) b = assign_doc d b.
Proof.
  destruct d as [T G], a as [i v|j v], b as [i' v'|j' v'];
    unfold assign_doc, write_h, write_w; simpl; intros [= ->].
  - by rewrite list_alter_alter_eq.
  - by rewrite list_insert_insert_eq.
Qed.

Lemma write_h_write_h tr v v' T :
  write_h tr v' (write_h tr v T) = write_h tr v' T.
Proof. unfold write_h; simpl. by rewrite list_alter_alter_eq. Qed.

Lemma write_w_write_w gridCol v v' T :
  write_w gridCol v' (write_w gridCol v T) = write_w gridCol v' T.
Proof. unfold write_w; simpl. by rewrite list_insert_insert_eq. Qed.

Lemma accepted_overwrite {T : AttrTypes} d a b :
  target a = target b → accepted (assign_doc d a) b → accepted d b.
Proof.
  destruct a as [i v|j v], b as [i' v'|j' v']; intros He; try done;
    injection He as ->; unfold accepted, assign_doc; cbn [fst].
  - by rewrite write_h_write_h.
  - by rewrite write_w_write_w.
Qed.

(** X6. Two size assignments with indices in range compose as writes to
    independent slots, as far as the tree and the frame go.  On
    different rows or columns they commute: whenever both orders
    return, they end with the same tree and frame.  On the same row or
    column the second value is the one that stays: whenever the pair
    returns, the second assignment alone returns too and ends with the
    same tree and frame.  The pair returns whenever the types accept
    each value and each sum the frame is given on the way. *)
Theorem X6_assignments_compose {T : AttrTypes} (fuel : nat) (table : Table)
    (a b : assignment) (σ : Store) :
  in_range (length (tr_lst (tbl σ)))
           (length (gridCol_lst (tblGrid (tbl σ)))) a →
  in_range (length (tr_lst (tbl σ)))
           (length (gridCol_lst (tblGrid (tbl σ)))) b →
  (length (tr_lst (tbl σ)) < fuel)%nat →
  (length (gridCol_lst (tblGrid (tbl σ))) < fuel)%nat →
  (target a ≠ target b →
   ∀ σab σba,
     assign_all fuel table [a; b] σ = (Ret tt, σab) →
     assign_all fuel table [b; a] σ = (Ret tt, σba) →
     doc σab = doc σba)
  ∧ (target a = target b →
     ∀ σab,
       assign_all fuel table [a; b] σ = (Ret tt, σab) →
       ∃ σb, assign_all fuel table [b] σ = (Ret tt, σb)
             ∧ doc σab = doc σb)
  ∧ (accepted_all (doc σ) [a; b] →
     ∃ σab, assign_all fuel table [a; b] σ = (Ret tt, σab)).
Proof.
  intros Ha Hb Hr Hc. split_and!.
  - intros Hne σab σba Hab Hba.
    apply assign_all_ret_doc in Hab as [_ Dab];
      [|by repeat constructor|done..].
    apply assign_all_ret_doc in Hba as [_ Dba];
      [|by repeat constructor|done..].
    rewrite Dab, Dba. simpl. apply assign_doc_comm; [..|done].
    + destruct a; simpl in *; lia.
    + destruct b; simpl in *; lia.
  - intros He σab Hab.
    apply assign_all_ret_doc in Hab as [(_ & Hacc & _) Dab];
      [|by repeat constructor|done..].
    apply (accepted_overwrite _ _ _ He) in Hacc.
    destruct (assign_all_run_doc fuel table [b] σ) as (σb & Hrb & Db);
      [by repeat constructor|done..|by split|].
    exists σb. split; [done|].
    rewrite Dab, Db. simpl. by apply assign_doc_overwrite.
  - intros Hacc.
    destruct (assign_all_run_doc fuel table [a; b] σ) as (σab & Hab & _);
      [by repeat constructor|done..|].
    by exists σab.
Qed.

Lemma X6_assignments_compose_witness :
  let a := SetHeight 0 100 in
  let b := SetWidth 2 30 in
  target a ≠ target b
  ∧ accepted_all (T := emu_types) (doc table_2x3) [a; b]
  ∧ accepted_all (T := emu_types) (doc table_2x3) [b; a]
  ∧ ∃ σab σba,
      assign_all (T := emu_types) 4 the_table [a; b] table_2x3 = (Ret tt, σab)
      ∧ assign_all (T := emu_types) 4 the_table [b; a] table_2x3
        = (Ret tt, σba)
      ∧ doc σab = doc σba.
Proof.
  intros a b.
  assert (target a ≠ target b) as Hne by done.
  assert (target b ≠ target a) as Hne' by done.
  assert (accepted_all (T := emu_types) (doc table_2x3) [a; b]) as Hab
    by (repeat split; reflexivity).
  assert (accepted_all (T := emu_types) (doc table_2x3) [b; a]) as Hba
    by (repeat split; reflexivity).
  split; [exact Hne|]. split; [exact Hab|]. split; [exact Hba|].
  destruct (X6_assignments_compose (T := emu_types) 4 the_table a b
              table_2x3)
    as (Hcomm & _ & Hrun); [simpl; lia..|].
  destruct (X6_assignments_compose (T := emu_types) 4 the_table b a
              table_2x3)
    as (_ & _ & Hrun'); [simpl; lia..|].
  destruct (Hrun Hab) as [σab Eab]. destruct (Hrun' Hba) as [σba Eba].
  exists σab, σba. split; [exact Eab|]. split; [exact Eba|].
  exact (Hcomm Hne σab σba Eab Eba).
Defined.

(** ** Recomputing the aggregates *)

Lemma doc_height_changed t σ :
  doc (height_changed t σ)
  = (tbl σ, {| height := Zsum (h <$> tr_lst (tbl σ));
               width := width (graphic_frame σ) |}).
Proof.
  unfold doc. by rewrite tbl_height_changed, graphic_frame_height_changed.
Qed.

Lemma doc_width_changed t σ :
  doc (width_changed t σ)
  = (tbl σ, {| height := height (graphic_frame σ);
               width := Zsum (w <$> gridCol_lst (tblGrid (tbl σ))) |}).
Proof.
  unfold doc. by rewrite tbl_width_changed, graphic_frame_width_changed.
Qed.

Lemma doc_bump n σ : doc (bump n σ) = doc σ.
Proof. done. Qed.

(** X7. [notify_height_changed], called on a table or on a row
    collection, hands the frame the sum of the row heights, whatever
    the frame held.  When the type of the frame's height accepts the
    sum, the call returns and the height of the frame is that sum; it
    writes nothing of the tree and not the width; a second call
    returns and changes nothing more of the tree and the frame; a
    table without rows gets height 0.  When the type refuses the sum,
    the call raises the [ValueError] of the type and the tree and the
    frame are as they were.  The same holds for
    [notify_width_changed] over the columns. *)
Theorem X7_notify_recomputes {T : AttrTypes} (fuel : nat) (σ : Store) :
  (length (tr_lst (tbl σ)) < fuel)%nat →
  (length (gridCol_lst (tblGrid (tbl σ))) < fuel)%nat →
  (∀ (t : Table) (rows : _RowCollection),
     (frame_height_check (Zsum (h <$> tr_lst (tbl σ))) = None →
      ∃ σ1 σ2 σ3,
        Table_notify_height_changed fuel t σ = (Ret tt, σ1)
        ∧ Table_notify_height_changed fuel t σ1 = (Ret tt, σ2)
        ∧ RowCollection_notify_height_changed fuel rows σ = (Ret tt, σ3)
        ∧ doc σ1 = (tbl σ, {| height := Zsum (h <$> tr_lst (tbl σ));
                              width := width (graphic_frame σ) |})
        ∧ doc σ2 = doc σ1 ∧ doc σ3 = doc σ1
        ∧ (tr_lst (tbl σ) = [] → height (graphic_frame σ1) = 0))
     ∧ (∀ msg,
          frame_height_check (Zsum (h <$> tr_lst (tbl σ))) = Some msg →
          ∃ σ1 σ3,
            Table_notify_height_changed fuel t σ
            = (Raise (ValueError msg), σ1)
            ∧ RowCollection_notify_height_changed fuel rows σ
              = (Raise (ValueError msg), σ3)
            ∧ doc σ1 = doc σ ∧ doc σ3 = doc σ))
  ∧ (∀ (t : Table) (columns : _ColumnCollection),
       (frame_width_check (Zsum (w <$> gridCol_lst (tblGrid (tbl σ))))
        = None →
        ∃ σ1 σ2 σ3,
          Table_notify_width_changed fuel t σ = (Ret tt, σ1)
          ∧ Table_notify_width_changed fuel t σ1 = (Ret tt, σ2)
          ∧ ColumnCollection_notify_width_changed fuel columns σ
            = (Ret tt, σ3)
          ∧ doc σ1 = (tbl σ, {| height := height (graphic_frame σ);
                                width := Zsum (w <$> gridCol_lst
                                                       (tblGrid (tbl σ))) |})
          ∧ doc σ2 = doc σ1 ∧ doc σ3 = doc σ1
          ∧ (gridCol_lst (tblGrid (tbl σ)) = [] →
             width (graphic_frame σ1) = 0))
       ∧ (∀ msg,
            frame_width_check (Zsum (w <$> gridCol_lst (tblGrid (tbl σ))))
            = Some msg →
            ∃ σ1 σ3,
              Table_notify_width_changed fuel t σ
              = (Raise (ValueError msg), σ1)
              ∧ ColumnCollection_notify_width_changed fuel columns σ
                = (Raise (ValueError msg), σ3)
              ∧ doc σ1 = doc σ ∧ doc σ3 = doc σ)).
Proof.
  intros Hr Hc. split.
  - intros t rows. split.
    + intros Hok. do 3 eexists. split_and!.
      * by apply Table_notify_height_changed_run.
      * apply Table_notify_height_changed_run;
          by rewrite tbl_height_changed.
      * unfold RowCollection_notify_height_changed.
        by apply Table_notify_height_changed_run.
      * apply doc_height_changed.
      * rewrite !doc_height_changed, tbl_height_changed.
        by rewrite graphic_frame_height_changed.
      * by rewrite !doc_height_changed.
      * intros E. rewrite graphic_frame_height_changed. simpl. by rewrite E.
    + intros msg Hno. unfold RowCollection_notify_height_changed.
      rewrite !Table_notify_height_changed_cases by done. rewrite Hno.
      do 2 eexists. split; [reflexivity|]. split; [reflexivity|].
      by rewrite !doc_bump, !doc_after_rows.
  - intros t columns. split.
    + intros Hok. do 3 eexists. split_and!.
      * by apply Table_notify_width_changed_run.
      * apply Table_notify_width_changed_run;
          by rewrite tbl_width_changed.
      * unfold ColumnCollection_notify_width_changed.
        by apply Table_notify_width_changed_run.
      * apply doc_width_changed.
      * rewrite !doc_width_changed, tbl_width_changed.
        by rewrite graphic_frame_width_changed.
      * by rewrite !doc_width_changed.
      * intros E. rewrite graphic_frame_width_changed. simpl. by rewrite E.
    + intros msg Hno. unfold ColumnCollection_notify_width_changed.
      rewrite !Table_notify_width_changed_cases by done. rewrite Hno.
      do 2 eexists. split; [reflexivity|]. split; [reflexivity|].
      by rewrite !doc_bump, !doc_after_columns.
Qed.

Lemma X7_notify_recomputes_witness :
  (length (tr_lst (tbl table_stale)) < 4)%nat
  ∧ (length (gridCol_lst (tblGrid (tbl table_stale))) < 4)%nat
  ∧ doc table_stale = (tbl table_2x3, {| height := 1; width := 2 |})
  ∧ frame_height_check (AttrTypes := emu_types)
      (Zsum (h <$> tr_lst (tbl table_stale))) = None
  ∧ ∃ σ1, Table_notify_height_changed (T := emu_types) 4 the_table
            table_stale = (Ret tt, σ1)
      ∧ doc σ1 = (tbl table_2x3, {| height := 741680; width := 2 |}).
Proof.
  assert (length (tr_lst (tbl table_stale)) < 4)%nat as Hr by (simpl; lia).
  assert (length (gridCol_lst (tblGrid (tbl table_stale))) < 4)%nat as Hc
    by (simpl; lia).
  assert (frame_height_check (AttrTypes := emu_types)
            (Zsum (h <$> tr_lst (tbl table_stale))) = None) as Hok
    by reflexivity.
  split; [exact Hr|]. split; [exact Hc|]. split; [reflexivity|].
  split; [exact Hok|].
  destruct (X7_notify_recomputes (T := emu_types) 4 table_stale Hr Hc)
    as [Hh _].
  destruct (Hh the_table (rows_of the_table table_stale)) as [Hret _].
  destruct (Hret Hok) as (σ1 & σ2 & σ3 & Hrun & _ & _ & Hdoc & _).
  exists σ1. split; [exact Hrun|exact Hdoc].
Defined.

(** ** What no call does *)

Section preserves.
Context {T : AttrTypes}.
Variable R : Store → Store → Prop.
Hypothesis R_refl : ∀ σ, R σ σ.
Hypothesis R_trans : ∀ σ1 σ2 σ3, R σ1 σ2 → R σ2 σ3 → R σ1 σ3.
Hypothesis R_alloc : ∀ σ, R σ (bump 1 σ).
Hypothesis R_lazy_rows : ∀ f σ, R σ (with_lazy_rows f σ).
Hypothesis R_lazy_columns : ∀ f σ, R σ (with_lazy_columns f σ).
Hypothesis R_flag : ∀ f v σ, R σ (with_tbl (write_flag f v) σ).
Hypothesis R_cell : ∀ f tc σ, R σ (with_tbl (alter_tc f tc) σ).

Lemma preserves_ret {A} (a : A) : preserves R (mret a).
Proof. intros σ. apply R_refl. Qed.

Lemma preserves_raise {A} e : preserves R (@raise A e).
Proof. intros σ. apply R_refl. Qed.

Lemma preserves_stuck {A} : preserves R (@stuck A).
Proof. intros σ. apply R_refl. Qed.

Lemma preserves_gets {A} (f : Store → A) : preserves R (gets f).
Proof. intros σ. apply R_refl. Qed.

Lemma preserves_get_some {A} (f : Store → option A) :
  preserves R (get_some f).
Proof. intros σ. unfold get_some. destruct (f σ); apply R_refl. Qed.

Lemma preserves_alloc : preserves R alloc.
Proof. intros σ. apply R_alloc. Qed.

Lemma preserves_bind {A B} (m : M A) (k : A → M B) :
  preserves R m → (∀ a, preserves R (k a)) → preserves R (m ≫= k).
Proof.
  intros Hm Hk σ. rewrite bind_run. specialize (Hm σ).
  destruct (m σ) as [[a|e|] σ']; simpl in *; [|done..].
  eapply R_trans; [exact Hm|apply Hk].
Qed.

Lemma preserves_modify_lazy_rows f : preserves R (modify (with_lazy_rows f)).
Proof. intros σ. apply R_lazy_rows. Qed.

Lemma preserves_modify_lazy_columns f :
  preserves R (modify (with_lazy_columns f)).
Proof. intros σ. apply R_lazy_columns. Qed.

Lemma preserves_modify_flag f v : preserves R (modify (with_tbl (write_flag f v))).
Proof. intros σ. apply R_flag. Qed.

Lemma preserves_checked check v write :
  preserves R write → preserves R (checked check v write).
Proof.
  intros Hw σ. unfold checked. destruct (check v); [apply R_refl|apply Hw].
Qed.

Lemma preserves_tc_set_mar a tc v : preserves R (tc_set_mar a tc v).
Proof.
  unfold tc_set_mar.
  destruct v as [|z| | | |]; try apply preserves_stuck;
    [|apply preserves_checked]; intros σ;
    destruct (lookup_tc _ _); simpl; first [apply R_cell | apply R_refl].
Qed.

Lemma preserves_tc_set_anchor tc v : preserves R (tc_set_anchor tc v).
Proof.
  unfold tc_set_anchor.
  destruct v as [z|]; [apply preserves_checked|]; intros σ;
    destruct (lookup_tc _ _); simpl; first [apply R_cell | apply R_refl].
Qed.

Lemma preserves_tbl_tc r c : preserves R (tbl_tc r c).
Proof. intros σ. unfold tbl_tc. destruct (CT_Table_tc _ _ _); apply R_refl. Qed.

Lemma preserves_list_getitem {A} (lst : list A) idx :
  preserves R (list_getitem lst idx).
Proof.
  intros σ. unfold list_getitem. cbv zeta.
  destruct (decide (_ < 0)); [apply R_refl|].
  destruct (lst !! _); apply R_refl.
Qed.

Lemma preserves_seq_next {A} (getitem : Z → M A) idx :
  preserves R (getitem idx) → preserves R (seq_next getitem idx).
Proof.
  intros Hg σ. unfold seq_next. specialize (Hg σ).
  destruct (getitem idx σ) as [[a|[msg|msg|msg]|] σ']; done.
Qed.

Lemma preserves_comprehension {I A B} (next : next_fn I A) (body : A → M B)
    fuel :
  (∀ it, preserves R (next it)) → (∀ a, preserves R (body a)) →
  ∀ it, preserves R (comprehension next body fuel it).
Proof.
  intros Hnext Hbody. induction fuel as [|fuel IH]; intros it; simpl.
  - apply preserves_stuck.
  - apply preserves_bind; [done|]. intros [[a|] it'].
    + apply preserves_bind; [done|]. intros b.
      apply preserves_bind; [done|]. intros bs. apply preserves_ret.
    + apply preserves_ret.
Qed.

Create HintDb pres.

#[local] Hint Resolve preserves_ret preserves_raise preserves_stuck
  preserves_gets preserves_get_some preserves_alloc
  preserves_modify_lazy_rows preserves_modify_lazy_columns
  preserves_modify_flag preserves_checked preserves_tc_set_mar
  preserves_tc_set_anchor preserves_tbl_tc preserves_list_getitem preserves_seq_next
  preserves_comprehension : pres.
#[local] Hint Extern 2 (preserves _ (_ ≫= _)) =>
  apply preserves_bind; [|intros ?] : pres.
#[local] Hint Extern 3 (preserves _ (if ?b then _ else _)) =>
  destruct b : pres.
#[local] Hint Extern 3 (preserves _ (match ?x with _ => _ end)) =>
  destruct x : pres.

Ltac pres := repeat (progress (intros; eauto 10 with pres)).

Lemma preserves_new_Cell tc parent : preserves R (new_Cell tc parent).
Proof. unfold new_Cell. pres. Qed.

Lemma preserves_RowCollection_getitem rs idx :
  preserves R (RowCollection_getitem rs idx).
Proof.
  unfold RowCollection_getitem, RowCollection_len, tbl_tr_lst, new_Row. pres.
Qed.

Lemma preserves_ColumnCollection_getitem cs idx :
  preserves R (ColumnCollection_getitem cs idx).
Proof.
  unfold ColumnCollection_getitem, tbl_gridCol_lst, new_Column. pres.
Qed.

Lemma preserves_CellCollection_getitem cells idx :
  preserves R (CellCollection_getitem cells idx).
Proof.
  pose proof preserves_new_Cell.
  unfold CellCollection_getitem, tr_tc_lst. pres.
Qed.

Lemma preserves_cell_generator_next g : preserves R (cell_generator_next g).
Proof.
  pose proof preserves_new_Cell. unfold cell_generator_next.
  destruct (_ !! _); pres.
Qed.

Lemma preserves_Table_rows t : preserves R (Table_rows t).
Proof. unfold Table_rows, new_RowCollection. pres. Qed.

Lemma preserves_Table_columns t : preserves R (Table_columns t).
Proof. unfold Table_columns, new_ColumnCollection. pres. Qed.

(** Every call but the six that write a size or recompute an
    aggregate. *)
Lemma preserves_exec_other str fuel c :
  size_call c = false → preserves R (exec str fuel c).
Proof.
  pose proof preserves_new_Cell.
  pose proof preserves_RowCollection_getitem.
  pose proof preserves_ColumnCollection_getitem.
  pose proof preserves_CellCollection_getitem.
  pose proof preserves_cell_generator_next.
  pose proof preserves_Table_rows.
  pose proof preserves_Table_columns.
  destruct c; try discriminate; intros _; unfold exec, drop_result, py_list.
  - unfold new_Table. pres.
  - unfold Table_cell. pres.
  - pres.
  - pres.
  - destruct f; unfold Table_flag, Table_first_row, Table_first_col,
      Table_last_row, Table_last_col, Table_horz_banding, Table_vert_banding;
      pres.
  - destruct f; unfold Table_flag_setter, Table_first_row_setter,
      Table_first_col_setter, Table_last_row_setter, Table_last_col_setter,
      Table_horz_banding_setter, Table_vert_banding_setter; pres.
  - destruct a; unfold Cell_margin, Cell_margin_left, Cell_margin_right,
      Cell_margin_top, Cell_margin_bottom, tc_get_mar; pres.
  - rewrite margin_setter_unfold. unfold Cell_validate_margin_value.
    apply preserves_bind; [|pres].
    destruct (_ && _); [|pres]. destruct (format_s _ _ _ _); pres.
  - unfold Cell_is_merge_origin, tc_is_merge_origin. pres.
  - unfold Cell_vertical_anchor, tc_get_anchor. pres.
  - unfold Cell_vertical_anchor_setter. pres.
  - unfold Column_width, gridCol_get_w. pres.
  - unfold Row_height, tr_get_h. pres.
  - unfold Row_cells, new_CellCollection. pres.
  - pres.
  - unfold CellCollection_len, tr_tc_lst. pres.
  - unfold CellCollection_iter, tr_tc_lst. pres.
  - pres.
  - unfold ColumnCollection_len, tbl_gridCol_lst. pres.
  - pres.
  - pres.
  - unfold RowCollection_len, tbl_tr_lst. pres.
  - pres.
Qed.

Hypothesis R_h : ∀ tr v σ, R σ (with_tbl (write_h tr v) σ).
Hypothesis R_w : ∀ gridCol v σ, R σ (with_tbl (write_w gridCol v) σ).
Hypothesis R_frame : ∀ f σ, R σ (with_graphic_frame f σ).

Lemma preserves_tr_set_h tr v : preserves R (tr_set_h tr v).
Proof.
  apply preserves_checked. intros σ.
  destruct (_ !! _); simpl; [apply R_h|apply R_refl].
Qed.

Lemma preserves_gridCol_set_w gridCol v : preserves R (gridCol_set_w gridCol v).
Proof.
  apply preserves_checked. intros σ.
  destruct (_ !! _); simpl; [apply R_w|apply R_refl].
Qed.

Lemma preserves_modify_frame f : preserves R (modify (with_graphic_frame f)).
Proof. intros σ. apply R_frame. Qed.

Lemma preserves_Table_notify_height_changed fuel t :
  preserves R (Table_notify_height_changed fuel t).
Proof.
  pose proof preserves_RowCollection_getitem.
  pose proof preserves_Table_rows. pose proof preserves_modify_frame.
  unfold Table_notify_height_changed, frame_set_height, Row_height, tr_get_h.
  pres.
Qed.

Lemma preserves_Table_notify_width_changed fuel t :
  preserves R (Table_notify_width_changed fuel t).
Proof.
  pose proof preserves_ColumnCollection_getitem.
  pose proof preserves_Table_columns. pose proof preserves_modify_frame.
  unfold Table_notify_width_changed, frame_set_width, Column_width,
    gridCol_get_w.
  pres.
Qed.

Lemma preserves_exec str fuel c : preserves R (exec str fuel c).
Proof.
  destruct (size_call c) eqn:E; [|by apply preserves_exec_other].
  pose proof preserves_Table_notify_height_changed.
  pose proof preserves_Table_notify_width_changed.
  pose proof preserves_tr_set_h. pose proof preserves_gridCol_set_w.
  destruct c; try discriminate; unfold exec.
  - pres.
  - pres.
  - unfold Column_width_setter, ColumnCollection_notify_width_changed. pres.
  - unfold Row_height_setter, RowCollection_notify_height_changed. pres.
  - unfold ColumnCollection_notify_width_changed. pres.
  - unfold RowCollection_notify_height_changed. pres.
Qed.

Lemma preserves_exec_all str fuel calls : ∀ σ,
  R σ (exec_all str fuel calls σ).
Proof.
  unfold exec_all. induction calls as [|c calls IH]; intros σ; simpl.
  - apply R_refl.
  - eapply R_trans; [apply (preserves_exec str fuel c)|apply IH].
Qed.
End preserves.

Lemma shape_lengths T :
  length (shape T).1 = length (tr_lst T)
  ∧ (shape T).2 = length (gridCol_lst (tblGrid T)).
Proof. unfold shape. simpl. by rewrite length_fmap. Qed.

Lemma shape_write_h tr v T : shape (write_h tr v T) = shape T.
Proof.
  unfold shape, write_h. simpl. f_equal. apply list_eq. intros k.
  rewrite !list_lookup_fmap.
  destruct (decide (k = tr)) as [->|Hk].
  - rewrite list_lookup_alter_eq. by destruct (tr_lst T !! _).
  - by rewrite list_lookup_alter_ne.
Qed.

Lemma shape_write_w gridCol v T : shape (write_w gridCol v T) = shape T.
Proof. unfold shape, write_w. simpl. by rewrite length_insert. Qed.

Lemma shape_alter_tc f tc T : shape (alter_tc f tc T) = shape T.
Proof.
  unfold shape, alter_tc. simpl. f_equal. apply list_eq. intros k.
  rewrite !list_lookup_fmap.
  destruct (decide (k = tc.1)) as [->|Hk].
  - rewrite list_lookup_alter_eq.
    destruct (tr_lst T !! _); simpl; [|done]. by rewrite length_alter.
  - by rewrite list_lookup_alter_ne.
Qed.

Lemma exec_all_same_shape {T : AttrTypes} str fuel calls σ :
  same_shape σ (exec_all str fuel calls σ).
Proof.
  apply preserves_exec_all; unfold same_shape; simpl; try done.
  - intros σ1 σ2 σ3 E1 E2. congruence.
  - intros f tc σ'. apply shape_alter_tc.
  - intros tr v σ'. apply shape_write_h.
  - intros gridCol v σ'. apply shape_write_w.
Qed.

(** X8. No sequence of calls of the members embedded here, whatever
    each returns or raises, adds or removes a row, a column or a cell:
    the number of cells of each row and the number of columns are as at
    the start, and [len] of the row and column collections is what it
    was. *)
Theorem X8_grid_shape_is_fixed {T : AttrTypes} (str : value → string)
    (fuel : nat) (calls : list call) (σ : Store) :
  let σ' := exec_all str fuel calls σ in
  shape (tbl σ') = shape (tbl σ)
  ∧ (∀ rows : _RowCollection,
       RowCollection_len rows σ' = (Ret (py_len (tr_lst (tbl σ))), σ'))
  ∧ (∀ columns : _ColumnCollection,
       ColumnCollection_len columns σ'
       = (Ret (py_len (gridCol_lst (tblGrid (tbl σ)))), σ')).
Proof.
  intros σ'. pose proof (exec_all_same_shape str fuel calls σ) as Hs.
  fold σ' in Hs. unfold same_shape in Hs.
  destruct (shape_lengths (tbl σ)) as [Hr Hc].
  destruct (shape_lengths (tbl σ')) as [Hr' Hc'].
  rewrite Hs in Hr', Hc'. split; [done|]. split.
  - intros rows. rewrite RowCollection_len_run. unfold py_len. congruence.
  - intros columns. rewrite ColumnCollection_len_run. unfold py_len.
    congruence.
Qed.

Lemma exec_other_same_sizes {T : AttrTypes} str fuel c σ :
  size_call c = false → same_sizes σ (exec str fuel c σ).2.
Proof.
  intros Hc. revert σ.
  apply (preserves_exec_other same_sizes); unfold same_sizes; simpl;
    try done.
  - intros σ1 σ2 σ3 (E1 & E2 & E3) (E4 & E5 & E6). split_and!; congruence.
  - intros f tc σ'. split_and!; [apply h_alter_tc|done..].
Qed.

Lemma consistent_height_changed t σ :
  width (graphic_frame σ) = Zsum (w <$> gridCol_lst (tblGrid (tbl σ))) →
  consistent (height_changed t σ).
Proof.
  intros Hw. unfold consistent.
  by rewrite tbl_height_changed, graphic_frame_height_changed.
Qed.

Lemma consistent_width_changed t σ :
  height (graphic_frame σ) = Zsum (h <$> tr_lst (tbl σ)) →
  consistent (width_changed t σ).
Proof.
  intros Hh. unfold consistent.
  by rewrite tbl_width_changed, graphic_frame_width_changed.
Qed.

Lemma exec_consistent {T : AttrTypes} str fuel c σ :
  (length (tr_lst (tbl σ)) < fuel)%nat →
  (length (gridCol_lst (tblGrid (tbl σ))) < fuel)%nat →
  (∀ msg, (exec str fuel c σ).1 ≠ Raise (ValueError msg)) →
  consistent σ → consistent (exec str fuel c σ).2.
Proof.
  intros Hr Hc Hno [Hh Hw]. destruct (size_call c) eqn:E.
  - destruct c; try discriminate; unfold exec in *.
    + rewrite Table_notify_height_changed_cases in * by done.
      destruct (frame_height_check _) as [msg|]; [by destruct (Hno msg)|].
      by apply consistent_height_changed.
    + rewrite Table_notify_width_changed_cases in * by done.
      destruct (frame_width_check _) as [msg|]; [by destruct (Hno msg)|].
      by apply consistent_width_changed.
    + destruct (decide (Column_gridCol c < length
                          (gridCol_lst (tblGrid (tbl σ))))%nat) as [Hin|Hout].
      * rewrite Column_width_setter_cases in * by done. cbv zeta in *.
        destruct (gridCol_w_check v) as [msg|]; [by destruct (Hno msg)|].
        destruct (frame_width_check _) as [msg|]; [by destruct (Hno msg)|].
        by apply consistent_width_changed.
      * unfold Column_width_setter. rewrite bind_run.
        unfold gridCol_set_w, checked.
        destruct (gridCol_w_check v); [by split|].
        rewrite lookup_ge_None_2 by lia. by split.
    + destruct (decide (Row_tr r < length (tr_lst (tbl σ)))%nat)
        as [Hin|Hout].
      * rewrite Row_height_setter_cases in * by done. cbv zeta in *.
        destruct (tr_h_check v) as [msg|]; [by destruct (Hno msg)|].
        destruct (frame_height_check _) as [msg|]; [by destruct (Hno msg)|].
        by apply consistent_height_changed.
      * unfold Row_height_setter. rewrite bind_run.
        unfold tr_set_h, checked.
        destruct (tr_h_check v); [by split|].
        rewrite lookup_ge_None_2 by lia. by split.
    + unfold ColumnCollection_notify_width_changed in *.
      rewrite Table_notify_width_changed_cases in * by done.
      destruct (frame_width_check _) as [msg|]; [by destruct (Hno msg)|].
      by apply consistent_width_changed.
    + unfold RowCollection_notify_height_changed in *.
      rewrite Table_notify_height_changed_cases in * by done.
      destruct (frame_height_check _) as [msg|]; [by destruct (Hno msg)|].
      by apply consistent_height_changed.
  - destruct (exec_other_same_sizes str fuel c σ E) as (E1 & E2 & E3).
    unfold consistent. by rewrite E1, E2, E3.
Qed.

(** X9. Once the frame's height is the sum of the row heights and its
    width the sum of the column widths, they stay so through every
    sequence of calls of the members embedded here in which no call
    ends in a [ValueError], in any order and whatever else each call
    returns or raises, given fuel above the numbers of rows and
    columns. *)
Theorem X9_aggregates_stay_consistent {T : AttrTypes} (str : value → string)
    (fuel : nat) (calls : list call) : ∀ σ : Store,
  (length (tr_lst (tbl σ)) < fuel)%nat →
  (length (gridCol_lst (tblGrid (tbl σ))) < fuel)%nat →
  consistent σ →
  no_value_error str fuel calls σ →
  consistent (exec_all str fuel calls σ).
Proof.
  induction calls as [|c calls IH]; intros σ Hr Hc Hcons Hno; [done|].
  destruct Hno as [Hno Hrest].
  change (exec_all str fuel (c :: calls) σ)
    with (exec_all str fuel calls (exec str fuel c σ).2).
  pose proof (exec_all_same_shape str fuel [c] σ) as Hs.
  change (exec_all str fuel [c] σ) with (exec str fuel c σ).2 in Hs.
  unfold same_shape in Hs.
  destruct (shape_lengths (tbl σ)) as [Hr0 Hc0].
  destruct (shape_lengths (tbl (exec str fuel c σ).2)) as [Hr1 Hc1].
  rewrite Hs in Hr1, Hc1.
  apply IH; [lia..|by apply exec_consistent|done].
Qed.

Lemma X9_aggregates_stay_consistent_witness :
  let calls :=
    [CallSetHeight {| Row_id := 5; Row_tr := 1;
                      Row_parent := rows_of the_table table_2x3 |} 12;
     CallSetMargin MarL corner_cell (PyFloat 7 (-1));
     CallSetWidth {| Column_id := 6; Column_gridCol := 2;
                     Column_parent := columns_of the_table table_2x3 |} 3;
     CallColumnsGetitem (columns_of the_table table_2x3) (-2)] in
  (length (tr_lst (tbl table_2x3)) < 4)%nat
  ∧ (length (gridCol_lst (tblGrid (tbl table_2x3))) < 4)%nat
  ∧ consistent table_2x3
  ∧ no_value_error (T := emu_types) (λ _, "") 4 calls table_2x3
  ∧ consistent (exec_all (T := emu_types) (λ _, "") 4 calls table_2x3)
  ∧ doc (exec_all (T := emu_types) (λ _, "") 4 calls table_2x3)
    ≠ doc table_2x3.
Proof.
  intros calls.
  assert (length (tr_lst (tbl table_2x3)) < 4)%nat as Hr by (simpl; lia).
  assert (length (gridCol_lst (tblGrid (tbl table_2x3))) < 4)%nat as Hc
    by (simpl; lia).
  assert (consistent table_2x3) as Hcons by (split; reflexivity).
  assert (no_value_error (T := emu_types) (λ _, "") 4 calls table_2x3)
    as Hno.
  { unfold calls. cbn [no_value_error].
    split; [intros msg; vm_compute; discriminate|].
    split; [intros msg; vm_compute; discriminate|].
    split; [intros msg; vm_compute; discriminate|].
    split; [intros msg; vm_compute; discriminate|exact I]. }
  split; [exact Hr|]. split; [exact Hc|]. split; [exact Hcons|].
  split; [exact Hno|].
  split; [|vm_compute; discriminate].
  exact (X9_aggregates_stay_consistent (T := emu_types) _ 4 _ table_2x3
           Hr Hc Hcons Hno).
Defined.

(** ** Two ways to a cell *)

Lemma Row_cells_run row σ :
  Row_cells row σ
  = (Ret {| CellCollection_id := next_id σ; CellCollection_tr := Row_tr row;
            CellCollection_parent := row |}, bump 1 σ).
Proof. reflexivity. Qed.

Lemma Table_cell_unmerged table i j elt σ :
  0 ≤ i → 0 ≤ j →
  lookup_tc (tbl σ) (Z.to_nat i, Z.to_nat j) = Some elt →
  List.find (λ s, covers s (Z.to_nat i) (Z.to_nat j)) (spans (tbl σ)) = None →
  Table_cell table i j σ
  = (Ret {| Cell_id := next_id σ; Cell_tc := (Z.to_nat i, Z.to_nat j);
            Cell_parent := ParentTable table |}, bump 1 σ).
Proof.
  intros Hi Hj Helt Hfree. unfold Table_cell.
  erewrite bind_ret; [reflexivity|].
  unfold tbl_tc, CT_Table_tc. rewrite decide_False by lia.
  cbv zeta. by rewrite Helt, Hfree.
Qed.

(** X10. For a coordinate in range that lies in no merged region,
    [table.rows[i].cells[j]] and [table.cell(i, j)] both return, and the
    two cells are equal in both directions although they are different
    objects with different parents. *)
Theorem X10_cell_by_rows_is_cell (table : Table) (i j : Z)
    (row : CT_TableRow) (σ : Store) :
  0 ≤ i → tr_lst (tbl σ) !! Z.to_nat i = Some row →
  0 ≤ j < py_len (tc_lst row) →
  List.find (λ s, covers s (Z.to_nat i) (Z.to_nat j)) (spans (tbl σ)) = None →
  ∃ a σ1 b σ2,
    cell_by_rows table i j σ = (Ret a, σ1)
    ∧ Table_cell table i j σ1 = (Ret b, σ2)
    ∧ Cell_eq a (OCell b) = true ∧ Cell_eq b (OCell a) = true
    ∧ Cell_id a ≠ Cell_id b ∧ Cell_parent a ≠ Cell_parent b.
Proof.
  intros Hi Hrow Hj Hfree.
  assert (Z.to_nat i < length (tr_lst (tbl σ)))%nat as Hlt
    by (by eapply lookup_lt_Some).
  assert (∃ elt, tc_lst row !! Z.to_nat j = Some elt) as [elt Helt].
  { apply lookup_lt_is_Some_2. unfold py_len in Hj. lia. }
  do 4 eexists. split_and!.
  - unfold cell_by_rows.
    rewrite (bind_ret _ _ _ _ _ (Table_rows_run table σ)).
    erewrite bind_ret
      by (apply RowCollection_getitem_in; rewrite tbl_after_rows; lia).
    rewrite (bind_ret _ _ _ _ _ (Row_cells_run _ _)).
    apply (CellCollection_getitem_in _ _ row); [|done].
    simpl. by rewrite tbl_after_rows.
  - apply (Table_cell_unmerged _ _ _ elt); simpl; [lia..| |].
    + rewrite tbl_after_rows. unfold lookup_tc. simpl. by rewrite Hrow.
    + by rewrite tbl_after_rows.
  - by apply bool_decide_eq_true.
  - by apply bool_decide_eq_true.
  - simpl. lia.
  - done.
Qed.

Lemma X10_cell_by_rows_is_cell_witness :
  ∃ a σ1 b σ2,
    cell_by_rows the_table 1 2 table_2x3 = (Ret a, σ1)
    ∧ Table_cell the_table 1 2 σ1 = (Ret b, σ2)
    ∧ Cell_eq a (OCell b) = true ∧ Cell_id a ≠ Cell_id b.
Proof.
  destruct (X10_cell_by_rows_is_cell the_table 1 2
              {| h := 370840; tc_lst := replicate 3 plain_cell |} table_2x3)
    as (a & σ1 & b & σ2 & Ha & Hb & Heq & _ & Hid & _).
  - lia.
  - reflexivity.
  - unfold py_len. simpl. lia.
  - reflexivity.
  - exists a, σ1, b, σ2. split; [exact Ha|]. split; [exact Hb|].
    split; [exact Heq|exact Hid].
Defined.

(** ** Iterating and indexing the cells of a row *)

Lemma CellCollection_iter_run cells row σ :
  tr_lst (tbl σ) !! CellCollection_tr cells = Some row →
  CellCollection_iter cells σ
  = (Ret {| gen_self := cells;
            gen_lst := pair (CellCollection_tr cells)
                       <$> seq 0 (length (tc_lst row));
            gen_pos := 0 |}, σ).
Proof.
  intros Hrow. unfold CellCollection_iter.
  by rewrite (bind_ret _ _ _ _ _ (tr_tc_lst_run _ _ _ Hrow)).
Qed.

Lemma list_cells_run fuel cells row σ :
  tr_lst (tbl σ) !! CellCollection_tr cells = Some row →
  (length (tc_lst row) < fuel)%nat →
  list_cells fuel cells σ
  = (Ret (cells_from cells (next_id σ)
            (pair (CellCollection_tr cells) <$> seq 0 (length (tc_lst row)))),
     bump (length (tc_lst row)) σ).
Proof.
  intros Hrow Hfuel. unfold list_cells.
  rewrite (bind_ret _ _ _ _ _ (CellCollection_iter_run _ _ _ Hrow)).
  rewrite (cell_generator_run cells _ (length (tc_lst row)) 0 fuel σ);
    [reflexivity|by rewrite length_fmap, length_seq|done].
Qed.

(** X11. [list(cells)] and [cells[k]] agree: the iteration of a cell
    collection returns as many cells as [len(cells)], and the cell at
    position [k] of that list is equal to the cell [cells[k]] returns
    afterwards, a different object with the same parent. *)
Theorem X11_cells_iteration_matches_index (fuel : nat)
    (cells : _CellCollection) (row : CT_TableRow) (σ : Store) :
  tr_lst (tbl σ) !! CellCollection_tr cells = Some row →
  (length (tc_lst row) < fuel)%nat →
  ∃ items σ1,
    list_cells fuel cells σ = (Ret items, σ1)
    ∧ CellCollection_len cells σ1 = (Ret (py_len items), σ1)
    ∧ ∀ (k : nat) (c : _Cell),
        items !! k = Some c →
        ∃ c' σ2,
          CellCollection_getitem cells (Z.of_nat k) σ1 = (Ret c', σ2)
          ∧ Cell_eq c' (OCell c) = true ∧ Cell_eq c (OCell c') = true
          ∧ Cell_id c' ≠ Cell_id c
          ∧ Cell_parent c' = Cell_parent c.
Proof.
  intros Hrow Hfuel.
  assert (tr_lst (tbl (bump (length (tc_lst row)) σ))
          !! CellCollection_tr cells = Some row) as Hrow' by done.
  do 2 eexists. split; [by apply list_cells_run|]. split.
  - rewrite (CellCollection_len_run _ _ _ Hrow'). unfold py_len, cells_from.
    by rewrite length_imap, length_fmap, length_seq.
  - intros k c Hk. unfold cells_from in Hk.
    rewrite list_lookup_imap, list_lookup_fmap in Hk.
    destruct (seq 0 (length (tc_lst row)) !! k) as [k'|] eqn:Hseq;
      [|done].
    apply lookup_seq in Hseq as [-> Hlt]. simpl in Hk.
    injection Hk as <-.
    do 2 eexists. split_and!.
    + apply (CellCollection_getitem_in _ _ _ Hrow').
      unfold py_len. lia.
    + simpl. apply bool_decide_eq_true. simpl. by rewrite Nat2Z.id.
    + simpl. apply bool_decide_eq_true. simpl. by rewrite Nat2Z.id.
    + simpl. lia.
    + done.
Qed.

Lemma X11_cells_iteration_matches_index_witness :
  let cells := {| CellCollection_id := 3; CellCollection_tr := 1;
                  CellCollection_parent :=
                    {| Row_id := 2; Row_tr := 1;
                       Row_parent := rows_of the_table table_2x3 |} |} in
  let row := {| h := 370840; tc_lst := replicate 3 plain_cell |} in
  tr_lst (tbl table_2x3) !! CellCollection_tr cells = Some row
  ∧ (length (tc_lst row) < 4)%nat
  ∧ ∃ items σ1,
      list_cells 4 cells table_2x3 = (Ret items, σ1)
      ∧ CellCollection_len cells σ1 = (Ret (py_len items), σ1).
Proof.
  intros cells row.
  assert (tr_lst (tbl table_2x3) !! CellCollection_tr cells = Some row)
    as Hrow by reflexivity.
  assert (length (tc_lst row) < 4)%nat as Hfuel by (simpl; lia).
  split; [exact Hrow|]. split; [exact Hfuel|].
  destruct (X11_cells_iteration_matches_index 4 cells row table_2x3
              Hrow Hfuel) as (items & σ1 & Hrun & Hlen & _).
  exists items, σ1. split; [exact Hrun|exact Hlen].
Defined.

(** ** Proxies that are not kept *)

(** X12. Unlike [table.rows] and [table.columns], the row, column and
    cell-collection proxies are made anew on each access: [rows[i]]
    twice, [columns[j]] twice and [row.cells] twice each give two
    different objects that stand for the same element. *)
Theorem X12_proxies_are_made_anew (σ : Store) :
  (∀ (rows : _RowCollection) (i : Z),
     0 ≤ i < py_len (tr_lst (tbl σ)) →
     ∃ r1 σ1 r2 σ2,
       RowCollection_getitem rows i σ = (Ret r1, σ1)
       ∧ RowCollection_getitem rows i σ1 = (Ret r2, σ2)
       ∧ Row_id r1 ≠ Row_id r2 ∧ Row_tr r1 = Row_tr r2)
  ∧ (∀ (columns : _ColumnCollection) (j : Z),
       0 ≤ j < py_len (gridCol_lst (tblGrid (tbl σ))) →
       ∃ c1 σ1 c2 σ2,
         ColumnCollection_getitem columns j σ = (Ret c1, σ1)
         ∧ ColumnCollection_getitem columns j σ1 = (Ret c2, σ2)
         ∧ Column_id c1 ≠ Column_id c2
         ∧ Column_gridCol c1 = Column_gridCol c2)
  ∧ (∀ row : _Row,
       ∃ cells1 σ1 cells2 σ2,
         Row_cells row σ = (Ret cells1, σ1)
         ∧ Row_cells row σ1 = (Ret cells2, σ2)
         ∧ CellCollection_id cells1 ≠ CellCollection_id cells2
         ∧ CellCollection_tr cells1 = Row_tr row
         ∧ CellCollection_tr cells2 = Row_tr row
         ∧ CellCollection_parent cells1 = row
         ∧ CellCollection_parent cells2 = row).
Proof.
  unfold py_len. split_and!.
  - intros rows i Hi. do 4 eexists.
    split; [by apply RowCollection_getitem_in|].
    split; [by apply RowCollection_getitem_in|].
    simpl. split; [lia|done].
  - intros columns j Hj. do 4 eexists.
    split; [by apply ColumnCollection_getitem_in|].
    split; [by apply ColumnCollection_getitem_in|].
    simpl. split; [lia|done].
  - intros row. do 4 eexists.
    split; [apply Row_cells_run|]. split; [apply Row_cells_run|].
    simpl. split_and!; [lia|done..].
Qed.

Lemma X12_proxies_are_made_anew_witness :
  0 ≤ 1 < py_len (tr_lst (tbl table_2x3))
  ∧ ∃ r1 σ1 r2 σ2,
      RowCollection_getitem (rows_of the_table table_2x3) 1 table_2x3
      = (Ret r1, σ1)
      ∧ RowCollection_getitem (rows_of the_table table_2x3) 1 σ1
        = (Ret r2, σ2)
      ∧ Row_id r1 ≠ Row_id r2 ∧ Row_tr r1 = Row_tr r2.
Proof.
  assert (0 ≤ 1 < py_len (tr_lst (tbl table_2x3))) as Hi
    by (unfold py_len; simpl; lia).
  split; [exact Hi|].
  destruct (X12_proxies_are_made_anew table_2x3) as (Hrows & _ & _).
  exact (Hrows (rows_of the_table table_2x3) 1 Hi).
Defined.

(** ** What the margin setters refuse *)

(** X13. On a cell of the table, each margin setter raises a
    [TypeError] exactly when the value is neither an integer nor
    [None]; the store is then left as it was, and unless the value is a
    tuple the message is the template filled with [str] of the value.
    For a tuple of one element the message names that element.  The
    only other values for which a margin setter raises are the
    integers that the type of the attribute refuses. *)
Theorem X13_margin_setter_refusals {T : AttrTypes} (str : value → string)
    (a : margin_attr) (cell : _Cell) (tc : CT_TableCell) (v : value)
    (σ : Store) :
  lookup_tc (tbl σ) (Cell_tc cell) = Some tc →
  ((∃ msg σ', Cell_margin_setter str a cell v σ = (Raise (TypeError msg), σ'))
   ↔ is_integer v = false ∧ is_None v = false)
  ∧ ((∃ e σ', Cell_margin_setter str a cell v σ = (Raise e, σ'))
     ↔ (is_integer v = false ∧ is_None v = false)
       ∨ (∃ z msg, v = PyInt z ∧ tc_mar_check z = Some msg))
  ∧ (is_integer v = false → is_None v = false →
     ∃ msg, Cell_margin_setter str a cell v σ = (Raise (TypeError msg), σ)
            ∧ ((∀ items, v ≠ PyTuple items) → msg = margin_message str v)
            ∧ (∀ x, v = PyTuple [x] → msg = margin_message str x)).
Proof.
  intros Htc.
  split; [by apply (margin_setter_type_error_iff str a cell v σ tc)|].
  split; [by apply (margin_setter_raises_iff str a cell v σ tc)|].
  intros Hint Hnone.
  destruct (margin_setter_rejects str a cell v σ Hint Hnone)
    as (msg & Hrun & Hmsg).
  exists msg. split; [exact Hrun|]. split; [exact Hmsg|].
  intros x ->. rewrite margin_setter_unfold in Hrun.
  unfold Cell_validate_margin_value in Hrun. simpl in Hrun.
  rewrite bind_run in Hrun. simpl in Hrun. by injection Hrun as <-.
Qed.

Lemma X13_margin_setter_refusals_witness :
  lookup_tc (tbl table_2x3) (Cell_tc corner_cell) = Some plain_cell
  ∧ is_integer (PyFloat 7 (-1)) = false ∧ is_None (PyFloat 7 (-1)) = false
  ∧ Cell_margin_setter (T := emu_types) (λ _, "3.5") MarL corner_cell
      (PyFloat 7 (-1)) table_2x3
    = (Raise (TypeError "margin value must be integer or None, got '3.5'"),
       table_2x3).
Proof.
  assert (lookup_tc (tbl table_2x3) (Cell_tc corner_cell) = Some plain_cell)
    as Htc by reflexivity.
  split; [exact Htc|]. split; [reflexivity|]. split; [reflexivity|].
  destruct (X13_margin_setter_refusals (T := emu_types) (λ _, "3.5") MarL
              corner_cell plain_cell (PyFloat 7 (-1)) table_2x3 Htc)
    as (_ & _ & Hrej).
  destruct (Hrej eq_refl eq_refl) as (msg & Hrun & Hmsg & _).
  rewrite Hrun. rewrite Hmsg; [reflexivity|discriminate].
Defined.

(** ** Repairing a frame that is out of date *)

Lemma foldl_assign_doc_height l : ∀ d,
  height d.2 = Zsum (h <$> tr_lst d.1) ∨ (∃ i v, SetHeight i v ∈ l) →
  height (foldl assign_doc d l).2
  = Zsum (h <$> tr_lst (foldl assign_doc d l).1).
Proof.
  induction l as [|a l IH]; intros d Hd; simpl.
  - destruct Hd as [Hd|(i & v & Hin)]; [done|]. by apply elem_of_nil in Hin.
  - apply IH. destruct a as [i v|j v]; simpl.
    + by left.
    + destruct Hd as [Hd|(i & v' & Hin)]; [by left|].
      apply elem_of_cons in Hin as [[=]|Hin]. right. eauto.
Qed.

Lemma foldl_assign_doc_width l : ∀ d,
  width d.2 = Zsum (w <$> gridCol_lst (tblGrid d.1))
  ∨ (∃ j v, SetWidth j v ∈ l) →
  width (foldl assign_doc d l).2
  = Zsum (w <$> gridCol_lst (tblGrid (foldl assign_doc d l).1)).
Proof.
  induction l as [|a l IH]; intros d Hd; simpl.
  - destruct Hd as [Hd|(j & v & Hin)]; [done|]. by apply elem_of_nil in Hin.
  - apply IH. destruct a as [i v|j v]; simpl.
    + destruct Hd as [Hd|(j & v' & Hin)]; [by left|].
      apply elem_of_cons in Hin as [[=]|Hin]. right. eauto.
    + by left.
Qed.

(** X14. Whatever the frame held at the start, take a sequence of size
    assignments with indices in range that contains at least one row
    height assignment and at least one column width assignment.
    Whenever it returns, both aggregates of the frame equal their
    sums; and it returns whenever the types accept each value and each
    sum the frame is given on the way. *)
Theorem X14_assignments_repair_the_frame {T : AttrTypes} (fuel : nat)
    (table : Table) (l : list assignment) (σ : Store) :
  Forall (in_range (length (tr_lst (tbl σ)))
                   (length (gridCol_lst (tblGrid (tbl σ))))) l →
  (length (tr_lst (tbl σ)) < fuel)%nat →
  (length (gridCol_lst (tblGrid (tbl σ))) < fuel)%nat →
  (∃ i v, SetHeight i v ∈ l) → (∃ j v, SetWidth j v ∈ l) →
  (∀ σ', assign_all fuel table l σ = (Ret tt, σ') → consistent σ')
  ∧ (accepted_all (doc σ) l →
     ∃ σ', assign_all fuel table l σ = (Ret tt, σ') ∧ consistent σ').
Proof.
  intros Hl Hr Hc Hh Hw.
  assert (∀ σ', doc σ' = foldl assign_doc (doc σ) l → consistent σ')
    as Hcons.
  { intros σ' Hdoc. unfold consistent.
    change (tbl σ') with (doc σ').1.
    change (graphic_frame σ') with (doc σ').2. rewrite Hdoc. split.
    - apply foldl_assign_doc_height. by right.
    - apply foldl_assign_doc_width. by right. }
  split.
  - intros σ' Hrun. apply Hcons.
    by destruct (assign_all_ret_doc fuel table l σ σ' Hl Hr Hc Hrun).
  - intros Hacc.
    destruct (assign_all_run_doc fuel table l σ Hl Hr Hc Hacc)
      as (σ' & Hrun & Hdoc).
    exists σ'. split; [done|]. by apply Hcons.
Qed.

Lemma X14_assignments_repair_the_frame_witness :
  let l := [SetWidth 0 7; SetHeight 1 9] in
  ¬ consistent table_stale
  ∧ accepted_all (T := emu_types) (doc table_stale) l
  ∧ ∃ σ', assign_all (T := emu_types) 4 the_table l table_stale
          = (Ret tt, σ')
          ∧ consistent σ'.
Proof.
  intros l.
  assert (accepted_all (T := emu_types) (doc table_stale) l) as Hacc
    by (repeat split; reflexivity).
  split; [|split; [exact Hacc|]].
  - intros [Hh _]. vm_compute in Hh. discriminate.
  - apply (X14_assignments_repair_the_frame (T := emu_types) 4 the_table l
             table_stale); [| | | | |exact Hacc].
    + repeat constructor; simpl; lia.
    + simpl; lia.
    + simpl; lia.
    + exists 1, 9. apply list_elem_of_further, list_elem_of_here.
    + exists 0, 7. apply list_elem_of_here.
Defined.
